(** * CUE upload library: transfer orchestration core

    A shallow embedding of the upload library's JavaScript sources and the
    properties proved about them.

    Conventions of the embedding.
    - JavaScript numbers that hold byte counts, part numbers, attempt
      counters, HTTP status codes and the integral configuration values are
      integers ([Z]); [Math.ceil (a / b)] on them is the integer ceiling.
      The multipart threshold, which may be a fraction of a GB, is a
      rational ([Q]); its product with [1024 ** 3], a power of two, is
      exact.
    - A JavaScript [Error] is identified with its message.
    - An [async] function is a computation that yields the external calls it
      made (its trace) together with either the value it resolves to or the
      error it rejects with.
    - The backend and the file system are given by the answers they return
      in one run.  A request that the code may repeat is identified by its
      attempt number, so that every request of a run has exactly one answer,
      whatever the interleaving of the concurrent part uploads.
    - Progress notifications and console output are not part of the model. *)

From Stdlib Require Import ZArith QArith List String Ascii Bool Lia DecimalString Permutation.
Import ListNotations.

Local Open Scope string_scope.
Local Open Scope list_scope.
Local Open Scope Z_scope.

(** String concatenation, as [+] on strings and template literals. *)
Infix "+++" := String.append (right associativity, at level 60).

(** ** JavaScript values shared by all modules *)

(** [new Error(message)] *)
Definition Error := string.

(** A Node [Buffer] *)
Definition Buffer := list Byte.byte.

(** The settlement of a promise (or the completion of a synchronous call). *)
Inductive Outcome (A : Type) : Type :=
| Throw (e : Error)
| Return (a : A).
Arguments Throw {A} e.
Arguments Return {A} a.

(** Template literal interpolation of an integer: [`${n}`]. *)
Definition string_of_Z (z : Z) : string := NilZero.string_of_int (Z.to_int z).

(** [strings.join(sep)] *)
Fixpoint join (sep : string) (l : list string) : string :=
  match l with
  | [] => ""
  | [x] => x
  | x :: rest => x +++ sep +++ join sep rest
  end.

(** [s.replace(/c/g, "")] for a single character [c]. *)
Fixpoint remove_char (c : ascii) (s : string) : string :=
  match s with
  | EmptyString => EmptyString
  | String a rest =>
      if Ascii.eqb a c then remove_char c rest else String a (remove_char c rest)
  end.

(** [s.replace(/c/g, d)] for single characters [c] and [d]. *)
Fixpoint replace_char (c d : ascii) (s : string) : string :=
  match s with
  | EmptyString => EmptyString
  | String a rest =>
      String (if Ascii.eqb a c then d else a) (replace_char c d rest)
  end.

Definition double_quote : ascii := ascii_of_nat 34.
Definition backslash : ascii := ascii_of_nat 92.
Definition slash : ascii := ascii_of_nat 47.

(** JavaScript truthiness of an optional string: [undefined], [null] and the
    empty string are falsy. *)
Definition truthy (s : option string) : bool :=
  match s with
  | Some (String _ _) => true
  | _ => false
  end.

(** A value used as a number: a number, or a value (an object, say) whose
    conversion to a number is NaN. *)
Inductive JSNumber :=
| Num (n : Z)
| NaN.

(** [a < b] for a number [a]; every comparison with NaN is false. *)
Definition js_lt (a : Z) (b : JSNumber) : bool :=
  match b with
  | Num n => a <? n
  | NaN => false
  end.

(** [size > bytes] for an integral size and a possibly fractional number of
    bytes. *)
Definition exceeds (size : Z) (bytes : Q) : bool :=
  negb (Qle_bool (inject_Z size) bytes).

(** The values of the status fields: the strings pending, success and
    failed. *)
Inductive Status := pending | success | failed.

(** config.js, [defaultConfig]: the fields the transfer core reads. *)
Record Config := {
  multipart_threshold_gb : Q;
  multipart_chunk_size_mb : Z;
  retry_attempts : Z;
  file_concurrency : Z;
  part_concurrency : Z;
  user_ignored_patterns : list string
}.

Definition defaultConfig : Config := {|
  multipart_threshold_gb := 1%Q;
  multipart_chunk_size_mb := 256;
  retry_attempts := 3;
  file_concurrency := 4;
  part_concurrency := 4;
  user_ignored_patterns :=
    [".DS_Store"; "Thumbs.db"; "*.tmp"; "~$*"; "__pycache__/"; "*.pyc"; "*.pyo"; ".log"]
|}.

(** ** Partition of a file into parts (multipartUploader.js, lines 5-11, 86-89, 109-116) *)

Module Partition.

Definition S3_MAX_PARTS_JS_MPU : Z := 10000.

(** [class UploadPartTaskJS_MPU]: the fields set by the constructor. *)
Record UploadPartTaskJS_MPU := {
  partNumber : Z;
  offset : Z;
  size : Z;
  filePath : string;
  data : option Buffer;
  checksumSHA256 : option string;
  etag : option string;
  error : option Error;
  retries : Z
}.

Definition new_UploadPartTaskJS_MPU (partNumber offset size : Z) (filePath : string) :=
  {| partNumber := partNumber; offset := offset; size := size; filePath := filePath;
     data := None; checksumSHA256 := None; etag := None; error := None; retries := 0 |}.

(** Lines 86-87. *)
Definition chunkSizeOf (config : Config) : Z :=
  let chunkSize := multipart_chunk_size_mb config * 1024 * 1024 in
  if chunkSize <? 5 * 1024 * 1024 then 5 * 1024 * 1024 else chunkSize.

(** [Math.ceil(a / b)] for a positive divisor. *)
Definition Math_ceil_div (a b : Z) : Z := - ((- a) / b).

(** Line 88. *)
Definition numPartsOf (config : Config) (fileSize : Z) : Z :=
  Math_ceil_div fileSize (chunkSizeOf config).

(** The [for] loop of lines 111-115: [todo] iterations remain, [i] is the
    loop counter. *)
Fixpoint partLoop (todo : nat) (i chunkSize fileSize : Z) (filePath : string)
  : list UploadPartTaskJS_MPU :=
  match todo with
  | O => []
  | S todo' =>
      let size := Z.min chunkSize (fileSize - i * chunkSize) in
      if size <=? 0 then partLoop todo' (i + 1) chunkSize fileSize filePath
      else new_UploadPartTaskJS_MPU (i + 1) (i * chunkSize) size filePath
             :: partLoop todo' (i + 1) chunkSize fileSize filePath
  end.

(** Lines 109-116. *)
Definition makePartTasks (chunkSize numParts fileSize : Z) (filePath : string)
  : list UploadPartTaskJS_MPU :=
  if 0 <? numParts then partLoop (Z.to_nat numParts) 0 chunkSize fileSize filePath
  else [].

Definition partTasksOf (config : Config) (filePath : string) (fileSize : Z) :=
  makePartTasks (chunkSizeOf config) (numPartsOf config fileSize) fileSize filePath.

(** Part numbers run [k], [k+1], ... along the list. *)
Fixpoint numbered_from (k : Z) (l : list UploadPartTaskJS_MPU) : Prop :=
  match l with
  | [] => True
  | p :: rest => partNumber p = k /\ numbered_from (k + 1) rest
  end.

(** The byte ranges tile the file from position [pos] on, without gap,
    overlap or empty range. *)
Fixpoint contiguous_from (pos : Z) (l : list UploadPartTaskJS_MPU) : Prop :=
  match l with
  | [] => True
  | p :: rest => offset p = pos /\ 0 < size p /\ contiguous_from (pos + size p) rest
  end.

Definition total_size (l : list UploadPartTaskJS_MPU) : Z :=
  fold_right (fun p acc => size p + acc) 0 l.

End Partition.


(** ** External collaborators *)

(** A JSON value, as sent to the control-plane API. *)
#[warnings="-register-all"]
Inductive JSON :=
| JNull
| JNum (n : Z)
| JStr (s : string)
| JArr (items : list JSON)
| JObj (members : list (string * JSON)).

(** [x || null] for a string-valued [x]. *)
Definition or_null (s : option string) : JSON :=
  match s with
  | Some (String a rest) => JStr (String a rest)
  | _ => JNull
  end.

(** The answer of "upload/upload_url": a form upload when [fields] is present,
    a direct PUT otherwise. *)
Record PresignedInfo := {
  url : string;
  s3_key : string;
  fields : option (list (string * string))
}.

(** The answer of "multipart/start".  A missing field is the empty string,
    which the only test applied to it (line 105) does not tell apart. *)
Record StartResponse := {
  upload_id : string;
  start_s3_key : string
}.

Record PresignedPartInfo := { presigned_url : string }.

Record CompleteResponse := { Location : option string }.

(** What the storage helpers return: [{ status, headers }], of the headers
    the one the code reads. *)
Record S3Response := {
  status : Z;
  headers_etag : option string
}.

(** What the transfer of one file resolves to (multipartUploader.js line 177;
    singleFileUploader.js line 91, which has no [location]). *)
Record UploadResult := {
  file : string;
  result_status : Status;
  result_s3_key : string;
  location : option string
}.

(** A possibly absent string as a JSON member. *)
Definition opt_str (s : option string) : JSON :=
  match s with Some x => JStr x | None => JNull end.

(** Which storage PUT a call is: the one of the single-file path, or the one
    of a given attempt of a given part. *)
Inductive PutCall :=
| PutWholeFile
| PutPart (partNumber attempt : Z).

(** apiClient.js, [class ApiClient]: the answers of one run. *)
Record ApiClient := {
  getPresignedUrlSingle : Z -> JSON -> Error + PresignedInfo;
  confirmSingleUpload : JSON -> Error + unit;
  startMultipartUpload : JSON -> Error + StartResponse;
  getPresignedUrlForPart : Z -> JSON -> Error + PresignedPartInfo;
  completeMultipartUpload : JSON -> Error + CompleteResponse;
  abortMultipartUpload : JSON -> Error + unit;
  uploadToS3PresignedPost :
    string -> list (string * string) -> string -> string -> string -> Error + S3Response;
  uploadPartToS3PresignedPut : PutCall -> string -> Buffer -> Error + S3Response
}.

(** Node's [fs], [path] and [crypto], and the [mime-types] package. *)
Record Node := {
  (** the bytes a read stream over the file delivers, or its error *)
  createReadStream : string -> Error + Buffer;
  (** [fsPromises.readFile] *)
  readFile : string -> Error + Buffer;
  (** [open], [read(buffer, 0, size, offset)], [close]: the bytes read *)
  readAt : string -> Z -> Z -> Error + Buffer;
  (** [createHash('sha256').update(b).digest('base64')] *)
  sha256_base64 : Buffer -> string;
  path_basename : string -> string;
  path_extname : string -> string;
  toLowerCase : string -> string;
  mime_lookup : string -> option string
}.

(** The external calls a transfer makes, in the order it makes them. *)
Inductive Event :=
| GetPresignedUrlSingle (attempt : Z) (payload : JSON)
| UploadToS3PresignedPost (url : string)
| UploadPartToS3PresignedPut (call : PutCall) (url : string)
| ConfirmSingleUpload (payload : JSON)
| StartMultipartUpload (payload : JSON)
| GetPresignedUrlForPart (attempt : Z) (payload : JSON)
| CompleteMultipartUpload (payload : JSON)
| AbortMultipartUpload (payload : JSON)
| SetTimeout (ms : Z).

(** ** Asynchronous computations: a trace and a settlement *)

Definition Run (A : Type) : Type := (list Event * Outcome A)%type.

Definition ret {A} (a : A) : Run A := ([], Return a).

Definition throw {A} (e : Error) : Run A := ([], Throw e).

Definition bind {A B} (m : Run A) (k : A -> Run B) : Run B :=
  match m with
  | (tr, Throw e) => (tr, Throw e)
  | (tr, Return a) => let (tr', o) := k a in (tr ++ tr', o)
  end.

(** [try { m } catch (e) { h e }] *)
Definition try_catch {A} (m : Run A) (h : Error -> Run A) : Run A :=
  match m with
  | (tr, Throw e) => let (tr', o) := h e in (tr ++ tr', o)
  | (tr, Return a) => (tr, Return a)
  end.

(** [await] of an external call whose answer is [answer]. *)
Definition await {A} (call : Event) (answer : Error + A) : Run A :=
  ([call], match answer with inl e => Throw e | inr a => Return a end).

(** A synchronous or file-system step that leaves no call in the trace. *)
Definition lift {A} (answer : Error + A) : Run A :=
  ([], match answer with inl e => Throw e | inr a => Return a end).

Declare Scope run_scope.
Delimit Scope run_scope with run.
Notation "x <- m ;; k" := (bind m (fun x => k))
  (at level 61, m at next level, right associativity) : run_scope.
Notation "m ;;; k" := (bind m (fun _ => k))
  (at level 61, right associativity) : run_scope.
Local Open Scope run_scope.

Definition calls {A} (r : Run A) : list Event := fst r.
Definition outcome {A} (r : Run A) : Outcome A := snd r.

(** ** utils.js *)

Module Utils.
Section WithNode.
Variable node : Node.

(** Lines 9-20. *)
Definition calculateSHA256Checksum (filePath : string) : Run string :=
  match createReadStream node filePath with
  | inl err =>
      throw ("Checksum calculation failed for " +++ filePath +++ ": " +++ err)
  | inr bytes => ret (sha256_base64 node bytes)
  end.

(** Lines 22-26. *)
Definition calculateSHA256ChecksumForBytes (buffer : Buffer) : string :=
  sha256_base64 node buffer.

(** Lines 38-51; the fallback table is keyed by the lower-cased extension. *)
Definition getMimeType (filePath : string) : string :=
  match mime_lookup node filePath with
  | Some (String a rest) => String a rest
  | _ =>
      let ext := toLowerCase node (path_extname node filePath) in
      let extMap :=
        [(".zip", "application/zip"); (".txt", "text/plain"); (".json", "application/json");
         (".xml", "application/xml"); (".csv", "text/csv"); (".jpg", "image/jpeg");
         (".jpeg", "image/jpeg"); (".png", "image/png"); (".gif", "image/gif");
         (".pdf", "application/pdf"); (".tar", "application/x-tar"); (".gz", "application/gzip")] in
      match find (fun kv => String.eqb (fst kv) ext) extMap with
      | Some kv => snd kv
      | None => "application/octet-stream"
      end
  end.

Definition DISALLOWED_EXTENSIONS : list string := [".dll"; ".exe"].

(** Lines 80-83. *)
Definition isFileTypeDisallowed (filePath : string) : bool :=
  existsb (String.eqb (toLowerCase node (path_extname node filePath))) DISALLOWED_EXTENSIONS.
End WithNode.
End Utils.

(** ** multipartUploader.js *)

Module MultipartUploader.
Export Partition.

(** What a part upload resolves to (line 55). *)
Record PartInfo := {
  PartNumber : Z;
  ETag : string;
  ChecksumSHA256 : option string
}.

Definition json_of_PartInfo (p : PartInfo) : JSON :=
  JObj [("PartNumber", JNum (PartNumber p)); ("ETag", JStr (ETag p));
        ("ChecksumSHA256", opt_str (ChecksumSHA256 p))].

Section WithEnvironment.
Variables (node : Node) (apiClient : ApiClient) (config : Config).

(** [UploadPartTaskJS_MPU.readAndChecksum], lines 12-25: the record after
    the call, and how the call ends. *)
Definition readAndChecksum (pt : UploadPartTaskJS_MPU)
  : UploadPartTaskJS_MPU * Outcome unit :=
  let fail (message : string) :=
    let err := "Error reading/checksumming part " +++ string_of_Z (partNumber pt)
               +++ ": " +++ message in
    ({| partNumber := partNumber pt; offset := offset pt; size := size pt;
        filePath := filePath pt; data := data pt; checksumSHA256 := checksumSHA256 pt;
        etag := etag pt; error := Some err; retries := retries pt |}, Throw err) in
  match readAt node (filePath pt) (offset pt) (size pt) with
  | inl e => fail e
  | inr bytes =>
      if negb (Z.of_nat (List.length bytes) =? size pt)
      then fail ("Read incorrect data size for part " +++ string_of_Z (partNumber pt))
      else
        ({| partNumber := partNumber pt; offset := offset pt; size := size pt;
            filePath := filePath pt; data := Some bytes;
            checksumSHA256 := Some (Utils.calculateSHA256ChecksumForBytes node bytes);
            etag := etag pt; error := error pt; retries := retries pt |}, Return tt)
  end.

Definition set_retries (pt : UploadPartTaskJS_MPU) (attempt : Z) :=
  {| partNumber := partNumber pt; offset := offset pt; size := size pt;
     filePath := filePath pt; data := data pt; checksumSHA256 := checksumSHA256 pt;
     etag := etag pt; error := error pt; retries := attempt |}.

Definition set_etag (pt : UploadPartTaskJS_MPU) (e : string) :=
  {| partNumber := partNumber pt; offset := offset pt; size := size pt;
     filePath := filePath pt; data := data pt; checksumSHA256 := checksumSHA256 pt;
     etag := Some e; error := error pt; retries := retries pt |}.

Definition set_error (pt : UploadPartTaskJS_MPU) (e : Error) :=
  {| partNumber := partNumber pt; offset := offset pt; size := size pt;
     filePath := filePath pt; data := data pt; checksumSHA256 := checksumSHA256 pt;
     etag := etag pt; error := Some e; retries := retries pt |}.

Section OnePart.
(** The arguments of [_uploadSinglePartWithRetryJS_MPU] other than the
    part record. *)
Variables (s3UploadId backendS3Key collection originalFileMimeType : string).

(** Lines 41-44. *)
Definition getUrlPayload (pt : UploadPartTaskJS_MPU) : JSON :=
  JObj [("upload_id", JStr s3UploadId); ("part_number", JNum (partNumber pt));
        ("file_name", JStr backendS3Key); ("collection", JStr collection);
        ("checksum", opt_str (checksumSHA256 pt));
        ("content_type", JStr originalFileMimeType)].

(** The body of the [try] block, lines 40-52, up to the ETag it obtains. *)
Definition partAttempt (pt : UploadPartTaskJS_MPU) (attempt : Z) : Run string :=
  presignedPartInfo <-
    await (GetPresignedUrlForPart attempt (getUrlPayload pt))
          (getPresignedUrlForPart apiClient attempt (getUrlPayload pt)) ;;
  s3Response <-
    match data pt with
    | Some bytes =>
        await (UploadPartToS3PresignedPut (PutPart (partNumber pt) attempt)
                 (presigned_url presignedPartInfo))
              (uploadPartToS3PresignedPut apiClient (PutPart (partNumber pt) attempt)
                 (presigned_url presignedPartInfo) bytes)
    | None => throw "Cannot read properties of null (reading 'byteLength')"
    end ;;
  match option_map (remove_char double_quote) (headers_etag s3Response) with
  | Some (String a rest) => ret (String a rest)
  | _ => throw "ETag not found for part."
  end.

(** The [for] loop of lines 37-66 with [todo] iterations left.  It yields
    the part record as the loop leaves it, the calls made, and the value
    returned ([None] is [null]). *)
Fixpoint partRetryLoop (todo : nat) (attempt : Z) (pt : UploadPartTaskJS_MPU)
  : UploadPartTaskJS_MPU * list Event * option PartInfo :=
  match todo with
  | O => (pt, [], None)
  | S todo' =>
      let pt := set_retries pt attempt in
      match partAttempt pt attempt with
      | (tr, Return e) =>
          let pt := set_etag pt e in
          (pt, tr, Some {| PartNumber := partNumber pt; ETag := e;
                           ChecksumSHA256 := checksumSHA256 pt |})
      | (tr, Throw err) =>
          if attempt >=? retry_attempts config then (set_error pt err, tr, None)
          else
            let '(pt', tr', r) := partRetryLoop todo' (attempt + 1) pt in
            (pt', tr ++ SetTimeout (2 ^ attempt * 1000) :: tr', r)
      end
  end.

(** [_uploadSinglePartWithRetryJS_MPU], lines 28-68. *)
Definition _uploadSinglePartWithRetryJS_MPU (partTask : UploadPartTaskJS_MPU)
  : UploadPartTaskJS_MPU * Run (option PartInfo) :=
  let (partTask, prepared) :=
    match data partTask, truthy (checksumSHA256 partTask) with
    | Some _, true => (partTask, Return tt)
    | _, _ => readAndChecksum partTask
    end in
  match prepared with
  | Throw e => (partTask, throw e)
  | Return _ =>
      match error partTask with
      | Some e => (partTask, throw e)
      | None =>
          let '(pt', tr, r) :=
            partRetryLoop (Z.to_nat (retry_attempts config + 1)) 0 partTask in
          (pt', (tr, Return r))
      end
  end.
End OnePart.

(** The session as it stands when the part uploads are dispatched:
    the local variables of [handleMultipartUpload] after line 124. *)
Record Session := {
  baseName : string;
  mimeType : string;
  overallChecksum : string;
  s3UploadId : string;
  backendS3Key : string;
  partTasks : list UploadPartTaskJS_MPU
}.

(** The loop of lines 119-123.  A failed read rejects the whole call. *)
Fixpoint prepareParts (pts : list UploadPartTaskJS_MPU)
  : Run (list UploadPartTaskJS_MPU) :=
  match pts with
  | [] => ret []
  | pt :: rest =>
      match readAndChecksum pt with
      | (_, Throw e) => throw e
      | (pt', Return _) =>
          match error pt' with
          | Some e =>
              throw ("Failed to prepare part " +++ string_of_Z (partNumber pt') +++ ": " +++ e)
          | None => rest' <- prepareParts rest ;; ret (pt' :: rest')
          end
      end
  end.

Section OneFile.
Variables (filePath : string) (fileSize : Z) (collection : string)
          (targetSubPath : option string).

(** Lines 96-99. *)
Definition startPayload (baseName mimeType overallChecksum : string) : JSON :=
  JObj [("file_name", JStr baseName); ("collection", JStr collection);
        ("upload_target", opt_str targetSubPath);
        ("content_type", JStr mimeType); ("overall_checksum", JStr overallChecksum)].

(** Lines 76-124: everything before the first part is dispatched. *)
Definition prepareSession : Run Session :=
  let baseName := path_basename node filePath in
  if Utils.isFileTypeDisallowed node filePath
  then throw ("Disallowed file type: " +++ path_extname node filePath)
  else
    let chunkSize := chunkSizeOf config in
    let numParts := Math_ceil_div fileSize chunkSize in
    if numParts >? S3_MAX_PARTS_JS_MPU
    then throw ("File requires " +++ string_of_Z numParts +++ " parts, exceeding S3 limit.")
    else
      let mimeType := Utils.getMimeType node filePath in
      overallChecksum <- Utils.calculateSHA256Checksum node filePath ;;
      let payload := startPayload baseName mimeType overallChecksum in
      started <-
        try_catch
          (startResponse <-
             await (StartMultipartUpload payload) (startMultipartUpload apiClient payload) ;;
           if negb (truthy (Some (upload_id startResponse)))
              || negb (truthy (Some (start_s3_key startResponse)))
           then throw "Backend MPU start error."
           else ret startResponse)
          (fun e => throw ("Failed to initiate MPU: " +++ e)) ;;
      let partTasks := makePartTasks chunkSize numParts fileSize filePath in
      prepared <-
        (if (0 <? Z.of_nat (List.length partTasks))
         then prepareParts partTasks
         else if fileSize >? 0 then throw "No parts for non-empty file."
              else ret partTasks) ;;
      ret {| baseName := baseName; mimeType := mimeType;
             overallChecksum := overallChecksum;
             s3UploadId := upload_id started; backendS3Key := start_s3_key started;
             partTasks := prepared |}.

(** Lines 129-148: one promise per part, all awaited with
    [Promise.allSettled].  Each entry is the part record after its promise
    settled, and that promise's calls and settlement. *)
Definition uploadParts (s : Session)
  : list (UploadPartTaskJS_MPU * Run (option PartInfo)) :=
  map (_uploadSinglePartWithRetryJS_MPU (s3UploadId s) (backendS3Key s)
         collection (mimeType s))
      (partTasks s).

(** The calls of all part promises. *)
Definition partCalls (s : Session) : list Event :=
  flat_map (fun settled => calls (snd settled)) (uploadParts s).

(** The part records after all promises settled. *)
Definition settledParts (s : Session) : list UploadPartTaskJS_MPU :=
  map fst (uploadParts s).

(** Lines 149-153. *)
Definition uploadedPartsInfo (s : Session) : list PartInfo :=
  flat_map (fun settled =>
              match outcome (snd settled) with
              | Return (Some value) => [value]
              | _ => []
              end)
           (uploadParts s).

(** [uploadedPartsInfo.sort((a, b) => a.PartNumber - b.PartNumber)] *)
Fixpoint insertByPartNumber (p : PartInfo) (l : list PartInfo) : list PartInfo :=
  match l with
  | [] => [p]
  | q :: rest =>
      if PartNumber p - PartNumber q <=? 0 then p :: q :: rest
      else q :: insertByPartNumber p rest
  end.

Definition sortByPartNumber (l : list PartInfo) : list PartInfo :=
  fold_right insertByPartNumber [] l.

(** Lines 160 and 180. *)
Definition abortPayload (s : Session) : JSON :=
  JObj [("upload_id", JStr (s3UploadId s)); ("s3_key", JStr (backendS3Key s));
        ("file_name", JStr (backendS3Key s)); ("collection", JStr collection)].

(** Lines 161-162 and 181-182: the abort call, whose failure is only
    reported. *)
Definition abortQuietly (s : Session) : Run unit :=
  try_catch
    (await (AbortMultipartUpload (abortPayload s))
           (abortMultipartUpload apiClient (abortPayload s)))
    (fun abortError => ret tt).

(** Lines 167-171. *)
Definition completePayload (s : Session) (parts : list PartInfo) : JSON :=
  JObj [("upload_id", JStr (s3UploadId s)); ("parts", JArr (map json_of_PartInfo parts));
        ("s3_key", JStr (backendS3Key s)); ("file_name", JStr (baseName s));
        ("collection", JStr collection); ("checksum", JStr (overallChecksum s));
        ("final_file_size", JNum fileSize); ("collection_path", opt_str targetSubPath);
        ("content_type", JStr (mimeType s))].

(** Lines 157-164: the message of the error raised for an incomplete
    part set. *)
Definition partsFailedError (s : Session) : Error :=
  let failedParts :=
    map partNumber (filter (fun pt => negb (truthy (etag pt))) (settledParts s)) in
  "One or more parts failed. Failed parts: " +++ join ", " (map string_of_Z failedParts).

(** The test of line 157. *)
Definition partSetIncomplete (s : Session) : bool :=
  (0 <? Z.of_nat (List.length (partTasks s)))
  && negb (Z.of_nat (List.length (uploadedPartsInfo s))
           =? Z.of_nat (List.length (partTasks s))).

(** Lines 157-184: what follows the settlement of all part promises. *)
Definition finishSession (s : Session) : Run UploadResult :=
  let uploaded := uploadedPartsInfo s in
  if partSetIncomplete s
  then
    abortQuietly s ;;;
    throw (partsFailedError s)
  else
    let sorted := sortByPartNumber uploaded in
    let payload := completePayload s sorted in
    try_catch
      (completeResponse <-
         await (CompleteMultipartUpload payload) (completeMultipartUpload apiClient payload) ;;
       ret {| file := baseName s; result_status := success;
              result_s3_key := backendS3Key s; location := Location completeResponse |})
      (fun error =>
         abortQuietly s ;;;
         throw ("Failed to complete MPU with backend: " +++ error)).

(** [handleMultipartUpload], lines 70-185.  The calls of the part
    promises are listed part by part; their interleaving in time is not
    recorded. *)
Definition handleMultipartUpload : Run UploadResult :=
  s <- prepareSession ;;
  (partCalls s, Return tt) ;;;
  finishSession s.
End OneFile.
End WithEnvironment.

End MultipartUploader.

(** ** singleFileUploader.js *)

Module SingleFileUploader.
Import MultipartUploader.

Section WithEnvironment.
Variables (node : Node) (apiClient : ApiClient) (config : Config).

Section OneFile.
Variables (filePath : string) (fileSize : Z) (collection : string)
          (targetSubPath : option string).

(** Lines 36-39. *)
Definition initiatePayload (baseName checksumSHA256 mimeType : string) : JSON :=
  JObj [("file_name", JStr baseName); ("collection", JStr collection);
        ("size", JNum fileSize); ("checksum", JStr checksumSHA256);
        ("file_type", JStr mimeType); ("collection_path", opt_str targetSubPath)].

(** The [for] loop of lines 41-54 with [todo] iterations left.  It yields
    [presignedInfoResponse], which is still undefined ([None]) when the
    loop body never ran. *)
Fixpoint requestUrlLoop (todo : nat) (attempt : Z) (payload : JSON)
  : Run (option PresignedInfo) :=
  match todo with
  | O => ret None
  | S todo' =>
      try_catch
        (presignedInfoResponse <-
           await (GetPresignedUrlSingle attempt payload)
                 (getPresignedUrlSingle apiClient attempt payload) ;;
         ret (Some presignedInfoResponse))
        (fun error =>
           if attempt >=? retry_attempts config
           then throw ("Failed to get presigned URL after "
                       +++ string_of_Z (retry_attempts config + 1)
                       +++ " attempts: " +++ error)
           else
             ([SetTimeout (2 ^ attempt * 1000)], Return tt) ;;;
             requestUrlLoop todo' (attempt + 1) payload)
  end.

(** Lines 57-68: the form upload. *)
Definition uploadByPost (info : PresignedInfo) (formFields : list (string * string))
           (baseName mimeType : string) : Run (option string) :=
  s3Response <-
    await (UploadToS3PresignedPost (url info))
          (uploadToS3PresignedPost apiClient (url info) formFields
             filePath baseName mimeType) ;;
  if status s3Response =? 204
  then ret (option_map (remove_char double_quote) (headers_etag s3Response))
  else throw ("S3 upload (POST) failed with status "
              +++ string_of_Z (status s3Response) +++ ".").

(** Lines 69-81: the direct PUT. *)
Definition uploadByPut (info : PresignedInfo) : Run (option string) :=
  fileData <- lift (readFile node filePath) ;;
  s3ResponsePut <-
    await (UploadPartToS3PresignedPut PutWholeFile (url info))
          (uploadPartToS3PresignedPut apiClient PutWholeFile (url info) fileData) ;;
  if status s3ResponsePut =? 200
  then ret (option_map (remove_char double_quote) (headers_etag s3ResponsePut))
  else throw ("S3 upload (PUT) failed with status "
              +++ string_of_Z (status s3ResponsePut) +++ ".").

(** Lines 57-81: exactly one of the two storage writes. *)
Definition storageWrite (info : PresignedInfo) (baseName mimeType : string)
  : Run (option string) :=
  match fields info with
  | Some formFields => uploadByPost info formFields baseName mimeType
  | None => uploadByPut info
  end.

(** Lines 83-87. *)
Definition confirmPayload (info : PresignedInfo)
           (baseName checksumSHA256 mimeType : string) (s3ETag : option string) : JSON :=
  JObj [("s3_key", JStr (s3_key info)); ("file_name", JStr baseName);
        ("collection", JStr collection); ("size_bytes", JNum fileSize);
        ("checksum", JStr checksumSHA256); ("file_type", JStr mimeType);
        ("collection_path", opt_str targetSubPath); ("s3_etag", or_null s3ETag)].

(** Lines 33-91: the transfer once the checksum is known. *)
Definition afterChecksum (checksumSHA256 : string) : Run UploadResult :=
  let baseName := path_basename node filePath in
  let mimeType := Utils.getMimeType node filePath in
  let payload := initiatePayload baseName checksumSHA256 mimeType in
  presignedInfoResponse <-
    requestUrlLoop (Z.to_nat (retry_attempts config + 1)) 0 payload ;;
  match presignedInfoResponse with
  | None => throw "Failed to obtain presigned URL."
  | Some info =>
      s3ETag <- storageWrite info baseName mimeType ;;
      let confirm := confirmPayload info baseName checksumSHA256 mimeType s3ETag in
      await (ConfirmSingleUpload confirm) (confirmSingleUpload apiClient confirm) ;;;
      ret {| file := baseName; result_status := success;
             result_s3_key := s3_key info; location := None |}
  end.

(** [handleSingleFileUpload], lines 5-97.  The outer [catch] reports the
    error and raises it again unchanged. *)
Definition handleSingleFileUpload : Run UploadResult :=
  if Utils.isFileTypeDisallowed node filePath
  then throw ("Disallowed file type: " +++ path_extname node filePath)
  else
    try_catch
      (checksumSHA256 <- Utils.calculateSHA256Checksum node filePath ;;
       afterChecksum checksumSHA256)
      (fun error => throw error).
End OneFile.
End WithEnvironment.

End SingleFileUploader.

(** ** Node's [path] module, on normalized paths

    [sep] is the platform's separator: a slash on POSIX, a backslash on
    Windows.  Segments are taken to be normalized already (no "." or ".."
    segment, no doubled or trailing separator). *)

Module NodePath.
Section Platform.
Variable sep : ascii.

(** [path.join(a, b)]: empty segments are ignored. *)
Definition path_join (a b : string) : string :=
  match a, b with
  | EmptyString, _ => b
  | _, EmptyString => a
  | _, _ => a +++ String sep b
  end.

(** [p] with the prefix [pre] removed, when [p] starts with it. *)
Fixpoint strip_prefix (pre p : string) : option string :=
  match pre with
  | EmptyString => Some p
  | String a pre' =>
      match p with
      | EmptyString => None
      | String b p' => if Ascii.eqb a b then strip_prefix pre' p' else None
      end
  end.

(** [path.relative(from, to)] for a path [to] below the directory [from]:
    what follows [from] and the separator.  The scanner calls it on such
    paths only; any other [to] is handed back unchanged. *)
Definition path_relative (from to : string) : string :=
  match strip_prefix (from +++ String sep EmptyString) to with
  | Some rest => rest
  | None => to
  end.

(** The part of [s] before its last slash, when it has one. *)
Fixpoint before_last_slash (s : string) : option string :=
  match s with
  | EmptyString => None
  | String a rest =>
      match before_last_slash rest with
      | Some d => Some (String a d)
      | None => if Ascii.eqb a slash then Some EmptyString else None
      end
  end.

(** [path.dirname(p)] for a relative path [p] written with slashes. *)
Definition path_dirname (p : string) : string :=
  match before_last_slash p with
  | Some (String a d) => String a d
  | Some EmptyString => "/"
  | None => "."
  end.
End Platform.
End NodePath.

(** ** folderProcessor.js: the directory scanner *)

Module FolderProcessor.
Import NodePath.

(** What [readdir] and [stat] find below a directory.  [OtherEntry] is an
    entry that is neither a regular file nor a directory. *)
#[warnings="-register-all"]
Inductive Entry :=
| FileEntry (name : string) (stat_size : Error + Z)
| DirEntry (name : string) (listing : Error + list Entry)
| OtherEntry (name : string).

Definition entry_name (item : Entry) : string :=
  match item with
  | FileEntry name _ | DirEntry name _ | OtherEntry name => name
  end.

(** The objects pushed at lines 27-31. *)
Record FileTask := {
  localPath : string;
  relativePath : string;
  size : Z;
  status : Status;
  errorMessage : option string
}.

(** What [scanFolderForUpload] resolves to. *)
Record ScanResult := {
  filesToUpload : list FileTask;
  totalSize : Z
}.

Section Scanner.
Variables (sep : ascii) (node : Node).
(** utils.js, [isPathIgnored (pathToTest, basePath, ignorePatterns)] *)
Variable isPathIgnored : string -> string -> list string -> bool.
Variables (rootForRelativePath : string) (ignorePatterns : list string).

(** utils.js, [getFileSize], lines 28-36. *)
Definition getFileSize (filePath : string) (stat_size : Error + Z) : Outcome Z :=
  match stat_size with
  | inl error => Throw ("Could not get size of file " +++ filePath +++ ": " +++ error)
  | inr n => Return n
  end.

Definition no_files : ScanResult := {| filesToUpload := []; totalSize := 0 |}.

(** The accumulation of lines 19-20 and 27-32. *)
Definition add_files (acc found : ScanResult) : ScanResult :=
  {| filesToUpload := filesToUpload acc ++ filesToUpload found;
     totalSize := totalSize acc + totalSize found |}.

(** One round of the loop of lines 11-34, for the entry [item] of the
    directory [folderPath]: what it adds to [filesToUpload] and
    [totalSize].  The inner loop is the recursive call of line 18. *)
Fixpoint scanItem (folderPath : string) (item : Entry) {struct item}
  : Outcome ScanResult :=
  let itemPath := path_join sep folderPath (entry_name item) in
  if isPathIgnored itemPath rootForRelativePath ignorePatterns then Return no_files
  else
    match item with
    | DirEntry _ (inl error) => Throw error
    | DirEntry _ (inr items) =>
        (fix scanItems (items : list Entry) (acc : ScanResult) : Outcome ScanResult :=
           match items with
           | [] => Return acc
           | item :: rest =>
               match scanItem itemPath item with
               | Throw e => Throw e
               | Return found => scanItems rest (add_files acc found)
               end
           end) items no_files
    | FileEntry _ stat_size =>
        if Utils.isFileTypeDisallowed node itemPath then Return no_files
        else
          match getFileSize itemPath stat_size with
          | Throw e => Throw e
          | Return fileSize =>
              Return
                {| filesToUpload :=
                     [{| localPath := itemPath;
                         relativePath :=
                           replace_char backslash slash
                             (path_relative sep rootForRelativePath itemPath);
                         size := fileSize; status := pending; errorMessage := None |}];
                   totalSize := fileSize |}
          end
    | OtherEntry _ => Return no_files
    end.

(** The loop of lines 11-34 over the entries of [folderPath]. *)
Fixpoint scanItems (folderPath : string) (items : list Entry) (acc : ScanResult)
  : Outcome ScanResult :=
  match items with
  | [] => Return acc
  | item :: rest =>
      match scanItem folderPath item with
      | Throw e => Throw e
      | Return found => scanItems folderPath rest (add_files acc found)
      end
  end.

(** [scanFolderForUpload], lines 6-36; [listing] is what [readdir] finds
    in [folderPath]. *)
Definition scanFolderForUpload (folderPath : string) (listing : Error + list Entry)
  : Outcome ScanResult :=
  match listing with
  | inl error => Throw error
  | inr items => scanItems folderPath items no_files
  end.
End Scanner.

(** ** folderProcessor.js: the folder orchestrator *)

(** An element of [results]: the file's record, merged with what its
    transfer resolved to when it succeeded (lines 111 and 115). *)
Record ResultEntry := {
  entry_task : FileTask;
  entry_result : option UploadResult
}.

(** What [processFolderUpload] resolves to (lines 55 and 142). *)
Record Summary := {
  totalFiles : Z;
  summary_successfulUploads : Z;
  summary_failedUploads : Z;
  summary_results : list ResultEntry
}.

(** The variables of lines 65-68 while the uploads run, together with the
    calls made so far.  [activeFileUploads] holds the indices of the files
    whose promise is pending, in the order they were started. *)
Record Folder := {
  activeFileUploads : list nat;
  currentIndex : nat;
  successfulUploads : Z;
  failedUploads : Z;
  overallUploadedBytesInFolder : Z;
  results : list ResultEntry;
  made : list Event
}.

Section Orchestrator.
Variables (sep : ascii) (node : Node).
Variable isPathIgnored : string -> string -> list string -> bool.
Variable config : Config.
(** The handlers imported at lines 84-85, applied to [apiClient] and
    [config]: file path, file size, collection, target sub-path (and
    part concurrency). *)
Variable singleUploadHandlerLib : string -> Z -> string -> option string -> Run UploadResult.
Variable multiUploadHandlerLib :
  string -> Z -> string -> option string -> Z -> Run UploadResult.
(** Which of the pending uploads settles next: a position in
    [activeFileUploads], taken modulo its length. *)
Variable settlesNext : list nat -> nat.

Variables (collection : string) (targetSubPath : option string)
          (fileConcurrency : JSNumber) (partConcurrency : Z).
Variable files : list FileTask.

(** Lines 90-93. *)
Definition effectiveApiTargetSubPath (fileTask : FileTask) : string :=
  let base := match targetSubPath with Some s => s | None => "" end in
  if negb (String.eqb (path_dirname (relativePath fileTask)) ".")
  then replace_char backslash slash
         (path_join sep base (path_dirname (relativePath fileTask)))
  else base.

(** Lines 98-110: the transfer chosen for a file. *)
Definition transferFile (fileTask : FileTask) : Run UploadResult :=
  let multipartThresholdBytes :=
    (multipart_threshold_gb config * inject_Z (1024 ^ 3))%Q in
  if exceeds (size fileTask) multipartThresholdBytes
  then multiUploadHandlerLib (localPath fileTask) (size fileTask) collection
         (Some (effectiveApiTargetSubPath fileTask)) partConcurrency
  else singleUploadHandlerLib (localPath fileTask) (size fileTask) collection
         (Some (effectiveApiTargetSubPath fileTask)).

(** Lines 89 and 123: the upload of the file under the cursor starts. *)
Definition startNextFile (st : Folder) : Folder :=
  {| activeFileUploads := activeFileUploads st ++ [currentIndex st];
     currentIndex := S (currentIndex st);
     successfulUploads := successfulUploads st;
     failedUploads := failedUploads st;
     overallUploadedBytesInFolder := overallUploadedBytesInFolder st;
     results := results st;
     made := made st |}.

(** The [while] loop of lines 88-124, with [fuel] rounds at most. *)
Fixpoint scheduleNextFileInFolder (fuel : nat) (st : Folder) : Folder :=
  match fuel with
  | O => st
  | S fuel' =>
      if js_lt (Z.of_nat (List.length (activeFileUploads st))) fileConcurrency
         && (currentIndex st <? List.length files)%nat
      then scheduleNextFileInFolder fuel' (startNextFile st)
      else st
  end.

(** Lines 111-121: the upload of file [k] settles. *)
Definition settleFile (st : Folder) (k : nat) : Folder :=
  let active := filter (fun j => negb (j =? k)%nat) (activeFileUploads st) in
  match nth_error files k with
  | None => st
  | Some fileTask =>
      match transferFile fileTask with
      | (tr, Return result) =>
          let done :=
            {| localPath := localPath fileTask; relativePath := relativePath fileTask;
               size := size fileTask; status := success;
               errorMessage := errorMessage fileTask |} in
          scheduleNextFileInFolder (List.length files)
            {| activeFileUploads := active;
               currentIndex := currentIndex st;
               successfulUploads := successfulUploads st + 1;
               failedUploads := failedUploads st;
               overallUploadedBytesInFolder := overallUploadedBytesInFolder st + size fileTask;
               results := results st ++ [{| entry_task := done; entry_result := Some result |}];
               made := made st ++ tr |}
      | (tr, Throw error) =>
          let done :=
            {| localPath := localPath fileTask; relativePath := relativePath fileTask;
               size := size fileTask; status := failed;
               errorMessage := Some error |} in
          scheduleNextFileInFolder (List.length files)
            {| activeFileUploads := active;
               currentIndex := currentIndex st;
               successfulUploads := successfulUploads st;
               failedUploads := failedUploads st + 1;
               overallUploadedBytesInFolder := overallUploadedBytesInFolder st;
               results := results st ++ [{| entry_task := done; entry_result := None |}];
               made := made st ++ tr |}
      end
  end.

(** Lines 127-133: the wait for all uploads.  Pending uploads settle one
    after the other, each settlement starting further files; [None] when
    the polled condition never becomes true, or when [fuel] settlements
    did not suffice. *)
Fixpoint awaitAllFiles (fuel : nat) (st : Folder) : option Folder :=
  match activeFileUploads st with
  | [] => if (currentIndex st =? List.length files)%nat then Some st else None
  | first :: others =>
      match fuel with
      | O => None
      | S fuel' =>
          let position := (settlesNext (first :: others) mod List.length (first :: others))%nat in
          awaitAllFiles fuel' (settleFile st (nth position (first :: others) first))
      end
  end.

(** Lines 53-142: what follows the scan. *)
Definition uploadScannedFiles : option (Run Summary) :=
  if (List.length files =? 0)%nat
  then Some (ret {| totalFiles := 0; summary_successfulUploads := 0;
                    summary_failedUploads := 0; summary_results := [] |})
  else
    let start :=
      scheduleNextFileInFolder (List.length files)
        {| activeFileUploads := []; currentIndex := O; successfulUploads := 0;
           failedUploads := 0; overallUploadedBytesInFolder := 0;
           results := []; made := [] |} in
    match awaitAllFiles (List.length files) start with
    | None => None
    | Some st =>
        Some (made st,
              if failedUploads st >? 0
              then Throw (string_of_Z (failedUploads st)
                          +++ " file(s) failed to upload during folder processing.")
              else Return {| totalFiles := Z.of_nat (List.length files);
                             summary_successfulUploads := successfulUploads st;
                             summary_failedUploads := failedUploads st;
                             summary_results := results st |})
    end.
End Orchestrator.

(** [processFolderUpload], lines 38-143; [listing] is what [readdir] finds in
    [rootFolderPath].  [None]: the promise never settles. *)
Definition processFolderUpload (sep : ascii) (node : Node)
           (isPathIgnored : string -> string -> list string -> bool)
           (singleUploadHandlerLib : string -> Z -> string -> option string -> Run UploadResult)
           (multiUploadHandlerLib :
              string -> Z -> string -> option string -> Z -> Run UploadResult)
           (settlesNext : list nat -> nat)
           (rootFolderPath : string) (listing : Error + list Entry)
           (collection : string) (targetSubPath : option string) (config : Config)
           (fileConcurrency : JSNumber) (partConcurrency : Z)
  : option (Run Summary) :=
  match scanFolderForUpload sep node isPathIgnored rootFolderPath
          (user_ignored_patterns config) rootFolderPath listing with
  | Throw e => Some (throw e)
  | Return scanned =>
      uploadScannedFiles sep config singleUploadHandlerLib multiUploadHandlerLib
        settlesNext collection targetSubPath fileConcurrency partConcurrency
        (filesToUpload scanned)
  end.

End FolderProcessor.

(** ** index.js: [CUEUploader.upload] *)

Module Index.
Import FolderProcessor.

(** What [fsPromises.stat] reports about the source path: a directory (with
    what [readdir] finds in it), a regular file of some size, or
    something else. *)
Inductive Stats :=
| Directory (listing : Error + list Entry)
| RegularFile (size : Z)
| Neither.

(** What [upload] resolves to. *)
Inductive UploadOutput :=
| FolderOutput (summary : Summary)
| FileOutput (result : UploadResult).

Definition map_run {A B} (f : A -> B) (r : Run A) : Run B :=
  (calls r, match outcome r with Throw e => Throw e | Return a => Return (f a) end).

Section Uploader.
Variables (sep : ascii) (node : Node) (apiClient : ApiClient) (config : Config).
Variable isPathIgnored : string -> string -> list string -> bool.
Variable settlesNext : list nat -> nat.

(** The imports of lines 5-6, applied to [this.apiClient] and
    [this.config]. *)
Definition doSingleUpload (filePath : string) (fileSize : Z) (collection : string)
           (targetSubPath : option string) : Run UploadResult :=
  SingleFileUploader.handleSingleFileUpload node apiClient config
    filePath fileSize collection targetSubPath.

Definition doMultipartUpload (filePath : string) (fileSize : Z) (collection : string)
           (targetSubPath : option string) (partConcurrency : Z) : Run UploadResult :=
  MultipartUploader.handleMultipartUpload node apiClient config
    filePath fileSize collection targetSubPath.

(** [upload], lines 66-118, once [_initialize] has set [this.config] and
    [this.apiClient].  The call of line 84 passes ten arguments to the nine
    parameters of [processFolderUpload]: [this.globalArgs], an object,
    lands on [fileConcurrency] and [this.config.file_concurrency] on
    [partConcurrency].  The [catch] of line 113 raises the error again
    unchanged.  [None]: the promise never settles. *)
Definition upload (absoluteSourcePath : string) (stats : Error + Stats)
           (collection : string) (targetPath : option string)
  : option (Run UploadOutput) :=
  match stats with
  | inl error => Some (throw error)
  | inr (Directory listing) =>
      option_map (map_run FolderOutput)
        (processFolderUpload sep node isPathIgnored doSingleUpload doMultipartUpload
           settlesNext absoluteSourcePath listing collection targetPath config
           NaN (file_concurrency config))
  | inr (RegularFile fileSize) =>
      if Utils.isFileTypeDisallowed node absoluteSourcePath
      then Some (throw ("File type " +++ path_extname node absoluteSourcePath
                        +++ " is disallowed."))
      else
        let multipartThresholdBytes :=
          (multipart_threshold_gb config * inject_Z (1024 ^ 3))%Q in
        if exceeds fileSize multipartThresholdBytes
        then Some (map_run FileOutput
                     (doMultipartUpload absoluteSourcePath fileSize collection targetPath
                        (part_concurrency config)))
        else Some (map_run FileOutput
                     (doSingleUpload absoluteSourcePath fileSize collection targetPath))
  | inr Neither =>
      Some (throw ("Source path is not a file or directory: " +++ absoluteSourcePath))
  end.
End Uploader.

End Index.

(** ** apiClient.js: the requests behind the client's methods *)

Module ApiClientJS.

(** [response.data]: text, or the value axios parsed from a JSON body. *)
Inductive Data :=
| Text (s : string)
| Parsed (j : JSON).

(** An axios response: the fields the client reads. *)
Record Response := {
  response_status : Z;
  statusText : string;
  response_data : Data;
  response_etag : option string
}.

(** What axios rejects with: its message, [error.response] when the server
    answered, and whether [error.request] is set. *)
Record AxiosError := {
  message : string;
  error_response : option Response;
  error_request : bool
}.

(** The result of a storage helper as an answer of the client record. *)
Definition answerOf {A} (o : Outcome A) : Error + A :=
  match o with Throw e => inl e | Return a => inr a end.

Section Client.
(** [JSON.stringify] and the conversion of a value to a string in a
    template literal. *)
Variables (stringify : JSON -> string) (toString : JSON -> string).
(** [this.httpClient.request(config)], by method, URL and data. *)
Variable request : string -> string -> option JSON -> AxiosError + Response.
(** [axios.post(url, formData, ...)] and [axios.put(url, buffer, ...)] *)
Variable post : string -> list (string * string) -> Buffer -> string -> string
                -> AxiosError + Response.
Variable put : string -> Buffer -> AxiosError + Response.

(** Line 58. *)
Definition errorTextOf (data : Data) : string :=
  match data with Text s => s | Parsed j => stringify j end.

(** [JSON.stringify(error.response.data)], line 66. *)
Definition stringifyData (data : Data) : string :=
  match data with Text s => stringify (JStr s) | Parsed j => stringify j end.

(** [`${response.data}`], lines 104 and 123. *)
Definition templateOf (data : Data) : string :=
  match data with Text s => s | Parsed j => toString j end.

(** The [catch] block of lines 63-74, for an error with the given message,
    [response] and [request]. *)
Definition requestFailed (url : string) (message : string) (response : option Response)
           (hasRequest : bool) : Outcome Data :=
  match response with
  | Some r =>
      Throw ("API request failed: " +++ string_of_Z (response_status r) +++ ". "
             +++ stringifyData (response_data r))
  | None =>
      if hasRequest
      then Throw ("No response from server for " +++ url +++ ": " +++ message)
      else Throw ("Request setup error for " +++ url +++ ": " +++ message)
  end.

(** [_request], lines 36-75.  The error raised at line 60 is a plain
    [Error], without [response] and [request], and is raised inside the
    [try] block. *)
Definition _request (method endpoint : string) (jsonData : option JSON)
           (expectedStatusCodes : list Z) : Outcome Data :=
  let url := endpoint in
  match request method url jsonData with
  | inr response =>
      if negb (existsb (Z.eqb (response_status response)) expectedStatusCodes)
      then
        let errorText := errorTextOf (response_data response) in
        requestFailed url
          ("API request failed: " +++ string_of_Z (response_status response) +++ " "
           +++ statusText response +++ ". " +++ errorText)
          None false
      else Return (response_data response)
  | inl error =>
      requestFailed url (message error) (error_response error) (error_request error)
  end.

(** The default of [expectedStatusCodes]. *)
Definition defaultStatusCodes : list Z := [200; 201; 204].

(** Lines 77-83. *)
Definition getPresignedUrlSingle (payload : JSON) : Outcome Data :=
  _request "POST" "upload/upload_url" (Some payload) defaultStatusCodes.
Definition confirmSingleUpload (payload : JSON) : Outcome Data :=
  _request "POST" "upload/confirm_single" (Some payload) [200; 201].
Definition startMultipartUpload (payload : JSON) : Outcome Data :=
  _request "POST" "multipart/start" (Some payload) defaultStatusCodes.
Definition getPresignedUrlForPart (payload : JSON) : Outcome Data :=
  _request "POST" "multipart/get_part_url" (Some payload) defaultStatusCodes.
Definition completeMultipartUpload (payload : JSON) : Outcome Data :=
  _request "POST" "multipart/complete" (Some payload) defaultStatusCodes.
Definition abortMultipartUpload (payload : JSON) : Outcome Data :=
  _request "POST" "multipart/abort" (Some payload) [204].

(** [uploadToS3PresignedPost], lines 86-111, in a module scope where
    [fsPromises] is bound to [binding]: an unbound name raises a
    ReferenceError when line 87 evaluates it. *)
Definition uploadToS3PresignedPost_in (binding : option (string -> Error + Buffer))
           (url : string) (fields : list (string * string))
           (filePath fileName contentType : string) : Outcome S3Response :=
  match binding with
  | None => Throw "fsPromises is not defined"
  | Some readFile =>
      match readFile filePath with
      | inl e => Throw e
      | inr fileBuffer =>
          match post url fields fileBuffer contentType fileName with
          | inr response =>
              if negb (existsb (Z.eqb (response_status response)) [200; 204])
              then Throw ("S3 presigned POST failed: "
                          +++ string_of_Z (response_status response) +++ ". "
                          +++ templateOf (response_data response))
              else Return {| status := response_status response;
                             headers_etag := response_etag response |}
          | inl error => Throw (message error)
          end
      end
  end.

(** The imports of apiClient.js are [axios] and [URL] (lines 1-2):
    [fsPromises] is not among them. *)
Definition fsPromises : option (string -> Error + Buffer) := None.

Definition uploadToS3PresignedPost := uploadToS3PresignedPost_in fsPromises.

(** [uploadPartToS3PresignedPut], lines 113-130. *)
Definition uploadPartToS3PresignedPut (url : string) (partDataBuffer : Buffer)
  : Outcome S3Response :=
  match put url partDataBuffer with
  | inr response =>
      if negb (response_status response =? 200)
      then Throw ("S3 presigned PUT for part failed: "
                  +++ string_of_Z (response_status response) +++ ". "
                  +++ templateOf (response_data response))
      else Return {| status := response_status response;
                     headers_etag := response_etag response |}
  | inl error => Throw (message error)
  end.

End Client.

End ApiClientJS.

(** A client record whose storage helpers are those of apiClient.js, over
    the answers [post] and [put] of the storage service. *)
Definition usesStorageHelpers (toString : JSON -> string)
           (post : string -> list (string * string) -> Buffer -> string -> string
                   -> ApiClientJS.AxiosError + ApiClientJS.Response)
           (put : PutCall -> string -> Buffer
                  -> ApiClientJS.AxiosError + ApiClientJS.Response)
           (apiClient : ApiClient) : Prop :=
  (forall url fields filePath fileName contentType,
      uploadToS3PresignedPost apiClient url fields filePath fileName contentType
      = ApiClientJS.answerOf
          (ApiClientJS.uploadToS3PresignedPost toString post
             url fields filePath fileName contentType)) /\
  (forall call url bytes,
      uploadPartToS3PresignedPut apiClient call url bytes
      = ApiClientJS.answerOf
          (ApiClientJS.uploadPartToS3PresignedPut toString (put call) url bytes)).

(** ** utils.js: from an ignore pattern to a regular expression *)

Module Glob.

Definition star : ascii := ascii_of_nat 42.
Definition question : ascii := ascii_of_nat 63.

(** The characters of the class [[.+?^${}()|[\]\\]] of line 86. *)
Definition specialChars : list ascii :=
  map ascii_of_nat [46; 43; 63; 94; 36; 123; 125; 40; 41; 124; 91; 93; 92]%nat.

Definition isSpecial (c : ascii) : bool := existsb (Ascii.eqb c) specialChars.

(** [glob.replace(specialChars, '\\$&')], line 87: a backslash before every
    special character. *)
Fixpoint escapeSpecial (s : string) : string :=
  match s with
  | EmptyString => EmptyString
  | String c rest =>
      if isSpecial c then String backslash (String c (escapeSpecial rest))
      else String c (escapeSpecial rest)
  end.

(** [s.replace(/\*\*/g, '.*')], line 88: the pairs of stars, found from
    left to right without overlap. *)
Fixpoint replaceDoubleStar (s : string) : string :=
  match s with
  | EmptyString => EmptyString
  | String c rest =>
      if Ascii.eqb c star
      then match rest with
           | EmptyString => String c EmptyString
           | String c' rest' =>
               if Ascii.eqb c' star then ".*" +++ replaceDoubleStar rest'
               else String c (replaceDoubleStar rest)
           end
      else String c (replaceDoubleStar rest)
  end.

(** [s.replace(/\*/g, '[^/]*')], line 89. *)
Fixpoint replaceStar (s : string) : string :=
  match s with
  | EmptyString => EmptyString
  | String c rest =>
      if Ascii.eqb c star then "[^/]*" +++ replaceStar rest
      else String c (replaceStar rest)
  end.

(** [s.replace(/\?/g, '[^/]')], line 90. *)
Fixpoint replaceQuestion (s : string) : string :=
  match s with
  | EmptyString => EmptyString
  | String c rest =>
      if Ascii.eqb c question then "[^/]" +++ replaceQuestion rest
      else String c (replaceQuestion rest)
  end.

(** Lines 87-90: [regexStr] before it is anchored. *)
Definition translate (glob : string) : string :=
  replaceQuestion (replaceStar (replaceDoubleStar (escapeSpecial glob))).

(** [s.endsWith('/')] and [s.slice(0, -1)] *)
Fixpoint endsWithSlash (s : string) : bool :=
  match s with
  | EmptyString => false
  | String c EmptyString => Ascii.eqb c slash
  | String _ rest => endsWithSlash rest
  end.

Fixpoint dropLast (s : string) : string :=
  match s with
  | EmptyString => EmptyString
  | String _ EmptyString => EmptyString
  | String c rest => String c (dropLast rest)
  end.

(** [globToRegex], lines 85-97: the source of the regular expression, which
    is compiled with the flag [i]. *)
Definition globToRegex (glob : string) : string :=
  let regexStr := translate glob in
  if endsWithSlash regexStr
  then "^" +++ dropLast regexStr +++ "(?:/.*)?$"
  else "^" +++ regexStr +++ "$".

(** A string without special character and without star. *)
Fixpoint plain (s : string) : bool :=
  match s with
  | EmptyString => true
  | String c rest => negb (isSpecial c) && negb (Ascii.eqb c star) && plain rest
  end.

(** The last character of a string is a star. *)
Fixpoint endsWithStar (s : string) : bool :=
  match s with
  | EmptyString => false
  | String c EmptyString => Ascii.eqb c star
  | String _ rest => endsWithStar rest
  end.

(** The first character of a string is a star. *)
Definition startsWithStar (s : string) : bool :=
  match s with
  | EmptyString => false
  | String c _ => Ascii.eqb c star
  end.

End Glob.

(** ** Concrete configurations and environments *)

Module Scenario.

(** The default configuration with 5 MB chunks. *)
Definition chunk5 : Config := {|
  multipart_threshold_gb := 1%Q;
  multipart_chunk_size_mb := 5;
  retry_attempts := 3;
  file_concurrency := 4;
  part_concurrency := 4;
  user_ignored_patterns := user_ignored_patterns defaultConfig
|}.

(** One retry, and every file above the multipart threshold. *)
Definition retryOnce : Config := {|
  multipart_threshold_gb := 0%Q;
  multipart_chunk_size_mb := 5;
  retry_attempts := 1;
  file_concurrency := 2;
  part_concurrency := 2;
  user_ignored_patterns := []
|}.

(** No retry, and the default threshold of 1 GB. *)
Definition noRetry : Config := {|
  multipart_threshold_gb := 1%Q;
  multipart_chunk_size_mb := 5;
  retry_attempts := 0;
  file_concurrency := 2;
  part_concurrency := 2;
  user_ignored_patterns := []
|}.

(** A file of three bytes. *)
Definition abc : Buffer := [Byte.x61; Byte.x62; Byte.x63].

Definition node0 : Node := {|
  createReadStream := fun _ => inr abc;
  readFile := fun _ => inr abc;
  readAt := fun _ position length =>
              inr (firstn (Z.to_nat length) (skipn (Z.to_nat position) abc));
  sha256_base64 := fun _ => "ungWv48Bz+pBQUDeXa4iI7ADYaOWF3qctBD/YfIAFa0=";
  path_basename := fun _ => "abc.bin";
  path_extname := fun _ => ".bin";
  toLowerCase := fun s => s;
  mime_lookup := fun _ => None
|}.

(** An ETag as storage sends it, between double quotes. *)
Definition quoted (s : string) : string :=
  String double_quote (s +++ String double_quote EmptyString).

(** A backend and a storage service that accept everything. *)
Definition backendUp : ApiClient := {|
  getPresignedUrlSingle := fun _ _ =>
    inr {| url := "https://storage/put"; s3_key := "incoming/abc.bin"; fields := None |};
  confirmSingleUpload := fun _ => inr tt;
  startMultipartUpload := fun _ =>
    inr {| upload_id := "upload-1"; start_s3_key := "incoming/abc.bin" |};
  getPresignedUrlForPart := fun _ _ => inr {| presigned_url := "https://storage/part" |};
  completeMultipartUpload := fun _ =>
    inr {| Location := Some "https://storage/incoming/abc.bin" |};
  abortMultipartUpload := fun _ => inr tt;
  uploadToS3PresignedPost := fun _ _ _ _ _ =>
    inr {| status := 204; headers_etag := Some (quoted "etag-1") |};
  uploadPartToS3PresignedPut := fun _ _ _ =>
    inr {| status := 200; headers_etag := Some (quoted "etag-1") |}
|}.

(** The same, answering the authorization request with a form upload. *)
Definition backendForm : ApiClient := {|
  getPresignedUrlSingle := fun _ _ =>
    inr {| url := "https://storage/post"; s3_key := "incoming/abc.bin";
           fields := Some [("key", "incoming/abc.bin")] |};
  confirmSingleUpload := confirmSingleUpload backendUp;
  startMultipartUpload := startMultipartUpload backendUp;
  getPresignedUrlForPart := getPresignedUrlForPart backendUp;
  completeMultipartUpload := completeMultipartUpload backendUp;
  abortMultipartUpload := abortMultipartUpload backendUp;
  uploadToS3PresignedPost := fun _ _ _ _ _ =>
    inr {| status := 201; headers_etag := Some (quoted "etag-1") |};
  uploadPartToS3PresignedPut := uploadPartToS3PresignedPut backendUp
|}.

(** A backend that refuses every request. *)
Definition backendDown : ApiClient := {|
  getPresignedUrlSingle := fun _ _ => inl "boom";
  confirmSingleUpload := fun _ => inl "boom";
  startMultipartUpload := fun _ => inl "boom";
  getPresignedUrlForPart := fun _ _ => inl "boom";
  completeMultipartUpload := fun _ => inl "boom";
  abortMultipartUpload := fun _ => inl "boom";
  uploadToS3PresignedPost := fun _ _ _ _ _ => inl "boom";
  uploadPartToS3PresignedPut := fun _ _ _ => inl "boom"
|}.

(** A backend that starts sessions but hands out no part URL, and whose
    abort fails too. *)
Definition backendNoPartUrl : ApiClient := {|
  getPresignedUrlSingle := getPresignedUrlSingle backendUp;
  confirmSingleUpload := confirmSingleUpload backendUp;
  startMultipartUpload := startMultipartUpload backendUp;
  getPresignedUrlForPart := fun _ _ => inl "boom";
  completeMultipartUpload := completeMultipartUpload backendUp;
  abortMultipartUpload := fun _ => inl "abort refused";
  uploadToS3PresignedPost := uploadToS3PresignedPost backendUp;
  uploadPartToS3PresignedPut := uploadPartToS3PresignedPut backendUp
|}.


(** The one part record of the three-byte file, read and checksummed. *)
Definition part1 : Partition.UploadPartTaskJS_MPU := {|
  Partition.partNumber := 1; Partition.offset := 0; Partition.size := 3;
  Partition.filePath := "/data/abc.bin";
  Partition.data := Some abc;
  Partition.checksumSHA256 := Some "ungWv48Bz+pBQUDeXa4iI7ADYaOWF3qctBD/YfIAFa0=";
  Partition.etag := None; Partition.error := None; Partition.retries := 0
|}.

(** The session of the three-byte file when its part is dispatched. *)
Definition session1 : MultipartUploader.Session := {|
  MultipartUploader.baseName := "abc.bin";
  MultipartUploader.mimeType := "application/octet-stream";
  MultipartUploader.overallChecksum := "ungWv48Bz+pBQUDeXa4iI7ADYaOWF3qctBD/YfIAFa0=";
  MultipartUploader.s3UploadId := "upload-1";
  MultipartUploader.backendS3Key := "incoming/abc.bin";
  MultipartUploader.partTasks := [part1]
|}.

(** The authorization request for the three-byte file. *)
Definition request1 : JSON :=
  JObj [("file_name", JStr "abc.bin"); ("collection", JStr "coll"); ("size", JNum 3);
        ("checksum", JStr "ungWv48Bz+pBQUDeXa4iI7ADYaOWF3qctBD/YfIAFa0=");
        ("file_type", JStr "application/octet-stream"); ("collection_path", JNull)].


Definition multipartResult : UploadResult := {|
  file := "abc.bin"; result_status := success;
  result_s3_key := "incoming/abc.bin";
  location := Some "https://storage/incoming/abc.bin"
|}.

(** A folder with a sub-folder: sub/a.txt of 3 bytes and b.txt of 5. *)
Definition tree1 : list FolderProcessor.Entry :=
  [FolderProcessor.DirEntry "sub" (inr [FolderProcessor.FileEntry "a.txt" (inr 3)]);
   FolderProcessor.FileEntry "b.txt" (inr 5)].

(** No ignore pattern matches. *)
Definition nothingIgnored : string -> string -> list string -> bool :=
  fun _ _ _ => false.

(** What the scan of [tree1] from the root "D:" yields on Windows. *)
Definition windowsScan : FolderProcessor.ScanResult := {|
  FolderProcessor.filesToUpload :=
    [{| FolderProcessor.localPath :=
          "D:" +++ String backslash ("sub" +++ String backslash "a.txt");
        FolderProcessor.relativePath := "sub/a.txt";
        FolderProcessor.size := 3;
        FolderProcessor.status := pending;
        FolderProcessor.errorMessage := None |};
     {| FolderProcessor.localPath := "D:" +++ String backslash "b.txt";
        FolderProcessor.relativePath := "b.txt";
        FolderProcessor.size := 5;
        FolderProcessor.status := pending;
        FolderProcessor.errorMessage := None |}];
  FolderProcessor.totalSize := 8
|}.

(** A folder that holds the three-byte file only. *)
Definition folder1 : list FolderProcessor.Entry :=
  [FolderProcessor.FileEntry "abc.bin" (inr 3)].

(** Uploads settle in the order they were started. *)
Definition firstStartedFirst : list nat -> nat := fun _ => O.

End Scenario.

(** ** Further environments *)

Module Scenario2.

(** A file system on which positioned reads fail. *)
Definition nodeNoRead : Node := {|
  createReadStream := createReadStream Scenario.node0;
  readFile := readFile Scenario.node0;
  readAt := fun _ _ _ => inl "EIO: i/o error, read";
  sha256_base64 := sha256_base64 Scenario.node0;
  path_basename := path_basename Scenario.node0;
  path_extname := path_extname Scenario.node0;
  toLowerCase := toLowerCase Scenario.node0;
  mime_lookup := mime_lookup Scenario.node0
|}.

(** A backend whose first answer to every retried request is a refusal. *)
Definition backendSecondTry : ApiClient := {|
  getPresignedUrlSingle := fun attempt payload =>
    if attempt =? 0 then inl "busy" else getPresignedUrlSingle Scenario.backendUp attempt payload;
  confirmSingleUpload := confirmSingleUpload Scenario.backendUp;
  startMultipartUpload := startMultipartUpload Scenario.backendUp;
  getPresignedUrlForPart := fun attempt payload =>
    if attempt =? 0 then inl "busy" else getPresignedUrlForPart Scenario.backendUp attempt payload;
  completeMultipartUpload := completeMultipartUpload Scenario.backendUp;
  abortMultipartUpload := abortMultipartUpload Scenario.backendUp;
  uploadToS3PresignedPost := uploadToS3PresignedPost Scenario.backendUp;
  uploadPartToS3PresignedPut := uploadPartToS3PresignedPut Scenario.backendUp
|}.

(** A storage service that answers every PUT with 200 and an ETag, and
    every POST with 204. *)
Definition storageOk : ApiClientJS.Response := {|
  ApiClientJS.response_status := 200;
  ApiClientJS.statusText := "OK";
  ApiClientJS.response_data := ApiClientJS.Text "";
  ApiClientJS.response_etag := Some (Scenario.quoted "etag-1")
|}.

Definition storageNoContent : ApiClientJS.Response := {|
  ApiClientJS.response_status := 204;
  ApiClientJS.statusText := "No Content";
  ApiClientJS.response_data := ApiClientJS.Text "";
  ApiClientJS.response_etag := Some (Scenario.quoted "etag-1")
|}.

Definition plainText (j : JSON) : string :=
  match j with JStr s => s | _ => "[object Object]" end.

(** The backend of [Scenario.backendForm], with the storage helpers of
    apiClient.js in front of that storage service. *)
Definition libraryClient : ApiClient := {|
  getPresignedUrlSingle := getPresignedUrlSingle Scenario.backendForm;
  confirmSingleUpload := confirmSingleUpload Scenario.backendForm;
  startMultipartUpload := startMultipartUpload Scenario.backendForm;
  getPresignedUrlForPart := getPresignedUrlForPart Scenario.backendForm;
  completeMultipartUpload := completeMultipartUpload Scenario.backendForm;
  abortMultipartUpload := abortMultipartUpload Scenario.backendForm;
  uploadToS3PresignedPost := fun url fields filePath fileName contentType =>
    ApiClientJS.answerOf
      (ApiClientJS.uploadToS3PresignedPost plainText
         (fun _ _ _ _ _ => inr storageNoContent) url fields filePath fileName contentType);
  uploadPartToS3PresignedPut := fun call url bytes =>
    ApiClientJS.answerOf
      (ApiClientJS.uploadPartToS3PresignedPut plainText (fun _ _ => inr storageOk) url bytes)
|}.

(** A control-plane backend that answers the abort request with 200. *)
Definition abortAnswered200 : string -> string -> option JSON
                              -> ApiClientJS.AxiosError + ApiClientJS.Response :=
  fun _ _ _ => inr {| ApiClientJS.response_status := 200;
                      ApiClientJS.statusText := "OK";
                      ApiClientJS.response_data := ApiClientJS.Text "aborted";
                      ApiClientJS.response_etag := None |}.

(** A file system on which every file is an executable. *)
Definition nodeExe : Node := {|
  createReadStream := createReadStream Scenario.node0;
  readFile := readFile Scenario.node0;
  readAt := readAt Scenario.node0;
  sha256_base64 := sha256_base64 Scenario.node0;
  path_basename := fun _ => "setup.exe";
  path_extname := fun _ => ".exe";
  toLowerCase := toLowerCase Scenario.node0;
  mime_lookup := mime_lookup Scenario.node0
|}.

(** What the scan of [Scenario.tree1] from the root "/data" yields on
    POSIX. *)
Definition posixScan : FolderProcessor.ScanResult := {|
  FolderProcessor.filesToUpload :=
    [{| FolderProcessor.localPath := "/data/sub/a.txt";
        FolderProcessor.relativePath := "sub/a.txt";
        FolderProcessor.size := 3;
        FolderProcessor.status := pending;
        FolderProcessor.errorMessage := None |};
     {| FolderProcessor.localPath := "/data/b.txt";
        FolderProcessor.relativePath := "b.txt";
        FolderProcessor.size := 5;
        FolderProcessor.status := pending;
        FolderProcessor.errorMessage := None |}];
  FolderProcessor.totalSize := 8
|}.

(** A folder with a file and a sub-folder that cannot be listed. *)
Definition treeBroken : list FolderProcessor.Entry :=
  [FolderProcessor.FileEntry "b.txt" (inr 5);
   FolderProcessor.DirEntry "locked" (inl "EACCES: permission denied, scandir")].

(** The files found in [Scenario.folder1]. *)
Definition files1 : list FolderProcessor.FileTask :=
  [{| FolderProcessor.localPath := "/data/abc.bin";
      FolderProcessor.relativePath := "abc.bin";
      FolderProcessor.size := 3;
      FolderProcessor.status := pending;
      FolderProcessor.errorMessage := None |}].


End Scenario2.

(** ** Observations on directory trees *)

Module Tree.
Import NodePath FolderProcessor.








(** Induction on a tree, with the hypothesis for every entry of a
    directory. *)
Section EntryInduction.
Variable P : Entry -> Prop.
Hypothesis on_file : forall name stat_size, P (FileEntry name stat_size).
Hypothesis on_unreadable : forall name error, P (DirEntry name (inl error)).
Hypothesis on_dir : forall name items, Forall P items -> P (DirEntry name (inr items)).
Hypothesis on_other : forall name, P (OtherEntry name).

Fixpoint Entry_tree_ind (item : Entry) : P item :=
match item with
| FileEntry name stat_size => on_file name stat_size
| DirEntry name (inl error) => on_unreadable name error
| DirEntry name (inr items) =>
    on_dir name items
      ((fix all (l : list Entry) : Forall P l :=
          match l with
          | [] => Forall_nil P
          | x :: rest => Forall_cons x (Entry_tree_ind x) (all rest)
          end) items)
| OtherEntry name => on_other name
end.
End EntryInduction.

End Tree.

(** ** Observations on traces *)

Module Trace.

Definition isComplete (ev : Event) : bool :=
  match ev with CompleteMultipartUpload _ => true | _ => false end.

Definition isAbort (ev : Event) : bool :=
  match ev with AbortMultipartUpload _ => true | _ => false end.

Definition isConfirm (ev : Event) : bool :=
  match ev with ConfirmSingleUpload _ => true | _ => false end.

(** How many calls of a kind a trace holds. *)
Definition count (kind : Event -> bool) (tr : list Event) : nat :=
  List.length (filter kind tr).

(** The retry behaviour visible in a trace: the attempts of the retried
    request, by attempt number, and the waits between them. *)
Inductive Step :=
| Attempt (k : Z)
| Wait (ms : Z).

Definition steps (tr : list Event) : list Step :=
  flat_map (fun ev =>
              match ev with
              | GetPresignedUrlSingle k _ | GetPresignedUrlForPart k _ => [Attempt k]
              | SetTimeout ms => [Wait ms]
              | _ => []
              end) tr.

Definition attempts (tr : list Event) : list Z :=
  flat_map (fun st => match st with Attempt k => [k] | Wait _ => [] end) (steps tr).

(** [n] attempts numbered from [k] on, each but the last followed by a wait
    of [2 ^ attempt] seconds. *)
Fixpoint backoffSchedule (n : nat) (k : Z) : list Step :=
  match n with
  | O => []
  | S O => [Attempt k]
  | S n' => Attempt k :: Wait (2 ^ k * 1000) :: backoffSchedule n' (k + 1)
  end.

(** A trace all of whose calls are of kind [allowed]. *)
Definition only (allowed : Event -> bool) (tr : list Event) : Prop :=
  Forall (fun ev => allowed ev = true) tr.

(** The calls of a part upload: requests for a URL, PUTs and waits. *)
Definition partCall (ev : Event) : bool :=
  match ev with
  | GetPresignedUrlForPart _ _ | UploadPartToS3PresignedPut _ _ | SetTimeout _ => true
  | _ => false
  end.

(** The calls of the authorization loop. *)
Definition requestCall (ev : Event) : bool :=
  match ev with
  | GetPresignedUrlSingle _ _ | SetTimeout _ => true
  | _ => false
  end.

(** The one call made before the parts are dispatched. *)
Definition startCall (ev : Event) : bool :=
  match ev with StartMultipartUpload _ => true | _ => false end.

End Trace.

(** ** Observations on part records *)

Module PartRecord.
Import Partition.

(** A part record holds a non-empty ETag. *)
Definition has_etag (pt : UploadPartTaskJS_MPU) : Prop := truthy (etag pt) = true.

(** A part record holds its bytes: a buffer as long as the part. *)
Definition holds_buffer (pt : UploadPartTaskJS_MPU) : Prop :=
  exists bytes, data pt = Some bytes /\ Z.of_nat (List.length bytes) = size pt.

(** What the retry loop leaves untouched in the part record. *)
Definition sameRange (a b : UploadPartTaskJS_MPU) : Prop :=
  partNumber a = partNumber b /\ offset a = offset b /\ size a = size b /\
  filePath a = filePath b /\ data a = data b /\ checksumSHA256 a = checksumSHA256 b.

End PartRecord.

(** ** Observations on the folder's bookkeeping *)

Module Bookkeeping.
Import FolderProcessor.

(** While no file has failed, [results] lists successes only. *)
Definition tally (st : Folder) : Prop :=
  0 <= failedUploads st /\
  (failedUploads st = 0 ->
   Forall (fun entry => status (entry_task entry) = success) (results st)).

(** The pending uploads are distinct files, all of them started, and the
    cursor stays within the list. *)
Definition orderly (files : list FileTask) (st : Folder) : Prop :=
  (currentIndex st <= List.length files)%nat /\
  (forall k, In k (activeFileUploads st) -> (k < currentIndex st)%nat) /\
  NoDup (activeFileUploads st).

(** The files that have not settled yet: those not started and those
    pending. *)
Definition unsettled (files : list FileTask) (st : Folder) : nat :=
  (List.length files - currentIndex st) + List.length (activeFileUploads st).

End Bookkeeping.

(** ** Further observations *)

Module Observe.
Import Partition.

Definition isStorageWrite (ev : Event) : bool :=
  match ev with
  | UploadToS3PresignedPost _ | UploadPartToS3PresignedPut _ _ => true
  | _ => false
  end.

Definition isPartUrlRequest (ev : Event) : bool :=
  match ev with GetPresignedUrlForPart _ _ => true | _ => false end.

Definition isUrlRequest (ev : Event) : bool :=
  match ev with GetPresignedUrlSingle _ _ => true | _ => false end.

Definition isPartPut (ev : Event) : bool :=
  match ev with UploadPartToS3PresignedPut (PutPart _ _) _ => true | _ => false end.

(** The bytes of a part cannot be read in full. *)
Definition unreadable (node : Node) (pt : UploadPartTaskJS_MPU) : Prop :=
  match readAt node (filePath pt) (offset pt) (size pt) with
  | inl _ => True
  | inr bytes => Z.of_nat (List.length bytes) <> size pt
  end.

(** A string without double quote. *)
Fixpoint no_quote (s : string) : bool :=
  match s with
  | EmptyString => true
  | String a rest => negb (Ascii.eqb a double_quote) && no_quote rest
  end.

End Observe.

(** ** Observations on a scan *)

Module Scanned.
Import NodePath FolderProcessor.

Section Scanner.
Variables (sep : ascii) (node : Node).
Variable isPathIgnored : string -> string -> list string -> bool.
Variables (root : string) (ignorePatterns : list string).

(** [eligible folderPath item t]: [t] is the record of a regular file in the
    entry [item] of the directory [folderPath], of an allowed type and with
    a known size, such that neither the file nor a directory on the way down
    to it is ignored. *)
Inductive eligible : string -> Entry -> FileTask -> Prop :=
| eligible_file folderPath name n :
    isPathIgnored (path_join sep folderPath name) root ignorePatterns = false ->
    Utils.isFileTypeDisallowed node (path_join sep folderPath name) = false ->
    eligible folderPath (FileEntry name (inr n))
      {| localPath := path_join sep folderPath name;
         relativePath :=
           replace_char backslash slash
             (path_relative sep root (path_join sep folderPath name));
         size := n; status := pending; errorMessage := None |}
| eligible_below folderPath name items child t :
    isPathIgnored (path_join sep folderPath name) root ignorePatterns = false ->
    In child items ->
    eligible (path_join sep folderPath name) child t ->
    eligible folderPath (DirEntry name (inr items)) t.

(** [broken folderPath item e]: the entry [item] of [folderPath] holds,
    outside every ignored directory, a directory that cannot be listed or a
    file of an allowed type whose size cannot be read; [e] is the error the
    scan reports for it. *)
Inductive broken : string -> Entry -> Error -> Prop :=
| broken_listing folderPath name e :
    isPathIgnored (path_join sep folderPath name) root ignorePatterns = false ->
    broken folderPath (DirEntry name (inl e)) e
| broken_stat folderPath name e :
    isPathIgnored (path_join sep folderPath name) root ignorePatterns = false ->
    Utils.isFileTypeDisallowed node (path_join sep folderPath name) = false ->
    broken folderPath (FileEntry name (inl e))
      ("Could not get size of file " +++ path_join sep folderPath name +++ ": " +++ e)
| broken_below folderPath name items child e :
    isPathIgnored (path_join sep folderPath name) root ignorePatterns = false ->
    In child items ->
    broken (path_join sep folderPath name) child e ->
    broken folderPath (DirEntry name (inr items)) e.
End Scanner.

(** The sizes of a list of files, added up. *)
Definition sizeOfAll (files : list FileTask) : Z :=
  fold_right (fun t acc => size t + acc) 0 files.

End Scanned.

(** ** Observations on the folder's progress *)

Module Progress.
Import FolderProcessor.

Section Orchestrator.
Variables (sep : ascii) (config : Config).
Variable singleUploadHandlerLib : string -> Z -> string -> option string -> Run UploadResult.
Variable multiUploadHandlerLib :
  string -> Z -> string -> option string -> Z -> Run UploadResult.
Variables (collection : string) (targetSubPath : option string)
          (fileConcurrency : JSNumber) (partConcurrency : Z).
Variable files : list FileTask.

(** The variables of lines 65-68 as they are initialised. *)
Definition initial : Folder :=
  {| activeFileUploads := []; currentIndex := O; successfulUploads := 0;
     failedUploads := 0; overallUploadedBytesInFolder := 0;
     results := []; made := [] |}.

(** The states the orchestrator goes through: the one after the first call
    of [scheduleNextFileInFolder], and the one after the settlement of any
    pending upload, in whatever order the uploads settle. *)
Inductive Reached : Folder -> Prop :=
| Reached_start :
    Reached (scheduleNextFileInFolder fileConcurrency files (List.length files) initial)
| Reached_settle st k :
    Reached st -> In k (activeFileUploads st) ->
    Reached (settleFile sep config singleUploadHandlerLib multiUploadHandlerLib collection
               targetSubPath fileConcurrency partConcurrency files st k).
End Orchestrator.

End Progress.

(** ** Observations on the folder's results *)

Module Results.
Import FolderProcessor.

(** An entry of [results] is that of a success: it carries what the
    transfer resolved to, and its status says success. *)
Definition isSuccess (entry : ResultEntry) : Prop :=
  entry_result entry <> None /\ status (entry_task entry) = success.

(** The counters agree with [results], and every file is either settled,
    pending or not started. *)
Definition counted (files : list FileTask) (st : Folder) : Prop :=
  0 <= successfulUploads st /\ 0 <= failedUploads st /\
  successfulUploads st + failedUploads st = Z.of_nat (List.length (results st)) /\
  (List.length (results st) + Bookkeeping.unsettled files st = List.length files)%nat /\
  (failedUploads st = 0 -> Forall isSuccess (results st)).




End Results.

(** * Properties *)

(** ** The partition of a file into parts *)

Module PartitionFacts.
Import Partition.

Lemma chunkSizeOf_max config :
  chunkSizeOf config = Z.max (multipart_chunk_size_mb config * (1024 * 1024)) (5 * (1024 * 1024)).
Proof.
  unfold chunkSizeOf; cbv zeta.
  destruct (Z.ltb_spec (multipart_chunk_size_mb config * 1024 * 1024) (5 * 1024 * 1024)); lia.
Qed.

Lemma chunkSizeOf_pos config : 0 < chunkSizeOf config.
Proof. rewrite chunkSizeOf_max; lia. Qed.

(** [Math_ceil_div a b] is the least integer [n] with [a <= n * b]. *)
Lemma Math_ceil_div_bounds a b :
  0 < b -> (Math_ceil_div a b - 1) * b < a <= Math_ceil_div a b * b.
Proof.
  intros Hb; unfold Math_ceil_div.
  pose proof (Z.div_mod (- a) b ltac:(lia)) as Hdm.
  pose proof (Z.mod_pos_bound (- a) b Hb) as Hm.
  nia.
Qed.

Lemma Math_ceil_div_unique a b n :
  0 < b -> (n - 1) * b < a <= n * b -> Math_ceil_div a b = n.
Proof.
  intros Hb Hn. pose proof (Math_ceil_div_bounds a b Hb) as Hc. nia.
Qed.

Section Loop.
Variables (chunk fileSize : Z) (path : string).
Hypothesis chunk_pos : 0 < chunk.

(** While [todo] parts remain and the file extends beyond the first
    [i + todo - 1] chunks, no iteration is skipped. *)
Lemma partLoop_layout : forall (todo : nat) (i : Z),
  0 <= i ->
  (i + Z.of_nat todo - 1) * chunk < fileSize <= (i + Z.of_nat todo) * chunk ->
  let l := partLoop todo i chunk fileSize path in
  List.length l = todo /\
  numbered_from (i + 1) l /\
  contiguous_from (i * chunk) l /\
  (todo <> O -> total_size l = fileSize - i * chunk) /\
  (todo <> O -> last (map size l) 0 = fileSize - (i + Z.of_nat todo - 1) * chunk).
Proof.
  induction todo as [|todo IH]; intros i Hi Hrange; cbn zeta.
  - cbn. repeat split; congruence.
  - cbn [partLoop].
    assert (Hsz : 0 < Z.min chunk (fileSize - i * chunk)) by nia.
    destruct (Z.leb_spec (Z.min chunk (fileSize - i * chunk)) 0) as [Hle|_]; [lia|].
    destruct todo as [|todo'].
    + cbn. repeat split; intros; lia.
    + assert (Hfull : Z.min chunk (fileSize - i * chunk) = chunk) by nia.
      specialize (IH (i + 1) ltac:(lia)).
      cbv zeta in IH.
      destruct IH as (Hlen & Hnum & Hcont & Hsum & Hlast); [nia|].
      set (rest := partLoop (S todo') (i + 1) chunk fileSize path) in *.
      repeat split.
      * cbn [List.length]. now rewrite Hlen.
      * exact Hnum.
      * cbn [size new_UploadPartTaskJS_MPU]. lia.
      * cbn [size new_UploadPartTaskJS_MPU]. rewrite Hfull.
        replace (i * chunk + chunk) with ((i + 1) * chunk) by lia. exact Hcont.
      * intros _. unfold total_size in *. cbn [fold_right size new_UploadPartTaskJS_MPU].
        rewrite Hsum by discriminate. lia.
      * intros _. cbn [map].
        assert (Hne : map size rest <> []).
        { destruct rest; [discriminate Hlen | discriminate]. }
        destruct (map size rest) as [|x xs] eqn:E; [congruence|].
        cbn [last]. cbn [last] in Hlast. rewrite Hlast by discriminate.
        f_equal. nia.
Qed.
End Loop.

End PartitionFacts.

Module PartitionLayout.
Import Partition PartitionFacts.

(** C1.  For a file of [fileSize] bytes and a configured chunk size of
    [multipart_chunk_size_mb] MB, the chunk size used is the larger of that
    many MiB and 5 MiB; the number of parts is the ceiling of
    [fileSize / chunk], that is the one integer [n] with
    [(n - 1) * chunk < fileSize <= n * chunk]; the loop creates exactly that
    many part records, numbered 1, 2, ..., whose byte ranges follow one
    another from offset 0 without gap; their lengths add up to [fileSize];
    and the last length is [fileSize - (n - 1) * chunk]. *)
Theorem partition_layout (config : Config) (filePath : string) (fileSize : Z) :
  0 <= fileSize ->
  let chunk := chunkSizeOf config in
  let n := numPartsOf config fileSize in
  let parts := partTasksOf config filePath fileSize in
  chunk = Z.max (multipart_chunk_size_mb config * (1024 * 1024)) (5 * (1024 * 1024)) /\
  (n - 1) * chunk < fileSize <= n * chunk /\
  Z.of_nat (List.length parts) = n /\
  numbered_from 1 parts /\
  contiguous_from 0 parts /\
  total_size parts = fileSize /\
  (0 < n -> last (map size parts) 0 = fileSize - (n - 1) * chunk).
Proof.
  intros Hsize chunk n parts.
  pose proof (chunkSizeOf_pos config) as Hchunk. fold chunk in Hchunk.
  pose proof (Math_ceil_div_bounds fileSize chunk Hchunk) as Hn.
  change (Math_ceil_div fileSize chunk) with n in Hn.
  split; [apply chunkSizeOf_max|]. split; [exact Hn|].
  assert (Hn0 : 0 <= n) by nia.
  subst parts. unfold partTasksOf, makePartTasks. fold chunk n.
  destruct (Z.ltb_spec 0 n) as [Hpos|Hzero].
  - pose proof (partLoop_layout chunk fileSize filePath Hchunk (Z.to_nat n) 0 ltac:(lia)) as H.
    cbv zeta in H. rewrite Z2Nat.id in H by lia.
    destruct H as (Hlen & Hnum & Hcont & Hsum & Hlast); [lia|].
    assert (Hne : Z.to_nat n <> O) by lia.
    repeat split.
    + rewrite Hlen. lia.
    + exact Hnum.
    + exact Hcont.
    + rewrite Hsum by exact Hne. lia.
    + intros _. rewrite Hlast by exact Hne. f_equal; lia.
  - assert (n = 0) by lia. assert (fileSize = 0) by nia.
    cbn. repeat split; try lia.
Qed.

(** A file of 12 MiB with 5 MiB chunks. *)
Lemma partition_layout_witness :
  0 <= 12582912 /\
  total_size (partTasksOf Scenario.chunk5 "data.bin" 12582912) = 12582912.
Proof.
  split; [lia|].
  destruct (partition_layout Scenario.chunk5 "data.bin" 12582912 ltac:(lia))
    as (_ & _ & _ & _ & _ & Hsum & _).
  exact Hsum.
Defined.

Example three_parts :
  map (fun p => (partNumber p, offset p, size p))
      (partTasksOf Scenario.chunk5 "data.bin" (12 * 1024 * 1024))
  = [(1, 0, 5242880); (2, 5242880, 5242880); (3, 10485760, 2097152)].
Proof. reflexivity. Qed.

End PartitionLayout.


Module RunFacts.
Import Trace.

Lemma calls_bind {A B} (m : Run A) (k : A -> Run B) :
  calls (bind m k) =
  match outcome m with
  | Throw _ => calls m
  | Return a => calls m ++ calls (k a)
  end.
Proof. destruct m as [tr [e|a]]; cbn; [reflexivity|]. now destruct (k a). Qed.

Lemma outcome_bind {A B} (m : Run A) (k : A -> Run B) :
  outcome (bind m k) =
  match outcome m with
  | Throw e => Throw e
  | Return a => outcome (k a)
  end.
Proof. destruct m as [tr [e|a]]; cbn; [reflexivity|]. now destruct (k a). Qed.

Lemma calls_try_catch {A} (m : Run A) (h : Error -> Run A) :
  calls (try_catch m h) =
  match outcome m with
  | Throw e => calls m ++ calls (h e)
  | Return _ => calls m
  end.
Proof. destruct m as [tr [e|a]]; cbn; [|reflexivity]. now destruct (h e). Qed.

Lemma outcome_try_catch {A} (m : Run A) (h : Error -> Run A) :
  outcome (try_catch m h) =
  match outcome m with
  | Throw e => outcome (h e)
  | Return a => Return a
  end.
Proof. destruct m as [tr [e|a]]; cbn; [|reflexivity]. now destruct (h e). Qed.

Lemma count_app kind tr1 tr2 : count kind (tr1 ++ tr2) = (count kind tr1 + count kind tr2)%nat.
Proof. unfold count. now rewrite filter_app, length_app. Qed.

Lemma steps_app tr1 tr2 : steps (tr1 ++ tr2) = steps tr1 ++ steps tr2.
Proof. unfold steps. now rewrite flat_map_app. Qed.

Lemma only_nil allowed : only allowed [].
Proof. constructor. Qed.

Lemma only_app allowed tr1 tr2 :
  only allowed tr1 -> only allowed tr2 -> only allowed (tr1 ++ tr2).
Proof. intros H1 H2. apply Forall_app. now split. Qed.

Lemma only_bind {A B} allowed (m : Run A) (k : A -> Run B) :
  only allowed (calls m) -> (forall a, only allowed (calls (k a))) ->
  only allowed (calls (bind m k)).
Proof.
  intros Hm Hk. rewrite calls_bind. destruct (outcome m); [exact Hm|].
  apply only_app; auto.
Qed.

Lemma only_try_catch {A} allowed (m : Run A) (h : Error -> Run A) :
  only allowed (calls m) -> (forall e, only allowed (calls (h e))) ->
  only allowed (calls (try_catch m h)).
Proof.
  intros Hm Hh. rewrite calls_try_catch. destruct (outcome m); [|exact Hm].
  apply only_app; auto.
Qed.

Lemma only_await {A} allowed call (answer : Error + A) :
  allowed call = true -> only allowed (calls (await call answer)).
Proof. intros H. cbn. repeat constructor. exact H. Qed.

Lemma count_only_zero allowed kind tr :
  only allowed tr -> (forall ev, allowed ev = true -> kind ev = false) ->
  count kind tr = O.
Proof.
  intros Honly Hdisj. unfold count.
  induction Honly as [|ev tr Hev _ IH]; [reflexivity|].
  cbn. now rewrite (Hdisj ev Hev).
Qed.

Lemma backoffSchedule_length n k :
  List.length (flat_map (fun st => match st with Attempt j => [j] | Wait _ => [] end)
                 (backoffSchedule n k)) = n.
Proof.
  revert k. induction n as [|n IH]; intros k; [reflexivity|].
  destruct n as [|n']; [reflexivity|].
  change (backoffSchedule (S (S n')) k)
    with (Attempt k :: Wait (2 ^ k * 1000) :: backoffSchedule (S n') (k + 1)).
  cbn [flat_map app List.length]. now rewrite IH.
Qed.

End RunFacts.

Module PartUploadFacts.
Import Trace PartRecord RunFacts MultipartUploader.

Section WithEnvironment.
Variables (node : Node) (apiClient : ApiClient) (config : Config).
Variables (s3UploadId backendS3Key collection mimeType : string).

Local Abbreviation attemptOf :=
  (partAttempt apiClient s3UploadId backendS3Key collection mimeType).
Local Abbreviation loop :=
  (partRetryLoop apiClient config s3UploadId backendS3Key collection mimeType).
Local Abbreviation uploadOf :=
  (_uploadSinglePartWithRetryJS_MPU node apiClient config
     s3UploadId backendS3Key collection mimeType).

(** An attempt asks for one URL, whatever becomes of it. *)
Lemma steps_partAttempt pt k : steps (calls (attemptOf pt k)) = [Attempt k].
Proof.
  unfold partAttempt.
  rewrite calls_bind. cbn [await calls outcome fst snd].
  destruct (getPresignedUrlForPart apiClient k _) as [e|info]; [reflexivity|].
  rewrite steps_app, calls_bind.
  destruct (data pt) as [bytes|]; cbn [await throw calls outcome fst snd].
  - destruct (uploadPartToS3PresignedPut apiClient _ _ bytes) as [e|resp]; [reflexivity|].
    rewrite steps_app.
    destruct (option_map _ (headers_etag resp)) as [[|a rest]|]; reflexivity.
  - reflexivity.
Qed.

Lemma only_partAttempt pt k : only partCall (calls (attemptOf pt k)).
Proof.
  unfold partAttempt.
  apply only_bind; [now apply only_await|]. intros info.
  apply only_bind.
  - destruct (data pt); [now apply only_await | apply only_nil].
  - intros resp. destruct (option_map _ _) as [[|a rest]|]; apply only_nil.
Qed.

(** An ETag an attempt yields is not empty. *)
Lemma partAttempt_etag pt k tr e :
  attemptOf pt k = (tr, Return e) -> truthy (Some e) = true.
Proof.
  unfold partAttempt. intros H.
  apply (f_equal outcome) in H. cbn [outcome snd] in H.
  rewrite outcome_bind in H. destruct (outcome (await _ _)); [discriminate|].
  rewrite outcome_bind in H. destruct (outcome _); [discriminate|].
  destruct (option_map _ _) as [[|c rest]|]; cbn in H; try discriminate.
  now inversion H.
Qed.

Lemma sameRange_refl a : sameRange a a.
Proof. repeat split. Qed.

Lemma partRetryLoop_frame : forall todo attempt pt pt' tr r,
  loop todo attempt pt = (pt', tr, r) -> sameRange pt' pt.
Proof.
  induction todo as [|todo IH]; intros attempt pt pt' tr r H; cbn [partRetryLoop] in H.
  - inversion H; subst. apply sameRange_refl.
  - destruct (partAttempt _ _ _ _ _ _ _) as [tr1 [err|e]].
    + destruct (attempt >=? retry_attempts config).
      * inversion H; subst. repeat split.
      * destruct (partRetryLoop _ _ _ _ _ _ todo _ _) as [[pt1 tr2] r1] eqn:E.
        inversion H; subst. apply IH in E. exact E.
    + inversion H; subst. repeat split.
Qed.

(** A part upload that yields a value has stored a non-empty ETag. *)
Lemma partRetryLoop_some : forall todo attempt pt pt' tr info,
  loop todo attempt pt = (pt', tr, Some info) ->
  truthy (etag pt') = true /\ etag pt' = Some (ETag info) /\
  PartNumber info = partNumber pt.
Proof.
  induction todo as [|todo IH]; intros attempt pt pt' tr info H; cbn [partRetryLoop] in H.
  - discriminate.
  - destruct (partAttempt _ _ _ _ _ _ _) as [tr1 [err|e]] eqn:Ea.
    + destruct (attempt >=? retry_attempts config); [discriminate|].
      destruct (partRetryLoop _ _ _ _ _ _ todo _ _) as [[pt1 tr2] r1] eqn:E.
      inversion H; subst. apply IH in E. exact E.
    + apply partAttempt_etag in Ea. inversion H; subst. cbn. auto.
Qed.

Lemma only_partRetryLoop : forall todo attempt pt pt' tr r,
  loop todo attempt pt = (pt', tr, r) -> only partCall tr.
Proof.
  induction todo as [|todo IH]; intros attempt pt pt' tr r H; cbn [partRetryLoop] in H.
  - inversion H; subst. apply only_nil.
  - pose proof (only_partAttempt (set_retries pt attempt) attempt) as Ha.
    destruct (partAttempt _ _ _ _ _ _ _) as [tr1 [err|e]].
    + destruct (attempt >=? retry_attempts config).
      * inversion H; subst. exact Ha.
      * destruct (partRetryLoop _ _ _ _ _ _ todo _ _) as [[pt1 tr2] r1] eqn:E.
        inversion H; subst. apply only_app; [exact Ha|].
        constructor; [reflexivity|]. eapply IH; eassumption.
    + inversion H; subst. exact Ha.
Qed.

(** The loop when every attempt fails: attempt [k] with the error [err k]. *)
Lemma partRetryLoop_exhausted (err : Z -> Error) :
  forall todo attempt pt,
    (forall k, 0 <= k -> outcome (attemptOf pt k) = Throw (err k)) ->
    0 <= attempt ->
    attempt + Z.of_nat todo = retry_attempts config + 1 ->
    todo <> O ->
    exists pt' tr,
      loop todo attempt pt = (pt', tr, None) /\
      error pt' = Some (err (retry_attempts config)) /\
      retries pt' = retry_attempts config /\
      etag pt' = etag pt /\
      steps tr = backoffSchedule todo attempt.
Proof.
  induction todo as [|todo IH]; intros attempt pt Hfail Hattempt Hsum Htodo; [congruence|].
  cbn [partRetryLoop].
  pose proof (Hfail attempt Hattempt) as Hnow.
  pose proof (steps_partAttempt (set_retries pt attempt) attempt) as Hsteps.
  change (partAttempt apiClient s3UploadId backendS3Key collection mimeType
            (set_retries pt attempt) attempt)
    with (partAttempt apiClient s3UploadId backendS3Key collection mimeType pt attempt)
    in *.
  destruct (partAttempt _ _ _ _ _ pt attempt) as [tr1 [e|e]]; cbn in Hnow; [|discriminate].
  inversion Hnow; subst e. cbn [calls fst] in Hsteps.
  destruct todo as [|todo'].
  - assert (attempt = retry_attempts config) by lia. subst attempt.
    rewrite (proj2 (Z.geb_le _ _)) by lia.
    eexists _, _. split; [reflexivity|]. cbn. auto.
  - destruct (Z.geb_spec attempt (retry_attempts config)) as [Hge|Hlt]; [lia|].
    destruct (IH (attempt + 1) (set_retries pt attempt)) as (pt' & tr & Hloop & He & Hr & Het & Hst);
      [exact Hfail | lia | lia | discriminate |].
    rewrite Hloop.
    eexists _, _. split; [reflexivity|].
    repeat split; try assumption.
    rewrite steps_app, Hsteps.
    change (steps (SetTimeout (2 ^ attempt * 1000) :: tr))
      with (Wait (2 ^ attempt * 1000) :: steps tr).
    rewrite Hst. reflexivity.
Qed.

(** [readAndChecksum] touches the buffer, the checksum and the error only;
    a buffer it loads has the length of the part. *)
Lemma readAndChecksum_frame pt pt' o :
  readAndChecksum node pt = (pt', o) ->
  partNumber pt' = partNumber pt /\ offset pt' = offset pt /\ size pt' = size pt /\
  etag pt' = etag pt /\
  match o with
  | Throw _ => data pt' = data pt
  | Return _ => exists bytes, data pt' = Some bytes /\ Z.of_nat (List.length bytes) = size pt
  end.
Proof.
  unfold readAndChecksum. intros H.
  destruct (readAt node _ _ _) as [e|bytes].
  - inversion H; subst. cbn. auto.
  - destruct (Z.eqb_spec (Z.of_nat (List.length bytes)) (size pt)) as [Hlen|Hlen];
      cbn [negb] in H; inversion H; subst; cbn; repeat split.
    exists bytes. auto.
Qed.

(** The buffer of a part record outlives the upload of the part. *)
Lemma upload_keeps_buffer pt pt' r bytes :
  data pt = Some bytes -> Z.of_nat (List.length bytes) = size pt ->
  uploadOf pt = (pt', r) ->
  exists bytes', data pt' = Some bytes' /\ Z.of_nat (List.length bytes') = size pt'.
Proof.
  unfold _uploadSinglePartWithRetryJS_MPU. intros Hdata Hlen H.
  assert (Hprep : exists pt1 o1,
             (match data pt, truthy (checksumSHA256 pt) with
              | Some _, true => (pt, Return tt)
              | _, _ => readAndChecksum node pt
              end) = (pt1, o1) /\
             size pt1 = size pt /\
             exists b1, data pt1 = Some b1 /\ Z.of_nat (List.length b1) = size pt1).
  { rewrite Hdata. destruct (truthy (checksumSHA256 pt)).
    - eexists _, _. split; [reflexivity|]. split; [reflexivity|]. eauto.
    - destruct (readAndChecksum node pt) as [pt1 o1] eqn:E.
      eexists _, _. split; [reflexivity|].
      apply readAndChecksum_frame in E. destruct E as (_ & _ & Hs & _ & Hd).
      split; [exact Hs|].
      destruct o1 as [e|[]].
      + exists bytes. rewrite Hd, Hs. auto.
      + destruct Hd as (b & Hb & Hl). exists b. rewrite Hs. auto. }
  destruct Hprep as (pt1 & o1 & Hp & Hsz & b1 & Hb1 & Hl1).
  rewrite Hp in H.
  destruct o1 as [e|[]].
  - inversion H; subst. eauto.
  - destruct (error pt1).
    + inversion H; subst. eauto.
    + destruct (partRetryLoop _ _ _ _ _ _ _ _ _) as [[pt2 tr] r2] eqn:E.
      inversion H; subst.
      apply partRetryLoop_frame in E. destruct E as (_ & _ & Hs2 & _ & Hd2 & _).
      exists b1. rewrite Hd2, Hs2. auto.
Qed.

(** A part promise that resolves to a value has stored a non-empty ETag
    in its record. *)
Lemma upload_value_etag pt pt' tr info :
  uploadOf pt = (pt', (tr, Return (Some info))) -> truthy (etag pt') = true.
Proof.
  unfold _uploadSinglePartWithRetryJS_MPU. intros H.
  destruct (match data pt, truthy (checksumSHA256 pt) with
            | Some _, true => (pt, Return tt)
            | _, _ => readAndChecksum node pt
            end) as [pt1 [e|[]]].
  - inversion H.
  - destruct (error pt1); [inversion H|].
    destruct (partRetryLoop _ _ _ _ _ _ _ _ _) as [[pt2 tr2] r2] eqn:E.
    inversion H; subst.
    now apply partRetryLoop_some in E.
Qed.

(** The calls of a part promise are requests for URLs, PUTs and waits. *)
Lemma only_upload pt : only partCall (calls (snd (uploadOf pt))).
Proof.
  unfold _uploadSinglePartWithRetryJS_MPU.
  destruct (match data pt, truthy (checksumSHA256 pt) with
            | Some _, true => (pt, Return tt)
            | _, _ => readAndChecksum node pt
            end) as [pt1 [e|[]]].
  - apply only_nil.
  - destruct (error pt1); [apply only_nil|].
    destruct (partRetryLoop _ _ _ _ _ _ _ _ _) as [[pt2 tr2] r2] eqn:E.
    cbn. eapply only_partRetryLoop. exact E.
Qed.
End WithEnvironment.

End PartUploadFacts.

Module SessionFacts.
Import Trace PartRecord RunFacts MultipartUploader PartUploadFacts.

Lemma flat_map_full {A B} (f : A -> list B) (l : list A) :
  (forall x, (List.length (f x) <= 1)%nat) ->
  List.length (flat_map f l) = List.length l ->
  Forall (fun x => List.length (f x) = 1%nat) l.
Proof.
  intros Hf. induction l as [|x l IH]; intros Hlen; [constructor|].
  cbn in Hlen. rewrite length_app in Hlen.
  assert (Hle : (List.length (flat_map f l) <= List.length l)%nat).
  { clear -Hf. induction l as [|y l IH]; [apply le_n|].
    cbn. rewrite length_app. pose proof (Hf y). lia. }
  pose proof (Hf x).
  constructor; [lia | apply IH; lia].
Qed.

Section WithEnvironment.
Variables (node : Node) (apiClient : ApiClient) (config : Config).
Variables (filePath : string) (fileSize : Z) (collection : string)
          (targetSubPath : option string).

Local Abbreviation prepare :=
  (prepareSession node apiClient config filePath fileSize collection targetSubPath).
Local Abbreviation settled := (settledParts node apiClient config collection).
Local Abbreviation incomplete := (partSetIncomplete node apiClient config collection).
Local Abbreviation finish :=
  (finishSession node apiClient config fileSize collection targetSubPath).
Local Abbreviation handle :=
  (handleMultipartUpload node apiClient config filePath fileSize collection targetSubPath).

Lemma prepareParts_calls pts : calls (prepareParts node pts) = [].
Proof.
  induction pts as [|pt rest IH]; [reflexivity|]. cbn [prepareParts].
  destruct (readAndChecksum node pt) as [pt' [e|[]]]; [reflexivity|].
  destruct (error pt'); [reflexivity|].
  rewrite calls_bind, IH. now destruct (outcome _).
Qed.

Lemma prepareParts_return : forall pts tr pts',
  prepareParts node pts = (tr, Return pts') ->
  Forall holds_buffer pts' /\
  map (fun p => (partNumber p, offset p, size p)) pts'
  = map (fun p => (partNumber p, offset p, size p)) pts.
Proof.
  induction pts as [|pt rest IH]; intros tr pts' H; cbn [prepareParts] in H.
  - inversion H; subst. split; [constructor | reflexivity].
  - destruct (readAndChecksum node pt) as [pt1 [e|[]]] eqn:E; [discriminate|].
    destruct (error pt1); [discriminate|].
    destruct (prepareParts node rest) as [tr2 [e|rest']] eqn:Er; [discriminate|].
    cbn in H. inversion H; subst.
    destruct (IH _ _ eq_refl) as [Hb Hl].
    apply readAndChecksum_frame in E. destruct E as (Hn & Ho & Hs & _ & b & Hd & Hlen).
    split.
    + constructor; [|exact Hb]. exists b. rewrite Hs. auto.
    + cbn [map]. rewrite Hn, Ho, Hs, Hl. reflexivity.
Qed.

(** Before the parts are dispatched the only call is the start of the
    session. *)
Lemma only_prepare : only startCall (calls prepare).
Proof.
  unfold prepareSession.
  destruct (Utils.isFileTypeDisallowed node filePath); [apply only_nil|].
  destruct (_ >? S3_MAX_PARTS_JS_MPU); [apply only_nil|].
  apply only_bind.
  { unfold Utils.calculateSHA256Checksum. destruct (createReadStream node filePath); apply only_nil. }
  intros checksum. apply only_bind.
  { apply only_try_catch.
    - apply only_bind; [now apply only_await|].
      intros resp. destruct (_ || _); apply only_nil.
    - intros e. apply only_nil. }
  intros started. apply only_bind; [|intros; apply only_nil].
  destruct (0 <? _).
  - rewrite prepareParts_calls. apply only_nil.
  - destruct (fileSize >? 0); apply only_nil.
Qed.

(** A session that reaches the part uploads has a non-empty upload id and
    storage key, and part records that hold their bytes and tile the file
    as [partTasksOf] lays it out. *)
Lemma prepare_return tr s :
  prepare = (tr, Return s) ->
  truthy (Some (s3UploadId s)) = true /\
  truthy (Some (backendS3Key s)) = true /\
  baseName s = path_basename node filePath /\
  Forall holds_buffer (partTasks s) /\
  map (fun p => (partNumber p, offset p, size p)) (partTasks s)
  = map (fun p => (partNumber p, offset p, size p)) (partTasksOf config filePath fileSize).
Proof.
  unfold prepareSession. intros H.
  destruct (Utils.isFileTypeDisallowed node filePath); [discriminate|].
  destruct (_ >? S3_MAX_PARTS_JS_MPU); [discriminate|].
  apply (f_equal outcome) in H. cbn [outcome snd] in H.
  rewrite outcome_bind in H.
  destruct (outcome (Utils.calculateSHA256Checksum node filePath)) as [e|checksum];
    [discriminate|].
  rewrite outcome_bind, outcome_try_catch, outcome_bind in H.
  cbn [await outcome snd] in H.
  destruct (startMultipartUpload apiClient _) as [e|resp]; [discriminate|].
  destruct (truthy (Some (upload_id resp))) eqn:Hid; cbn [negb orb] in H; [|discriminate].
  destruct (truthy (Some (start_s3_key resp))) eqn:Hkey; cbn [negb] in H; [|discriminate].
  cbn [ret outcome snd] in H.
  rewrite outcome_bind in H.
  fold (numPartsOf config fileSize) in H.
  fold (partTasksOf config filePath fileSize) in H.
  destruct (0 <? Z.of_nat (List.length (partTasksOf config filePath fileSize))) eqn:Hlen.
  - destruct (prepareParts node (partTasksOf config filePath fileSize))
      as [tr2 [e|pts]] eqn:Ep; cbn [outcome snd] in H; [discriminate|].
    inversion H; subst; cbn.
    apply prepareParts_return in Ep. destruct Ep as [Hb Hl]. auto.
  - destruct (fileSize >? 0); cbn [outcome snd throw ret] in H; [discriminate|].
    inversion H; subst; cbn.
    assert (Hnil : partTasksOf config filePath fileSize = []).
    { destruct (partTasksOf config filePath fileSize); [reflexivity|].
      cbn [List.length] in Hlen. apply Z.ltb_ge in Hlen. lia. }
    rewrite Hnil. repeat split; auto.
Qed.

(** A session that reaches the part uploads stays within the limit on the
    number of parts. *)
Lemma prepare_within_limit tr s :
  prepare = (tr, Return s) -> numPartsOf config fileSize <= S3_MAX_PARTS_JS_MPU.
Proof.
  unfold prepareSession. intros H.
  destruct (Utils.isFileTypeDisallowed node filePath); [discriminate|].
  fold (numPartsOf config fileSize) in H.
  destruct (Z.gtb_spec (numPartsOf config fileSize) S3_MAX_PARTS_JS_MPU); [discriminate|].
  assumption.
Qed.

(** The part promises start or end no session. *)
Lemma only_partCalls s : only partCall (partCalls node apiClient config collection s).
Proof.
  unfold partCalls, uploadParts.
  induction (partTasks s) as [|pt rest IH]; [apply only_nil|].
  cbn [map flat_map]. apply only_app; [apply only_upload | exact IH].
Qed.

Lemma handle_after_prepare tr0 s :
  prepare = (tr0, Return s) ->
  handle = (tr0 ++ partCalls node apiClient config collection s ++ calls (finish s),
            outcome (finish s)).
Proof.
  intros H. unfold handleMultipartUpload. rewrite H. cbn [bind].
  destruct (finish s) as [tr2 o2]. reflexivity.
Qed.

Lemma handle_prepare_throws tr0 e :
  prepare = (tr0, Throw e) -> handle = (tr0, Throw e).
Proof. intros H. unfold handleMultipartUpload. now rewrite H. Qed.

(** ** The end of the session, case by case *)

Lemma abortQuietly_run s :
  abortQuietly apiClient collection s
  = ([AbortMultipartUpload (abortPayload collection s)], Return tt).
Proof.
  unfold abortQuietly, try_catch, await.
  destruct (abortMultipartUpload apiClient _) as [e|[]]; reflexivity.
Qed.

Lemma finish_incomplete s :
  incomplete s = true ->
  finish s = ([AbortMultipartUpload (abortPayload collection s)],
              Throw (partsFailedError node apiClient config collection s)).
Proof.
  intros H. unfold finishSession. rewrite H, abortQuietly_run. reflexivity.
Qed.

Local Abbreviation completion s :=
  (completePayload fileSize collection targetSubPath s
     (sortByPartNumber (uploadedPartsInfo node apiClient config collection s))).

Lemma finish_complete_fails s e :
  incomplete s = false ->
  completeMultipartUpload apiClient (completion s) = inl e ->
  finish s = ([CompleteMultipartUpload (completion s);
               AbortMultipartUpload (abortPayload collection s)],
              Throw ("Failed to complete MPU with backend: " +++ e)).
Proof.
  intros H He. unfold finishSession. rewrite H. cbv zeta.
  unfold await. rewrite He. cbn [bind try_catch]. rewrite abortQuietly_run. reflexivity.
Qed.

Lemma finish_complete_ok s resp :
  incomplete s = false ->
  completeMultipartUpload apiClient (completion s) = inr resp ->
  finish s = ([CompleteMultipartUpload (completion s)],
              Return {| file := baseName s; result_status := success;
                        result_s3_key := backendS3Key s; location := Location resp |}).
Proof.
  intros H He. unfold finishSession. rewrite H. cbv zeta.
  unfold await. rewrite He. reflexivity.
Qed.

(** When the test of line 157 lets the session through, every part record
    holds an ETag. *)
Lemma complete_parts_have_etags s :
  incomplete s = false -> Forall has_etag (settled s).
Proof.
  unfold partSetIncomplete, settledParts, uploadedPartsInfo. intros H.
  set (L := uploadParts node apiClient config collection s) in *.
  assert (HL : List.length L = List.length (partTasks s)).
  { subst L. unfold uploadParts. now rewrite length_map. }
  apply andb_false_iff in H. destruct H as [H|H].
  - apply Z.ltb_ge in H. destruct L; [constructor|]. cbn in HL. lia.
  - apply negb_false_iff, Z.eqb_eq in H.
    apply Forall_map.
    pose proof (flat_map_full
                  (fun st : UploadPartTaskJS_MPU * Run (option PartInfo) =>
                     match outcome (snd st) with
                     | Return (Some value) => [value]
                     | _ => []
                     end) L) as Hfull.
    cbv beta in Hfull.
    assert (Hall := Hfull
              (fun x => match outcome (snd x) as o
                              return (List.length match o with
                                                  | Return (Some value) => [value]
                                                  | _ => []
                                                  end <= 1)%nat
                        with
                        | Throw _ => le_S _ _ (le_n 0)
                        | Return (Some _) => le_n 1
                        | Return None => le_S _ _ (le_n 0)
                        end)
              ltac:(lia)).
    clear Hfull H.
    subst L. unfold uploadParts in *.
    rewrite Forall_map in Hall. rewrite Forall_map.
    eapply Forall_impl; [|exact Hall].
    intros pt Hpt. cbv beta in Hpt.
    destruct (_uploadSinglePartWithRetryJS_MPU node apiClient config _ _ _ _ pt)
      as [pt' [tr [e|[info|]]]] eqn:E; cbn in Hpt; try discriminate.
    cbn. eapply upload_value_etag. exact E.
Qed.

Lemma lacking_etag_incomplete s :
  Exists (fun pt => truthy (etag pt) = false) (settled s) -> incomplete s = true.
Proof.
  intros Hex. destruct (incomplete s) eqn:E; [reflexivity|].
  apply complete_parts_have_etags in E.
  apply Exists_exists in Hex. destruct Hex as (pt & Hin & Hno).
  rewrite Forall_forall in E. specialize (E pt Hin). unfold has_etag in E. congruence.
Qed.
End WithEnvironment.

End SessionFacts.

(** ** Multipart transfer: completion, abort and buffers *)

Module MultipartClaims.
Import Trace PartRecord RunFacts MultipartUploader PartUploadFacts SessionFacts.

Section WithEnvironment.
Variables (node : Node) (apiClient : ApiClient) (config : Config).
Variables (filePath : string) (fileSize : Z) (collection : string)
          (targetSubPath : option string).

Local Abbreviation prepare :=
  (prepareSession node apiClient config filePath fileSize collection targetSubPath).
Local Abbreviation settled := (settledParts node apiClient config collection).
Local Abbreviation incomplete := (partSetIncomplete node apiClient config collection).
Local Abbreviation handle :=
  (handleMultipartUpload node apiClient config filePath fileSize collection targetSubPath).

Lemma no_session_end_before tr0 s :
  prepare = (tr0, Return s) ->
  forall kind, (kind = isComplete \/ kind = isAbort) ->
  count kind (calls handle)
  = count kind (calls (finishSession node apiClient config fileSize collection
                         targetSubPath s)).
Proof.
  intros Hp kind Hkind. rewrite (handle_after_prepare _ _ _ _ _ _ _ _ _ Hp).
  cbn [calls fst]. rewrite !count_app.
  pose proof only_prepare node apiClient config filePath fileSize collection targetSubPath as H0.
  rewrite Hp in H0. cbn [calls fst] in H0.
  rewrite (count_only_zero startCall kind tr0 H0).
  2:{ intros ev Hev. destruct Hkind; subst kind; destruct ev; now try discriminate. }
  rewrite (count_only_zero partCall kind _ (only_partCalls node apiClient config collection s)).
  2:{ intros ev Hev. destruct Hkind; subst kind; destruct ev; now try discriminate. }
  reflexivity.
Qed.

(** C2.  The "complete" operation is called only in a run whose part
    records all hold a non-empty ETag once the part uploads have settled;
    and when, after they have settled, some part record holds no ETag,
    "complete" is not called and "abort" is called exactly once. *)
Theorem complete_only_with_all_etags :
  (count isComplete (calls handle) <> O ->
   exists tr0 s, prepare = (tr0, Return s) /\ Forall has_etag (settled s)) /\
  (forall tr0 s,
      prepare = (tr0, Return s) ->
      Exists (fun pt => truthy (etag pt) = false) (settled s) ->
      count isComplete (calls handle) = O /\ count isAbort (calls handle) = 1%nat).
Proof.
  split.
  - intros Hcalled.
    destruct prepare as [tr0 [e|s]] eqn:Hp.
    + exfalso. apply Hcalled.
      rewrite (handle_prepare_throws _ _ _ _ _ _ _ _ _ Hp). cbn [calls fst].
      pose proof only_prepare node apiClient config filePath fileSize collection
           targetSubPath as H0.
      rewrite Hp in H0.
      apply (count_only_zero startCall isComplete tr0 H0).
      intros ev Hev. destruct ev; now try discriminate.
    + exists tr0, s. split; [reflexivity|].
      rewrite (no_session_end_before _ _ Hp isComplete) in Hcalled by auto.
      destruct (incomplete s) eqn:Hinc.
      * rewrite (finish_incomplete _ _ _ _ _ _ _ Hinc) in Hcalled. now cbn in Hcalled.
      * now apply complete_parts_have_etags.
  - intros tr0 s Hp Hlack.
    apply lacking_etag_incomplete in Hlack.
    rewrite (no_session_end_before _ _ Hp isComplete), (no_session_end_before _ _ Hp isAbort)
      by auto.
    rewrite (finish_incomplete _ _ _ _ _ _ _ Hlack). split; reflexivity.
Qed.


(** C7, as the code has it.  Every part record still holds its byte
    buffer, the whole part, after the upload of the part has concluded,
    whether it succeeded or used up its attempts: nothing releases it. *)
Theorem part_buffers_stay_loaded (tr0 : list Event) (s : Session) :
  prepare = (tr0, Return s) -> Forall holds_buffer (settled s).
Proof.
  intros Hp. apply prepare_return in Hp. destruct Hp as (_ & _ & _ & Hb & _).
  unfold settledParts, uploadParts. rewrite map_map. apply Forall_map.
  eapply Forall_impl; [|exact Hb].
  intros pt (bytes & Hd & Hl).
  destruct (_uploadSinglePartWithRetryJS_MPU node apiClient config _ _ _ _ pt)
    as [pt' r] eqn:E.
  cbn. eapply upload_keeps_buffer; eassumption.
Qed.

End WithEnvironment.

End MultipartClaims.

(** ** Single-unit transfer *)

Module SingleFileFacts.
Import Trace RunFacts SingleFileUploader.

Lemma try_catch_rethrow {A} (m : Run A) : try_catch m (fun error => throw error) = m.
Proof. destruct m as [tr [e|a]]; cbn; [now rewrite app_nil_r | reflexivity]. Qed.

Section WithEnvironment.
Variables (node : Node) (apiClient : ApiClient) (config : Config).
Variables (filePath : string) (fileSize : Z) (collection : string)
          (targetSubPath : option string).

Local Abbreviation requestLoop := (requestUrlLoop apiClient config).
Local Abbreviation handle :=
  (handleSingleFileUpload node apiClient config filePath fileSize collection targetSubPath).

(** The request loop when every request fails: request [k] with the
    error [err k]. *)
Lemma requestUrlLoop_exhausted (err : Z -> Error) (payload : JSON) :
  (forall k, 0 <= k -> getPresignedUrlSingle apiClient k payload = inl (err k)) ->
  forall todo attempt,
    0 <= attempt ->
    attempt + Z.of_nat todo = retry_attempts config + 1 ->
    todo <> O ->
    exists tr,
      requestLoop todo attempt payload
      = (tr, Throw ("Failed to get presigned URL after "
                    +++ string_of_Z (retry_attempts config + 1)
                    +++ " attempts: " +++ err (retry_attempts config))) /\
      steps tr = backoffSchedule todo attempt.
Proof.
  intros Hfail.
  induction todo as [|todo IH]; intros attempt Hattempt Hsum Htodo; [congruence|].
  cbn [requestUrlLoop]. unfold await. rewrite (Hfail attempt Hattempt).
  cbn [bind try_catch].
  destruct todo as [|todo'].
  - assert (attempt = retry_attempts config) by lia. subst attempt.
    rewrite (proj2 (Z.geb_le _ _)) by lia.
    eexists. split; [reflexivity|]. reflexivity.
  - destruct (Z.geb_spec attempt (retry_attempts config)) as [Hge|Hlt]; [lia|].
    destruct (IH (attempt + 1)) as (tr & Hloop & Hst); [lia | lia | discriminate |].
    rewrite Hloop. cbn [bind].
    eexists. split; [reflexivity|].
    cbn [app].
    change (steps (GetPresignedUrlSingle attempt payload :: SetTimeout (2 ^ attempt * 1000) :: tr))
      with (Attempt attempt :: Wait (2 ^ attempt * 1000) :: steps tr).
    rewrite Hst. reflexivity.
Qed.


Lemma only_requestUrlLoop : forall todo attempt payload,
  only requestCall (calls (requestLoop todo attempt payload)).
Proof.
  induction todo as [|todo IH]; intros attempt payload; cbn [requestUrlLoop].
  - apply only_nil.
  - apply only_try_catch.
    + apply only_bind; [now apply only_await | intros; apply only_nil].
    + intros e. destruct (attempt >=? retry_attempts config); [apply only_nil|].
      apply only_bind; [repeat constructor | intros; apply IH].
Qed.

Local Abbreviation afterChecksum :=
  (SingleFileUploader.afterChecksum node apiClient config filePath fileSize collection
     targetSubPath).

Lemma handle_after_checksum bytes :
  Utils.isFileTypeDisallowed node filePath = false ->
  createReadStream node filePath = inr bytes ->
  handle = afterChecksum (sha256_base64 node bytes).
Proof.
  intros Hallowed Hread. unfold handleSingleFileUpload. rewrite Hallowed.
  rewrite try_catch_rethrow. unfold Utils.calculateSHA256Checksum. rewrite Hread.
  cbn [bind ret app].
  now destruct (SingleFileUploader.afterChecksum _ _ _ _ _ _ _ _).
Qed.

Lemma handle_cases :
  (exists e, handle = ([], Throw e)) \/
  (exists checksum, handle = afterChecksum checksum).
Proof.
  destruct (Utils.isFileTypeDisallowed node filePath) eqn:Hallowed.
  - left. unfold handleSingleFileUpload. rewrite Hallowed. eexists. reflexivity.
  - destruct (createReadStream node filePath) as [e|bytes] eqn:Hread.
    + left. unfold handleSingleFileUpload. rewrite Hallowed.
      rewrite try_catch_rethrow. unfold Utils.calculateSHA256Checksum. rewrite Hread.
      eexists. reflexivity.
    + right. exists (sha256_base64 node bytes).
      exact (handle_after_checksum bytes Hallowed Hread).
Qed.


(** The authorization request of the single-unit transfer when it always fails. *)
Lemma single_request_exhausted (err : Z -> Error) bytes :
  0 <= retry_attempts config ->
  Utils.isFileTypeDisallowed node filePath = false ->
  createReadStream node filePath = inr bytes ->
  (forall k payload, 0 <= k -> getPresignedUrlSingle apiClient k payload = inl (err k)) ->
  exists tr,
    handle = (tr, Throw ("Failed to get presigned URL after "
                         +++ string_of_Z (retry_attempts config + 1)
                         +++ " attempts: " +++ err (retry_attempts config))) /\
    steps tr = backoffSchedule (Z.to_nat (retry_attempts config + 1)) 0.
Proof.
  intros HN Hallowed Hread Hfail.
  rewrite (handle_after_checksum bytes Hallowed Hread). unfold SingleFileUploader.afterChecksum. cbv zeta.
  set (payload := initiatePayload _ _ _ _ _ _).
  destruct (requestUrlLoop_exhausted err payload (fun k => Hfail k payload)
              (Z.to_nat (retry_attempts config + 1)) 0) as (tr & Hloop & Hst);
    [lia | lia | lia |].
  rewrite Hloop. cbn [bind]. eauto.
Qed.
End WithEnvironment.

End SingleFileFacts.

(** ** Retry, results and storage status of the two transfers *)

Module TransferClaims.
Import Trace PartRecord RunFacts MultipartUploader SingleFileUploader.
Import PartUploadFacts SessionFacts SingleFileFacts MultipartClaims.

(** C3, as the code has it.  With [retry_attempts = N >= 0], a retried
    operation that fails at every attempt is attempted exactly [N + 1]
    times, attempts [0] to [N], and the wait after failed attempt [i < N] is
    [2 ^ i] seconds.  What the caller gets differs between the two retried
    operations.  The part operation (request a URL, PUT the part) raises
    nothing: it returns [null] and leaves the error of the last attempt in
    the [error] field of the part record.  The authorization request of the
    single-unit transfer raises a new error, whose message is "Failed to get
    presigned URL after N+1 attempts: " followed by the message of the last
    attempt's error. *)
Theorem retry_exhaustion (node : Node) (apiClient : ApiClient) (config : Config) :
  0 <= retry_attempts config ->
  (forall s3UploadId backendS3Key collection mimeType pt bytes (err : Z -> Error),
      data pt = Some bytes ->
      truthy (checksumSHA256 pt) = true ->
      error pt = None ->
      (forall k, 0 <= k ->
         outcome (partAttempt apiClient s3UploadId backendS3Key collection mimeType pt k)
         = Throw (err k)) ->
      exists pt' tr,
        _uploadSinglePartWithRetryJS_MPU node apiClient config
          s3UploadId backendS3Key collection mimeType pt = (pt', (tr, Return None)) /\
        steps tr = backoffSchedule (Z.to_nat (retry_attempts config + 1)) 0 /\
        Z.of_nat (List.length (attempts tr)) = retry_attempts config + 1 /\
        error pt' = Some (err (retry_attempts config)) /\
        retries pt' = retry_attempts config) /\
  (forall filePath fileSize collection targetSubPath bytes (err : Z -> Error),
      Utils.isFileTypeDisallowed node filePath = false ->
      createReadStream node filePath = inr bytes ->
      (forall k payload, 0 <= k -> getPresignedUrlSingle apiClient k payload = inl (err k)) ->
      exists tr,
        handleSingleFileUpload node apiClient config filePath fileSize collection targetSubPath
        = (tr, Throw ("Failed to get presigned URL after "
                      +++ string_of_Z (retry_attempts config + 1)
                      +++ " attempts: " +++ err (retry_attempts config))) /\
        steps tr = backoffSchedule (Z.to_nat (retry_attempts config + 1)) 0 /\
        Z.of_nat (List.length (attempts tr)) = retry_attempts config + 1).
Proof.
  intros HN. split.
  - intros s3UploadId backendS3Key collection mimeType pt bytes err Hdata Hsum Herr Hfail.
    destruct (partRetryLoop_exhausted apiClient config s3UploadId backendS3Key collection
                mimeType err (Z.to_nat (retry_attempts config + 1)) 0 pt Hfail)
      as (pt' & tr & Hloop & He & Hr & _ & Hst); [lia | lia | lia |].
    exists pt', tr. unfold _uploadSinglePartWithRetryJS_MPU.
    rewrite Hdata, Hsum, Herr, Hloop.
    repeat split; try assumption.
    unfold attempts. rewrite Hst, backoffSchedule_length. lia.
  - intros filePath fileSize collection targetSubPath bytes err Hallowed Hread Hfail.
    destruct (single_request_exhausted node apiClient config filePath fileSize collection
                targetSubPath err bytes HN Hallowed Hread Hfail) as (tr & Hrun & Hst).
    exists tr. repeat split; try assumption.
    unfold attempts. rewrite Hst, backoffSchedule_length. lia.
Qed.

(** The retried operations against a backend that refuses everything, one
    retry allowed. *)
Lemma retry_exhaustion_witness :
  0 <= retry_attempts Scenario.retryOnce /\
  (exists pt' tr,
      _uploadSinglePartWithRetryJS_MPU Scenario.node0 Scenario.backendDown Scenario.retryOnce
        "upload-1" "incoming/abc.bin" "coll" "application/octet-stream" Scenario.part1
      = (pt', (tr, Return None)) /\
      steps tr = [Attempt 0; Wait 1000; Attempt 1] /\
      Z.of_nat (List.length (attempts tr)) = 2 /\
      error pt' = Some "boom" /\
      retries pt' = 1) /\
  (exists tr,
      handleSingleFileUpload Scenario.node0 Scenario.backendDown Scenario.retryOnce
        "/data/abc.bin" 3 "coll" None
      = (tr, Throw "Failed to get presigned URL after 2 attempts: boom") /\
      steps tr = [Attempt 0; Wait 1000; Attempt 1] /\
      Z.of_nat (List.length (attempts tr)) = 2).
Proof.
  split; [cbn; lia|].
  destruct (retry_exhaustion Scenario.node0 Scenario.backendDown Scenario.retryOnce
              ltac:(cbn; lia)) as [Hpart Hsingle].
  split.
  - exact (Hpart "upload-1" "incoming/abc.bin" "coll" "application/octet-stream"
             Scenario.part1 Scenario.abc (fun _ => "boom")
             eq_refl eq_refl eq_refl (fun k _ => eq_refl)).
  - exact (Hsingle "/data/abc.bin" 3 "coll" None Scenario.abc (fun _ => "boom")
             eq_refl eq_refl (fun k payload _ => eq_refl)).
Defined.

(** Against a backend on which every attempt fails with "boom", the caller
    of neither retried operation receives that error: the part operation
    returns [null], the single-unit transfer raises another message. *)
Lemma retry_error_not_received :
  (forall k payload, getPresignedUrlForPart Scenario.backendDown k payload = inl "boom") /\
  (forall k payload, getPresignedUrlSingle Scenario.backendDown k payload = inl "boom") /\
  outcome (snd (_uploadSinglePartWithRetryJS_MPU Scenario.node0 Scenario.backendDown
                  Scenario.retryOnce "upload-1" "incoming/abc.bin" "coll"
                  "application/octet-stream" Scenario.part1))
  <> Throw "boom" /\
  outcome (handleSingleFileUpload Scenario.node0 Scenario.backendDown Scenario.retryOnce
             "/data/abc.bin" 3 "coll" None)
  <> Throw "boom".
Proof.
  split; [reflexivity|]. split; [reflexivity|].
  split; vm_compute; discriminate.
Qed.




End TransferClaims.

(** ** Concrete runs *)

Module Runs.
Import Trace PartRecord RunFacts MultipartUploader SingleFileUploader.
Import SessionFacts MultipartClaims TransferClaims.

(** The three-byte file against a backend that hands out no part URL: the
    part record ends without ETag, "complete" is not called, "abort" is
    called once. *)
Lemma complete_only_with_all_etags_witness :
  prepareSession Scenario.node0 Scenario.backendNoPartUrl Scenario.retryOnce
    "/data/abc.bin" 3 "coll" None
  = ([StartMultipartUpload
        (startPayload "coll" None "abc.bin" "application/octet-stream"
           "ungWv48Bz+pBQUDeXa4iI7ADYaOWF3qctBD/YfIAFa0=")],
     Return Scenario.session1) /\
  Exists (fun pt => truthy (etag pt) = false)
    (settledParts Scenario.node0 Scenario.backendNoPartUrl Scenario.retryOnce "coll"
       Scenario.session1) /\
  count isComplete
    (calls (handleMultipartUpload Scenario.node0 Scenario.backendNoPartUrl Scenario.retryOnce
              "/data/abc.bin" 3 "coll" None)) = O /\
  count isAbort
    (calls (handleMultipartUpload Scenario.node0 Scenario.backendNoPartUrl Scenario.retryOnce
              "/data/abc.bin" 3 "coll" None)) = 1%nat.
Proof.
  assert (Hp : prepareSession Scenario.node0 Scenario.backendNoPartUrl Scenario.retryOnce
                 "/data/abc.bin" 3 "coll" None
               = ([StartMultipartUpload
                     (startPayload "coll" None "abc.bin" "application/octet-stream"
                        "ungWv48Bz+pBQUDeXa4iI7ADYaOWF3qctBD/YfIAFa0=")],
                  Return Scenario.session1)) by reflexivity.
  assert (Hlack : Exists (fun pt => truthy (etag pt) = false)
                    (settledParts Scenario.node0 Scenario.backendNoPartUrl Scenario.retryOnce
                       "coll" Scenario.session1)).
  { apply Exists_cons_hd. reflexivity. }
  split; [exact Hp|]. split; [exact Hlack|].
  exact (proj2 (complete_only_with_all_etags Scenario.node0 Scenario.backendNoPartUrl
                  Scenario.retryOnce "/data/abc.bin" 3 "coll" None) _ _ Hp Hlack).
Defined.


(** The same, when no part URL is handed out and the abort fails: the error
    raised names the failed part. *)
Example abort_failure_after_failed_part :
  outcome (handleMultipartUpload Scenario.node0 Scenario.backendNoPartUrl Scenario.retryOnce
             "/data/abc.bin" 3 "coll" None)
  = Throw "One or more parts failed. Failed parts: 1".
Proof. reflexivity. Qed.

(** The part record of the three-byte file still holds the three bytes
    after its upload. *)
Lemma part_buffers_stay_loaded_witness :
  Forall holds_buffer
    (settledParts Scenario.node0 Scenario.backendUp Scenario.retryOnce "coll"
       Scenario.session1).
Proof.
  exact (part_buffers_stay_loaded Scenario.node0 Scenario.backendUp Scenario.retryOnce
           "/data/abc.bin" 3 "coll" None
           [StartMultipartUpload
              (startPayload "coll" None "abc.bin" "application/octet-stream"
                 "ungWv48Bz+pBQUDeXa4iI7ADYaOWF3qctBD/YfIAFa0=")]
           Scenario.session1 eq_refl).
Defined.

(** The buffer is not released: after a part upload that succeeded, and
    after one that used up its attempts, the record's [data] is still the
    buffer read for it. *)
Lemma buffer_not_released :
  let uploaded :=
    _uploadSinglePartWithRetryJS_MPU Scenario.node0 Scenario.backendUp Scenario.retryOnce
      "upload-1" "incoming/abc.bin" "coll" "application/octet-stream" Scenario.part1 in
  let exhausted :=
    _uploadSinglePartWithRetryJS_MPU Scenario.node0 Scenario.backendDown Scenario.retryOnce
      "upload-1" "incoming/abc.bin" "coll" "application/octet-stream" Scenario.part1 in
  (etag (fst uploaded) = Some "etag-1" /\ data (fst uploaded) <> None) /\
  (error (fst exhausted) = Some "boom" /\ data (fst exhausted) <> None).
Proof. cbv zeta. repeat split; vm_compute; discriminate. Qed.


End Runs.

(** ** The directory scanner *)

Module StringFacts.
Import NodePath Tree.






Section Platform.
Variable sep : ascii.
Hypothesis sep_is_separator : sep = slash \/ sep = backslash.



Variable root : string.
Hypothesis root_not_empty : root <> EmptyString.



End Platform.

End StringFacts.

Module ScannerFacts.
Import NodePath FolderProcessor Tree StringFacts.

Section Scanner.
Variables (sep : ascii) (node : Node).
Variable isPathIgnored : string -> string -> list string -> bool.
Variables (root : string) (ignorePatterns : list string).
Hypothesis sep_is_separator : sep = slash \/ sep = backslash.
Hypothesis root_not_empty : root <> EmptyString.

Local Abbreviation scanOne := (scanItem sep node isPathIgnored root ignorePatterns).
Local Abbreviation scanAll := (scanItems sep node isPathIgnored root ignorePatterns).

(** The recursive call of line 18 is the loop over the sub-directory. *)
Lemma scanItem_dir folderPath name items :
scanOne folderPath (DirEntry name (inr items))
= if isPathIgnored (path_join sep folderPath name) root ignorePatterns
  then Return no_files
  else scanAll (path_join sep folderPath name) items no_files.
Proof.
cbn [scanItem entry_name].
destruct (isPathIgnored _ _ _); [reflexivity|].
generalize no_files.
induction items as [|x items IH]; intros acc; [reflexivity|].
cbn [scanItems]. destruct (scanOne _ x); [reflexivity|]. apply IH.
Qed.


End Scanner.


End ScannerFacts.

Module ScannerRuns.
Import NodePath FolderProcessor Tree ScannerFacts.

Example scan_on_windows :
  scanFolderForUpload backslash Scenario.node0 Scenario.nothingIgnored "D:" [] "D:"
    (inr Scenario.tree1)
  = Return Scenario.windowsScan.
Proof. reflexivity. Qed.

Example scan_on_posix :
  match scanFolderForUpload slash Scenario.node0 Scenario.nothingIgnored "/data" [] "/data"
          (inr Scenario.tree1) with
  | Return scanned =>
      map (fun t => (localPath t, relativePath t)) (filesToUpload scanned)
      = [("/data/sub/a.txt", "sub/a.txt"); ("/data/b.txt", "b.txt")]
  | Throw _ => False
  end.
Proof. reflexivity. Qed.


End ScannerRuns.

(** ** The choice of the transfer, and the folder's result *)

Module FolderClaims.
Import Trace Bookkeeping RunFacts FolderProcessor Index.

Lemma exceeds_true size bytes : exceeds size bytes = true <-> (bytes < inject_Z size)%Q.
Proof.
  unfold exceeds. rewrite negb_true_iff. split.
  - intros H. apply Qnot_le_lt. intros Hle. apply Qle_bool_iff in Hle. congruence.
  - intros H. destruct (Qle_bool (inject_Z size) bytes) eqn:E; [|reflexivity].
    apply Qle_bool_iff in E. exfalso. exact (Qlt_not_le _ _ H E).
Qed.

Lemma exceeds_false size bytes : exceeds size bytes = false <-> (inject_Z size <= bytes)%Q.
Proof.
  unfold exceeds. rewrite negb_false_iff. apply Qle_bool_iff.
Qed.

(** C4.  A regular file handed to [upload], and every file the folder
    orchestrator starts, is transferred by the single-unit transfer when its
    size is at most [multipart_threshold_gb * 1024^3] bytes, a size equal to
    the threshold included, and by the multipart transfer when its size is
    larger. *)
Theorem transfer_chosen_by_threshold (sep : ascii) (node : Node) (apiClient : ApiClient)
        (config : Config) (isPathIgnored : string -> string -> list string -> bool)
        (settlesNext : list nat -> nat) :
  let threshold := (multipart_threshold_gb config * inject_Z (1024 ^ 3))%Q in
  (forall absoluteSourcePath fileSize collection targetPath,
      Utils.isFileTypeDisallowed node absoluteSourcePath = false ->
      ((inject_Z fileSize <= threshold)%Q ->
       upload sep node apiClient config isPathIgnored settlesNext absoluteSourcePath
         (inr (RegularFile fileSize)) collection targetPath
       = Some (map_run FileOutput
                 (SingleFileUploader.handleSingleFileUpload node apiClient config
                    absoluteSourcePath fileSize collection targetPath))) /\
      ((threshold < inject_Z fileSize)%Q ->
       upload sep node apiClient config isPathIgnored settlesNext absoluteSourcePath
         (inr (RegularFile fileSize)) collection targetPath
       = Some (map_run FileOutput
                 (MultipartUploader.handleMultipartUpload node apiClient config
                    absoluteSourcePath fileSize collection targetPath)))) /\
  (forall singleUploadHandlerLib multiUploadHandlerLib collection targetSubPath
          partConcurrency fileTask,
      let target := Some (effectiveApiTargetSubPath sep targetSubPath fileTask) in
      ((inject_Z (size fileTask) <= threshold)%Q ->
       transferFile sep config singleUploadHandlerLib multiUploadHandlerLib
         collection targetSubPath partConcurrency fileTask
       = singleUploadHandlerLib (localPath fileTask) (size fileTask) collection target) /\
      ((threshold < inject_Z (size fileTask))%Q ->
       transferFile sep config singleUploadHandlerLib multiUploadHandlerLib
         collection targetSubPath partConcurrency fileTask
       = multiUploadHandlerLib (localPath fileTask) (size fileTask) collection target
           partConcurrency)).
Proof.
  intros threshold. split.
  - intros path fileSize collection targetPath Hallowed.
    unfold upload. rewrite Hallowed. fold threshold.
    split; intros Hsize.
    + apply exceeds_false in Hsize. now rewrite Hsize.
    + apply exceeds_true in Hsize. now rewrite Hsize.
  - intros single multi collection targetSubPath partConcurrency fileTask target.
    unfold transferFile. fold threshold. fold target.
    split; intros Hsize.
    + apply exceeds_false in Hsize. now rewrite Hsize.
    + apply exceeds_true in Hsize. now rewrite Hsize.
Qed.

(** With the default threshold of 1 GB, a file of exactly 1 GiB is sent in
    one unit, a file one byte larger in parts. *)
Lemma transfer_chosen_by_threshold_witness :
  upload slash Scenario.node0 Scenario.backendUp defaultConfig Scenario.nothingIgnored
    Scenario.firstStartedFirst "/data/abc.bin" (inr (RegularFile 1073741824)) "coll" None
  = Some (map_run FileOutput
            (SingleFileUploader.handleSingleFileUpload Scenario.node0 Scenario.backendUp
               defaultConfig "/data/abc.bin" 1073741824 "coll" None)) /\
  upload slash Scenario.node0 Scenario.backendUp defaultConfig Scenario.nothingIgnored
    Scenario.firstStartedFirst "/data/abc.bin" (inr (RegularFile 1073741825)) "coll" None
  = Some (map_run FileOutput
            (MultipartUploader.handleMultipartUpload Scenario.node0 Scenario.backendUp
               defaultConfig "/data/abc.bin" 1073741825 "coll" None)).
Proof.
  split.
  - refine (proj1 (proj1 (transfer_chosen_by_threshold slash Scenario.node0 Scenario.backendUp
                            defaultConfig Scenario.nothingIgnored Scenario.firstStartedFirst)
                     "/data/abc.bin" 1073741824 "coll" None eq_refl) _).
    unfold Qle. cbn. lia.
  - refine (proj2 (proj1 (transfer_chosen_by_threshold slash Scenario.node0 Scenario.backendUp
                            defaultConfig Scenario.nothingIgnored Scenario.firstStartedFirst)
                     "/data/abc.bin" 1073741825 "coll" None eq_refl) _).
    unfold Qlt. cbn. lia.
Defined.

(** Half a GB as threshold: 536870912 bytes are sent in one unit, one byte
    more in parts. *)
Example fractional_threshold :
  let config := {| multipart_threshold_gb := (1 # 2)%Q; multipart_chunk_size_mb := 256;
                   retry_attempts := 3; file_concurrency := 4; part_concurrency := 4;
                   user_ignored_patterns := [] |} in
  exceeds 536870912 (multipart_threshold_gb config * inject_Z (1024 ^ 3))%Q = false /\
  exceeds 536870913 (multipart_threshold_gb config * inject_Z (1024 ^ 3))%Q = true.
Proof. split; reflexivity. Qed.

Section Orchestrator.
Variables (sep : ascii) (config : Config).
Variable singleUploadHandlerLib : string -> Z -> string -> option string -> Run UploadResult.
Variable multiUploadHandlerLib :
string -> Z -> string -> option string -> Z -> Run UploadResult.
Variable settlesNext : list nat -> nat.
Variables (collection : string) (targetSubPath : option string)
        (fileConcurrency : JSNumber) (partConcurrency : Z).
Variable files : list FileTask.

Local Abbreviation schedule :=
(scheduleNextFileInFolder fileConcurrency files).
Local Abbreviation settle :=
(settleFile sep config singleUploadHandlerLib multiUploadHandlerLib collection
   targetSubPath fileConcurrency partConcurrency files).
Local Abbreviation awaitAll :=
(awaitAllFiles sep config singleUploadHandlerLib multiUploadHandlerLib settlesNext
   collection targetSubPath fileConcurrency partConcurrency files).

Lemma schedule_keeps_tally : forall fuel st, tally st -> tally (schedule fuel st).
Proof.
induction fuel as [|fuel IH]; intros st Hst; cbn [scheduleNextFileInFolder]; [exact Hst|].
destruct (_ && _); [|exact Hst]. apply IH. exact Hst.
Qed.

Lemma settle_keeps_tally st k : tally st -> tally (settle st k).
Proof.
intros [Hpos Hok]. unfold settleFile.
destruct (nth_error files k) as [fileTask|]; [|now split].
destruct (transferFile _ _ _ _ _ _ _ _) as [tr [e|result]];
  apply schedule_keeps_tally; split; cbn [failedUploads results]; try lia.
- intros Hzero. apply Forall_app. split; [now apply Hok|].
  repeat constructor.
Qed.

Lemma awaitAll_keeps_tally : forall fuel st st',
tally st -> awaitAll fuel st = Some st' -> tally st'.
Proof.
induction fuel as [|fuel IH]; intros st st' Hst H; cbn [awaitAllFiles] in H.
- destruct (activeFileUploads st); [|discriminate].
  destruct (_ =? _)%nat; [now inversion H; subst | discriminate].
- destruct (activeFileUploads st) as [|first others].
  + destruct (_ =? _)%nat; [now inversion H; subst | discriminate].
  + eapply IH; [|exact H]. now apply settle_keeps_tally.
Qed.

(** The folder call returns its list of results only when no file failed:
  a summary that is returned counts no failure and lists successes only,
  and a call that fails carries the number of failures in its message,
  and nothing else. *)
Lemma folder_summary_lists_no_failure run :
uploadScannedFiles sep config singleUploadHandlerLib multiUploadHandlerLib settlesNext
  collection targetSubPath fileConcurrency partConcurrency files = Some run ->
match outcome run with
| Return summary =>
    summary_failedUploads summary = 0 /\
    Forall (fun entry => status (entry_task entry) = success) (summary_results summary)
| Throw e =>
    exists failures, 0 < failures /\
      e = string_of_Z failures +++ " file(s) failed to upload during folder processing."
end.
Proof.
unfold uploadScannedFiles. destruct (_ =? _)%nat.
- intros H. inversion H; subst. cbn. split; [reflexivity | constructor].
- destruct (awaitAll _ _) as [st|] eqn:E; [|discriminate].
  intros H. inversion H; subst. cbn [outcome snd].
  apply awaitAll_keeps_tally in E.
  2:{ apply schedule_keeps_tally. split; cbn; [lia | constructor]. }
  destruct E as [Hpos Hok].
  destruct (Z.gtb_spec (failedUploads st) 0) as [Hgt|Hle].
  + exists (failedUploads st). split; [lia | reflexivity].
  + cbn. assert (failedUploads st = 0) by lia. split; [assumption | now apply Hok].
Qed.
(** *** The folder call settles when the file concurrency is a number
    of at least one *)

Lemma startNextFile_orderly st :
  (currentIndex st < List.length files)%nat ->
  orderly files st -> orderly files (startNextFile st).
Proof.
  intros Hlt (Hle & Hact & Hnd). repeat split; cbn [startNextFile currentIndex activeFileUploads].
  - lia.
  - intros k Hin. apply in_app_or in Hin. destruct Hin as [Hin|[<-|[]]].
    + specialize (Hact k Hin). lia.
    + lia.
  - apply NoDup_app; [exact Hnd | repeat constructor; intros [] |].
    intros k Hin [<-|[]]. specialize (Hact _ Hin). lia.
Qed.

Lemma schedule_orderly : forall fuel st,
  orderly files st -> orderly files (schedule fuel st).
Proof.
  induction fuel as [|fuel IH]; intros st Hst; cbn [scheduleNextFileInFolder]; [exact Hst|].
  destruct (_ && _) eqn:Hcond; [|exact Hst].
  apply andb_true_iff in Hcond. destruct Hcond as [_ Hlt]. apply Nat.ltb_lt in Hlt.
  apply IH. now apply startNextFile_orderly.
Qed.

Lemma schedule_unsettled : forall fuel st,
  unsettled files (schedule fuel st) = unsettled files st.
Proof.
  induction fuel as [|fuel IH]; intros st; cbn [scheduleNextFileInFolder]; [reflexivity|].
  destruct (_ && _) eqn:Hcond; [|reflexivity].
  apply andb_true_iff in Hcond. destruct Hcond as [_ Hlt]. apply Nat.ltb_lt in Hlt.
  rewrite IH. unfold unsettled. cbn [startNextFile currentIndex activeFileUploads].
  rewrite length_app. cbn [List.length]. lia.
Qed.

Section Settles.
Variable limit : Z.
Hypothesis limit_is_number : fileConcurrency = Num limit.
Hypothesis limit_positive : 1 <= limit.

(** After scheduling, no upload pending means no file left to start. *)
Lemma schedule_saturates : forall fuel st,
  (List.length files - currentIndex st <= fuel)%nat ->
  orderly files st ->
  activeFileUploads (schedule fuel st) = [] ->
  currentIndex (schedule fuel st) = List.length files.
Proof.
  induction fuel as [|fuel IH]; intros st Hfuel Hst Hempty; cbn [scheduleNextFileInFolder] in *.
  - destruct Hst as (Hle & _). lia.
  - destruct (_ && _) eqn:Hcond.
    + apply andb_true_iff in Hcond. destruct Hcond as [_ Hlt]. apply Nat.ltb_lt in Hlt.
      apply IH; [cbn [startNextFile currentIndex]; lia | | exact Hempty].
      now apply startNextFile_orderly.
    + rewrite Hempty in Hcond. rewrite limit_is_number in Hcond.
      cbn [List.length js_lt Z.of_nat] in Hcond.
      destruct (Z.ltb_spec 0 limit); [|lia]. cbn [andb] in Hcond.
      apply Nat.ltb_ge in Hcond. destruct Hst as (Hle & _). lia.
Qed.

Lemma filter_out_length (k : nat) (l : list nat) :
  NoDup l -> In k l ->
  S (List.length (filter (fun j => negb (j =? k)%nat) l)) = List.length l.
Proof.
  induction 1 as [|x l Hnotin Hnd IH]; intros Hin; [destruct Hin|].
  cbn [filter List.length].
  destruct (Nat.eqb_spec x k) as [->|Hne]; cbn [negb].
  - f_equal. clear IH Hin Hnd.
    induction l as [|y l IHl]; [reflexivity|].
    cbn [filter]. destruct (Nat.eqb_spec y k) as [->|Hy]; cbn [negb].
    + exfalso. apply Hnotin. now left.
    + cbn [List.length]. f_equal. apply IHl. intros Hin. apply Hnotin. now right.
  - cbn [List.length]. f_equal. apply IH. destruct Hin as [Hx|Hin]; [congruence | exact Hin].
Qed.

(** The settlement of a pending upload leaves one file less to settle. *)
Lemma settle_progress st k :
  orderly files st -> In k (activeFileUploads st) ->
  orderly files (settle st k) /\
  S (unsettled files (settle st k)) = unsettled files st /\
  (activeFileUploads (settle st k) = [] -> currentIndex (settle st k) = List.length files).
Proof.
  intros Hst Hin. pose proof Hst as (Hle & Hact & Hnd).
  unfold settleFile.
  destruct (nth_error files k) as [fileTask|] eqn:Hk.
  2:{ apply nth_error_None in Hk. specialize (Hact k Hin). lia. }
  assert (Hrest : forall st',
             activeFileUploads st' = filter (fun j => negb (j =? k)%nat) (activeFileUploads st) ->
             currentIndex st' = currentIndex st ->
             orderly files (schedule (List.length files) st') /\
             S (unsettled files (schedule (List.length files) st')) = unsettled files st /\
             (activeFileUploads (schedule (List.length files) st') = [] ->
              currentIndex (schedule (List.length files) st') = List.length files)).
  { intros st' Hactive Hindex.
    assert (Hst' : orderly files st').
    { repeat split.
      - rewrite Hindex. exact Hle.
      - intros j Hj. rewrite Hactive in Hj. apply filter_In in Hj. rewrite Hindex.
        apply Hact. tauto.
      - rewrite Hactive. now apply NoDup_filter. }
    split; [now apply schedule_orderly|]. split.
    - rewrite schedule_unsettled. unfold unsettled. rewrite Hactive, Hindex.
      pose proof (filter_out_length k _ Hnd Hin). lia.
    - apply schedule_saturates; [lia | exact Hst']. }
  destruct (transferFile _ _ _ _ _ _ _ _) as [tr [e|result]]; apply Hrest; reflexivity.
Qed.

Lemma awaitAll_settles : forall fuel st,
  orderly files st ->
  (activeFileUploads st = [] -> currentIndex st = List.length files) ->
  (unsettled files st <= fuel)%nat ->
  exists st', awaitAll fuel st = Some st'.
Proof.
  induction fuel as [|fuel IH]; intros st Hst Hsat Hfuel.
  - cbn [awaitAllFiles]. destruct (activeFileUploads st) as [|first others] eqn:Hactive.
    + rewrite (Hsat eq_refl), Nat.eqb_refl. eauto.
    + unfold unsettled in Hfuel. rewrite Hactive in Hfuel. cbn [List.length] in Hfuel. lia.
  - cbn [awaitAllFiles]. destruct (activeFileUploads st) as [|first others] eqn:Hactive.
    + rewrite (Hsat eq_refl), Nat.eqb_refl. eauto.
    + set (k := nth _ (first :: others) first).
      assert (Hin : In k (activeFileUploads st)).
      { rewrite Hactive. subst k. apply nth_In.
        apply Nat.mod_upper_bound. discriminate. }
      destruct (settle_progress st k Hst Hin) as (Hst' & Hm & Hsat').
      apply IH; [exact Hst' | exact Hsat' | lia].
Qed.

(** With a file concurrency of at least one, the folder call settles,
    whatever the order in which the uploads settle. *)
Lemma folder_call_settles :
  exists run,
    uploadScannedFiles sep config singleUploadHandlerLib multiUploadHandlerLib settlesNext
      collection targetSubPath fileConcurrency partConcurrency files = Some run.
Proof.
  unfold uploadScannedFiles. destruct (_ =? _)%nat; [eauto|].
  set (init := {| activeFileUploads := []; currentIndex := O; successfulUploads := 0;
                  failedUploads := 0; overallUploadedBytesInFolder := 0;
                  results := []; made := [] |}).
  assert (Hinit : orderly files init).
  { repeat split; cbn; [lia | intros k [] | constructor]. }
  destruct (awaitAll_settles (List.length files) (schedule (List.length files) init))
    as [st' Hst'].
  - now apply schedule_orderly.
  - apply schedule_saturates; [cbn; lia | exact Hinit].
  - rewrite schedule_unsettled. unfold unsettled. cbn. lia.
  - rewrite Hst'. eauto.
Qed.
End Settles.
End Orchestrator.

(** C5 on the code.  A folder that holds one file, whose transfer fails
    because the backend refuses the authorization request: the folder call
    fails with an error whose message carries the count of failures, and the
    caller gets nothing else; the list of per-file results is dropped. *)
Theorem folder_failure_drops_results :
  option_map outcome
    (processFolderUpload slash Scenario.node0 Scenario.nothingIgnored
       (doSingleUpload Scenario.node0 Scenario.backendDown Scenario.noRetry)
       (doMultipartUpload Scenario.node0 Scenario.backendDown Scenario.noRetry)
       Scenario.firstStartedFirst "/data" (inr Scenario.folder1) "coll" None
       Scenario.noRetry (Num 2) 2)
  = Some (Throw "1 file(s) failed to upload during folder processing.").
Proof. reflexivity. Qed.

(** The same folder against a backend that accepts everything: the results
    are returned. *)
Example folder_success_returns_results :
  option_map (fun run => match outcome run with
                         | Return summary =>
                             (totalFiles summary, summary_successfulUploads summary,
                              summary_failedUploads summary,
                              map (fun entry => relativePath (entry_task entry))
                                  (summary_results summary))
                         | Throw _ => (0, 0, 0, [])
                         end)
    (processFolderUpload slash Scenario.node0 Scenario.nothingIgnored
       (doSingleUpload Scenario.node0 Scenario.backendUp Scenario.noRetry)
       (doMultipartUpload Scenario.node0 Scenario.backendUp Scenario.noRetry)
       Scenario.firstStartedFirst "/data" (inr Scenario.folder1) "coll" None
       Scenario.noRetry (Num 2) 2)
  = Some (1, 1, 0, ["abc.bin"]).
Proof. reflexivity. Qed.

(** Through [upload], the file concurrency the orchestrator receives is not
    a number, no upload is started, and the call on a folder that holds a
    file never settles. *)
Example upload_of_folder_never_settles :
  upload slash Scenario.node0 Scenario.backendUp Scenario.noRetry Scenario.nothingIgnored
    Scenario.firstStartedFirst "/data" (inr (Directory (inr Scenario.folder1))) "coll" None
  = None.
Proof. reflexivity. Qed.

End FolderClaims.

(** * Further properties *)

(** ** Multipart transfer: before the parts are dispatched *)

Module MultipartStart.
Import Trace Observe PartRecord RunFacts MultipartUploader PartitionFacts SessionFacts.

Lemma over_limit_iff config fileSize :
  S3_MAX_PARTS_JS_MPU < numPartsOf config fileSize
  <-> S3_MAX_PARTS_JS_MPU * chunkSizeOf config < fileSize.
Proof.
  pose proof (chunkSizeOf_pos config) as Hc.
  pose proof (Math_ceil_div_bounds fileSize (chunkSizeOf config) Hc) as Hb.
  fold (numPartsOf config fileSize) in Hb.
  unfold S3_MAX_PARTS_JS_MPU. split; intros H; nia.
Qed.

Section WithEnvironment.
Variables (node : Node) (apiClient : ApiClient) (config : Config).
Variables (filePath : string) (fileSize : Z) (collection : string)
          (targetSubPath : option string).

Local Abbreviation prepare :=
  (prepareSession node apiClient config filePath fileSize collection targetSubPath).
Local Abbreviation handle :=
  (handleMultipartUpload node apiClient config filePath fileSize collection targetSubPath).
Local Abbreviation startRequest bytes :=
  (startPayload collection targetSubPath (path_basename node filePath)
     (Utils.getMimeType node filePath) (sha256_base64 node bytes)).

(** A file of more than 10000 chunks is refused before its checksum is
    computed and before any call is made. *)
Theorem multipart_refuses_oversized_file :
  Utils.isFileTypeDisallowed node filePath = false ->
  S3_MAX_PARTS_JS_MPU * chunkSizeOf config < fileSize ->
  handle = ([], Throw ("File requires " +++ string_of_Z (numPartsOf config fileSize)
                       +++ " parts, exceeding S3 limit.")).
Proof.
  intros Hallowed Hsize. apply over_limit_iff in Hsize.
  unfold handleMultipartUpload, prepareSession. rewrite Hallowed.
  fold (numPartsOf config fileSize).
  destruct (Z.gtb_spec (numPartsOf config fileSize) S3_MAX_PARTS_JS_MPU); [reflexivity | lia].
Qed.

(** The session when type, size and checksum are in order: what remains is
    the start call, the reading of the parts, their upload and the end of
    the session. *)
Lemma prepare_from_start bytes :
  Utils.isFileTypeDisallowed node filePath = false ->
  fileSize <= S3_MAX_PARTS_JS_MPU * chunkSizeOf config ->
  createReadStream node filePath = inr bytes ->
  prepare =
  bind (try_catch
          (bind (await (StartMultipartUpload (startRequest bytes))
                   (startMultipartUpload apiClient (startRequest bytes)))
             (fun startResponse =>
                if negb (truthy (Some (upload_id startResponse)))
                   || negb (truthy (Some (start_s3_key startResponse)))
                then throw "Backend MPU start error."
                else ret startResponse))
          (fun e => throw ("Failed to initiate MPU: " +++ e)))
    (fun started =>
       bind (if 0 <? Z.of_nat (List.length (partTasksOf config filePath fileSize))
             then prepareParts node (partTasksOf config filePath fileSize)
             else if fileSize >? 0 then throw "No parts for non-empty file."
                  else ret (partTasksOf config filePath fileSize))
         (fun prepared =>
            ret {| baseName := path_basename node filePath;
                   mimeType := Utils.getMimeType node filePath;
                   overallChecksum := sha256_base64 node bytes;
                   s3UploadId := upload_id started;
                   backendS3Key := start_s3_key started;
                   partTasks := prepared |})).
Proof.
  intros Hallowed Hsize Hread.
  assert (Hn : ~ S3_MAX_PARTS_JS_MPU < numPartsOf config fileSize).
  { rewrite over_limit_iff. lia. }
  unfold prepareSession. rewrite Hallowed.
  fold (numPartsOf config fileSize).
  destruct (Z.gtb_spec (numPartsOf config fileSize) S3_MAX_PARTS_JS_MPU); [lia|].
  unfold Utils.calculateSHA256Checksum. rewrite Hread.
  fold (partTasksOf config filePath fileSize).
  cbn [bind ret app].
  match goal with |- (let (tr', o) := ?m in (tr', o)) = _ => now destruct m end.
Qed.

(** A session that cannot be started: the transfer fails with the error of
    the start call behind "Failed to initiate MPU: ", and an answer without
    upload id or without storage key counts as such a failure.  The start
    call is the only call made. *)
Theorem multipart_start_failure bytes :
  Utils.isFileTypeDisallowed node filePath = false ->
  fileSize <= S3_MAX_PARTS_JS_MPU * chunkSizeOf config ->
  createReadStream node filePath = inr bytes ->
  (forall e,
      startMultipartUpload apiClient (startRequest bytes) = inl e ->
      handle = ([StartMultipartUpload (startRequest bytes)],
                Throw ("Failed to initiate MPU: " +++ e))) /\
  (forall answer,
      startMultipartUpload apiClient (startRequest bytes) = inr answer ->
      upload_id answer = EmptyString \/ start_s3_key answer = EmptyString ->
      handle = ([StartMultipartUpload (startRequest bytes)],
                Throw "Failed to initiate MPU: Backend MPU start error.")).
Proof.
  intros Hallowed Hsize Hread. split.
  - intros e He. unfold handleMultipartUpload.
    rewrite (prepare_from_start bytes Hallowed Hsize Hread).
    unfold await. rewrite He. reflexivity.
  - intros answer Ha Hempty. unfold handleMultipartUpload.
    rewrite (prepare_from_start bytes Hallowed Hsize Hread).
    unfold await. rewrite Ha. cbn [bind].
    assert (Hcond : (negb (truthy (Some (upload_id answer)))
                     || negb (truthy (Some (start_s3_key answer)))) = true).
    { destruct Hempty as [-> | ->]; cbn; [reflexivity | apply orb_true_r]. }
    rewrite Hcond. reflexivity.
Qed.

Lemma prepareParts_unreadable : forall pts,
  Exists (unreadable node) pts -> exists e, prepareParts node pts = ([], Throw e).
Proof.
  induction pts as [|pt rest IH]; intros Hex; [inversion Hex|].
  cbn [prepareParts]. unfold readAndChecksum.
  destruct (readAt node (Partition.filePath pt) (offset pt) (size pt)) as [e|bytes] eqn:Hread.
  - eexists. reflexivity.
  - destruct (Z.eqb_spec (Z.of_nat (List.length bytes)) (size pt)) as [Hlen|Hlen]; cbn [negb].
    + cbn [error].
      assert (Hrest : Exists (unreadable node) rest).
      { inversion Hex as [? ? Hhere|]; subst; [|assumption].
        unfold unreadable in Hhere. rewrite Hread in Hhere. contradiction. }
      destruct (error pt) eqn:Herr.
      * eexists. reflexivity.
      * destruct (IH Hrest) as [e He]. rewrite He. eexists. reflexivity.
    + eexists. reflexivity.
Qed.

(** When the session is started and a part cannot be read in full, the
    transfer fails and the start call remains its only call: the session
    the backend has opened is not aborted. *)
Theorem multipart_read_failure_leaves_session bytes answer :
  Utils.isFileTypeDisallowed node filePath = false ->
  fileSize <= S3_MAX_PARTS_JS_MPU * chunkSizeOf config ->
  createReadStream node filePath = inr bytes ->
  startMultipartUpload apiClient (startRequest bytes) = inr answer ->
  upload_id answer <> EmptyString ->
  start_s3_key answer <> EmptyString ->
  Exists (unreadable node) (partTasksOf config filePath fileSize) ->
  calls handle = [StartMultipartUpload (startRequest bytes)] /\
  count isAbort (calls handle) = O /\
  exists e, outcome handle = Throw e.
Proof.
  intros Hallowed Hsize Hread Ha Hid Hkey Hex.
  unfold handleMultipartUpload.
  rewrite (prepare_from_start bytes Hallowed Hsize Hread).
  unfold await. rewrite Ha. cbn [bind].
  assert (Hcond : (negb (truthy (Some (upload_id answer)))
                   || negb (truthy (Some (start_s3_key answer)))) = false).
  { destruct (upload_id answer); [congruence|].
    destruct (start_s3_key answer); [congruence|]. reflexivity. }
  rewrite Hcond. cbn [ret try_catch bind app].
  assert (Hlen : (0 <? Z.of_nat (List.length (partTasksOf config filePath fileSize))) = true).
  { destruct (partTasksOf config filePath fileSize); [inversion Hex|].
    cbn [List.length]. apply Z.ltb_lt. lia. }
  rewrite Hlen.
  destruct (prepareParts_unreadable _ Hex) as [e He]. rewrite He.
  cbn. repeat split. eauto.
Qed.
End WithEnvironment.

End MultipartStart.

(** ** Multipart transfer: the upload of a part *)

Module PartExtras.
Import Trace Observe PartRecord RunFacts MultipartUploader PartUploadFacts.

Lemma remove_char_no_quote (s : string) : no_quote (remove_char double_quote s) = true.
Proof.
  induction s as [|a s IH]; [reflexivity|]. cbn [remove_char].
  destruct (Ascii.eqb a double_quote) eqn:E; [exact IH|].
  cbn [no_quote]. now rewrite E, IH.
Qed.

Section WithEnvironment.
Variables (node : Node) (apiClient : ApiClient) (config : Config).
Variables (s3UploadId backendS3Key collection mimeType : string).

Local Abbreviation attemptOf :=
  (partAttempt apiClient s3UploadId backendS3Key collection mimeType).
Local Abbreviation loop :=
  (partRetryLoop apiClient config s3UploadId backendS3Key collection mimeType).
Local Abbreviation uploadOf :=
  (_uploadSinglePartWithRetryJS_MPU node apiClient config
     s3UploadId backendS3Key collection mimeType).

(** The loop when attempt [k] is the first to succeed. *)
Lemma partRetryLoop_first_success (err : Z -> Error) (k : Z) (trk : list Event) (e : string) :
  forall (d : nat) (attempt : Z) (todo : nat) (pt : UploadPartTaskJS_MPU),
    (forall j, 0 <= j < k -> outcome (attemptOf pt j) = Throw (err j)) ->
    attemptOf pt k = (trk, Return e) ->
    0 <= attempt ->
    attempt + Z.of_nat d = k ->
    k <= retry_attempts config ->
    (d < todo)%nat ->
    exists pt' tr,
      loop todo attempt pt
      = (pt', tr, Some {| PartNumber := partNumber pt; ETag := e;
                          ChecksumSHA256 := checksumSHA256 pt |}) /\
      steps tr = backoffSchedule (S d) attempt /\
      retries pt' = k /\ etag pt' = Some e /\ error pt' = error pt /\
      sameRange pt' pt.
Proof.
  induction d as [|d IH]; intros attempt todo pt Hfail Hok Hattempt Hsum Hk Htodo;
    (destruct todo as [|todo]; [lia|]); cbn [partRetryLoop].
  - assert (attempt = k) by lia. subst attempt.
    change (partAttempt apiClient s3UploadId backendS3Key collection mimeType
              (set_retries pt k) k)
      with (attemptOf pt k).
    pose proof (steps_partAttempt apiClient s3UploadId backendS3Key collection mimeType pt k)
      as Hsteps.
    rewrite Hok in *. cbn [calls fst] in Hsteps.
    eexists _, _. split; [reflexivity|].
    repeat split. exact Hsteps.
  - change (partAttempt apiClient s3UploadId backendS3Key collection mimeType
              (set_retries pt attempt) attempt)
      with (attemptOf pt attempt).
    pose proof (Hfail attempt ltac:(lia)) as Hnow.
    pose proof (steps_partAttempt apiClient s3UploadId backendS3Key collection mimeType
                  pt attempt) as Hsteps.
    destruct (attemptOf pt attempt) as [tr1 [e1|e1]]; cbn in Hnow; [|discriminate].
    cbn [calls fst] in Hsteps.
    destruct (Z.geb_spec attempt (retry_attempts config)) as [Hge|Hlt]; [lia|].
    destruct (IH (attempt + 1) todo (set_retries pt attempt))
      as (pt' & tr & Hloop & Hst & Hr & Het & Herr & Hsame);
      [exact Hfail | exact Hok | lia | lia | lia | lia |].
    rewrite Hloop. eexists _, _. split; [reflexivity|].
    repeat split; try assumption; try apply Hsame.
    rewrite steps_app, Hsteps.
    change (steps (SetTimeout (2 ^ attempt * 1000) :: tr))
      with (Wait (2 ^ attempt * 1000) :: steps tr).
    rewrite Hst. reflexivity.
Qed.

(** A part whose attempts [0] to [k - 1] fail and whose attempt [k] succeeds
    ([k] within the retry budget) is attempted exactly [k + 1] times, with
    the waits of 1, 2, ..., [2 ^ (k - 1)] seconds in between, and no more:
    the part record gets the ETag of attempt [k] and no error, and the
    operation returns the part's number, ETag and checksum. *)
Theorem part_upload_stops_at_first_success (pt : UploadPartTaskJS_MPU) (bytes : Buffer)
        (err : Z -> Error) (k : Z) (trk : list Event) (e : string) :
  data pt = Some bytes ->
  truthy (checksumSHA256 pt) = true ->
  error pt = None ->
  0 <= k <= retry_attempts config ->
  (forall j, 0 <= j < k -> outcome (attemptOf pt j) = Throw (err j)) ->
  attemptOf pt k = (trk, Return e) ->
  exists pt' tr,
    uploadOf pt
    = (pt', (tr, Return (Some {| PartNumber := partNumber pt; ETag := e;
                                 ChecksumSHA256 := checksumSHA256 pt |}))) /\
    steps tr = backoffSchedule (Z.to_nat (k + 1)) 0 /\
    retries pt' = k /\ etag pt' = Some e /\ error pt' = None /\ data pt' = Some bytes.
Proof.
  intros Hdata Hsum Herr Hk Hfail Hok.
  destruct (partRetryLoop_first_success err k trk e (Z.to_nat k) 0
              (Z.to_nat (retry_attempts config + 1)) pt Hfail Hok)
    as (pt' & tr & Hloop & Hst & Hr & Het & He & Hsame); try lia.
  exists pt', tr. unfold _uploadSinglePartWithRetryJS_MPU.
  rewrite Hdata, Hsum, Herr, Hloop.
  replace (Z.to_nat (k + 1)) with (S (Z.to_nat k)) by lia.
  repeat split; try assumption.
  - congruence.
  - destruct Hsame as (_ & _ & _ & _ & Hd & _). congruence.
Qed.

(** The ETag an attempt yields is the ETag header of the PUT's answer with
    its double quotes removed, and it is not empty. *)
Lemma partAttempt_etag_source pt k tr e :
  attemptOf pt k = (tr, Return e) ->
  e <> EmptyString /\ no_quote e = true /\
  exists url bytes response header,
    uploadPartToS3PresignedPut apiClient (PutPart (partNumber pt) k) url bytes = inr response /\
    headers_etag response = Some header /\
    e = remove_char double_quote header.
Proof.
  unfold partAttempt, await. intros H.
  destruct (getPresignedUrlForPart apiClient k _) as [e1|info]; [discriminate|].
  cbn [bind] in H.
  destruct (data pt) as [bytes|]; [|discriminate].
  destruct (uploadPartToS3PresignedPut apiClient _ _ bytes) as [e1|response] eqn:Hput;
    [discriminate|].
  cbn [bind] in H.
  destruct (headers_etag response) as [header|] eqn:Hh; cbn [option_map] in H;
    [|discriminate].
  destruct (remove_char double_quote header) as [|a rest] eqn:Hr; [discriminate|].
  cbn in H. inversion H; subst.
  split; [discriminate|]. split.
  - rewrite <- Hr. apply remove_char_no_quote.
  - exists (presigned_url info), bytes, response, header. auto.
Qed.

Lemma partRetryLoop_etag_source : forall todo attempt pt pt' tr info,
  loop todo attempt pt = (pt', tr, Some info) ->
  etag pt' = Some (ETag info) /\
  ChecksumSHA256 info = checksumSHA256 pt /\
  PartNumber info = partNumber pt /\
  ETag info <> EmptyString /\ no_quote (ETag info) = true /\
  exists k url bytes response header,
    uploadPartToS3PresignedPut apiClient (PutPart (partNumber pt) k) url bytes = inr response /\
    headers_etag response = Some header /\
    ETag info = remove_char double_quote header.
Proof.
  induction todo as [|todo IH]; intros attempt pt pt' tr info H; cbn [partRetryLoop] in H.
  - discriminate.
  - destruct (partAttempt _ _ _ _ _ _ _) as [tr1 [err|e]] eqn:Ea.
    + destruct (attempt >=? retry_attempts config); [discriminate|].
      destruct (partRetryLoop _ _ _ _ _ _ todo _ _) as [[pt1 tr2] r1] eqn:E.
      inversion H; subst. apply IH in E. exact E.
    + apply partAttempt_etag_source in Ea.
      destruct Ea as (Hne & Hq & url & bytes & response & header & Hput & Hh & He).
      inversion H; subst. cbn.
      repeat split; try assumption.
      exists attempt, url, bytes, response, header. auto.
Qed.

(** Whenever the upload of a part returns a value, the ETag in it, which is
    also the one stored in the part record, is the ETag header of a PUT
    answer for that part with its double quotes removed, and is not
    empty; the part number is the record's. *)
Theorem part_etag_comes_from_storage (pt pt' : UploadPartTaskJS_MPU) (tr : list Event)
        (info : PartInfo) :
  uploadOf pt = (pt', (tr, Return (Some info))) ->
  PartNumber info = partNumber pt /\
  etag pt' = Some (ETag info) /\
  ChecksumSHA256 info = checksumSHA256 pt' /\
  ETag info <> EmptyString /\ no_quote (ETag info) = true /\
  exists k url bytes response header,
    uploadPartToS3PresignedPut apiClient (PutPart (partNumber pt) k) url bytes = inr response /\
    headers_etag response = Some header /\
    ETag info = remove_char double_quote header.
Proof.
  unfold _uploadSinglePartWithRetryJS_MPU. intros H.
  destruct (match data pt, truthy (checksumSHA256 pt) with
            | Some _, true => (pt, Return tt)
            | _, _ => readAndChecksum node pt
            end) as [pt1 o1] eqn:Hprep.
  assert (Hnum : partNumber pt1 = partNumber pt).
  { destruct (data pt); [destruct (truthy (checksumSHA256 pt))|].
    - now inversion Hprep.
    - now apply readAndChecksum_frame in Hprep.
    - now apply readAndChecksum_frame in Hprep. }
  destruct o1 as [e|[]]; [inversion H|].
  destruct (error pt1); [inversion H|].
  destruct (partRetryLoop _ _ _ _ _ _ _ _ _) as [[pt2 tr2] r2] eqn:E.
  inversion H; subst.
  pose proof (partRetryLoop_frame _ _ _ _ _ _ _ _ _ _ _ _ E) as Hsame.
  apply partRetryLoop_etag_source in E.
  destruct E as (He & Hc & Hn & Hne & Hq & k & url & bytes & response & header & Hput & Hh & Hx).
  rewrite Hnum in *.
  repeat split; try assumption.
  - destruct Hsame as (_ & _ & _ & _ & _ & Hcs). congruence.
  - exists k, url, bytes, response, header. auto.
Qed.

(** The retry loop asks for at most as many URLs as it has rounds, and
    PUTs at most as often as it asks. *)
Lemma partAttempt_counts pt k :
  count isPartUrlRequest (calls (attemptOf pt k)) = 1%nat /\
  (count isPartPut (calls (attemptOf pt k)) <= 1)%nat.
Proof.
  unfold partAttempt, await.
  destruct (getPresignedUrlForPart apiClient k _) as [e|info]; [cbn; lia|].
  cbn [bind].
  destruct (data pt) as [bytes|]; [|cbn; lia].
  destruct (uploadPartToS3PresignedPut apiClient _ _ bytes) as [e|response]; [cbn; lia|].
  cbn [bind]. destruct (option_map _ _) as [[|a rest]|]; cbn; lia.
Qed.

Lemma partRetryLoop_counts : forall todo attempt pt pt' tr r,
  loop todo attempt pt = (pt', tr, r) ->
  (count isPartUrlRequest tr <= todo)%nat /\
  (count isPartPut tr <= count isPartUrlRequest tr)%nat.
Proof.
  induction todo as [|todo IH]; intros attempt pt pt' tr r H; cbn [partRetryLoop] in H.
  - inversion H; subst. cbn. lia.
  - pose proof (partAttempt_counts (set_retries pt attempt) attempt) as [Hu Hp].
    destruct (partAttempt _ _ _ _ _ _ _) as [tr1 [err|e]]; cbn [calls fst] in Hu, Hp.
    + destruct (attempt >=? retry_attempts config).
      * inversion H; subst. lia.
      * destruct (partRetryLoop _ _ _ _ _ _ todo _ _) as [[pt1 tr2] r1] eqn:E.
        inversion H; subst. apply IH in E. destruct E as [E1 E2].
        rewrite !count_app.
        change (count isPartUrlRequest (SetTimeout (2 ^ attempt * 1000) :: tr2))
          with (count isPartUrlRequest tr2).
        change (count isPartPut (SetTimeout (2 ^ attempt * 1000) :: tr2))
          with (count isPartPut tr2).
        lia.
    + inversion H; subst. lia.
Qed.

Lemma upload_counts pt :
  (count isPartUrlRequest (calls (snd (uploadOf pt)))
   <= Z.to_nat (retry_attempts config + 1))%nat /\
  (count isPartPut (calls (snd (uploadOf pt)))
   <= count isPartUrlRequest (calls (snd (uploadOf pt))))%nat.
Proof.
  unfold _uploadSinglePartWithRetryJS_MPU.
  destruct (match data pt, truthy (checksumSHA256 pt) with
            | Some _, true => (pt, Return tt)
            | _, _ => readAndChecksum node pt
            end) as [pt1 [e|[]]]; [cbn; lia|].
  destruct (error pt1); [cbn; lia|].
  destruct (partRetryLoop _ _ _ _ _ _ _ _ _) as [[pt2 tr2] r2] eqn:E.
  cbn [snd calls fst]. eapply partRetryLoop_counts. exact E.
Qed.
End WithEnvironment.

End PartExtras.

(** ** Multipart transfer: the session as a whole *)

Module SessionExtras.
Import Trace Observe PartRecord RunFacts MultipartUploader PartitionFacts.
Import PartUploadFacts SessionFacts PartExtras MultipartStart.

Lemma numbered_partTasksOf config path fileSize :
  numbered_from 1 (partTasksOf config path fileSize).
Proof.
  pose proof (chunkSizeOf_pos config) as Hc.
  pose proof (Math_ceil_div_bounds fileSize (chunkSizeOf config) Hc) as Hb.
  unfold partTasksOf, makePartTasks, numPartsOf.
  destruct (Z.ltb_spec 0 (Math_ceil_div fileSize (chunkSizeOf config))) as [Hpos|_];
    [|exact I].
  pose proof (partLoop_layout (chunkSizeOf config) fileSize path Hc
                (Z.to_nat (Math_ceil_div fileSize (chunkSizeOf config))) 0 ltac:(lia)) as H.
  cbv zeta in H. rewrite Z2Nat.id in H by lia.
  destruct H as (_ & Hnum & _); [lia | exact Hnum].
Qed.

Lemma numbered_from_seq : forall l (k : nat),
  numbered_from (Z.of_nat k) l ->
  map partNumber l = map Z.of_nat (seq k (List.length l)).
Proof.
  induction l as [|p rest IH]; intros k H; [reflexivity|].
  destruct H as [Hp Hrest]. cbn [map List.length seq]. f_equal; [exact Hp|].
  apply IH. replace (Z.of_nat (S k)) with (Z.of_nat k + 1) by lia. exact Hrest.
Qed.

(** Sorting a list whose part numbers already count up changes nothing. *)
Lemma sortByPartNumber_ascending : forall l (k : nat),
  map PartNumber l = map Z.of_nat (seq k (List.length l)) ->
  sortByPartNumber l = l.
Proof.
  induction l as [|p rest IH]; intros k H; [reflexivity|].
  cbn [map List.length seq] in H. injection H as Hp Hrest.
  unfold sortByPartNumber. cbn [fold_right]. fold (sortByPartNumber rest).
  rewrite (IH (S k) Hrest).
  destruct rest as [|q rest']; [reflexivity|].
  cbn [map List.length seq] in Hrest. injection Hrest as Hq _.
  cbn [insertByPartNumber].
  destruct (Z.leb_spec (PartNumber p - PartNumber q) 0); [reflexivity | lia].
Qed.

Section WithEnvironment.
Variables (node : Node) (apiClient : ApiClient) (config : Config).
Variables (filePath : string) (fileSize : Z) (collection : string)
          (targetSubPath : option string).

Local Abbreviation prepare :=
  (prepareSession node apiClient config filePath fileSize collection targetSubPath).
Local Abbreviation settled := (settledParts node apiClient config collection).
Local Abbreviation uploaded := (uploadedPartsInfo node apiClient config collection).
Local Abbreviation incomplete := (partSetIncomplete node apiClient config collection).
Local Abbreviation finish :=
  (finishSession node apiClient config fileSize collection targetSubPath).
Local Abbreviation handle :=
  (handleMultipartUpload node apiClient config filePath fileSize collection targetSubPath).

Section Values.
Variables (id key mime : string).

Local Abbreviation uploadOf :=
  (_uploadSinglePartWithRetryJS_MPU node apiClient config id key collection mime).
Local Abbreviation valuesOf pts :=
  (flat_map (fun st : UploadPartTaskJS_MPU * Run (option PartInfo) =>
               match outcome (snd st) with
               | Return (Some value) => [value]
               | _ => []
               end)
            (map uploadOf pts)).

Lemma values_le pts : (List.length (valuesOf pts) <= List.length pts)%nat.
Proof.
  induction pts as [|pt rest IH]; [apply le_n|].
  cbn [map flat_map List.length]. rewrite length_app.
  destruct (outcome (snd (uploadOf pt))) as [e|[v|]]; cbn [List.length]; lia.
Qed.

(** When every part promise yields a value, the values follow the part
    records in number, ETag and checksum. *)
Lemma values_full : forall pts,
  List.length (valuesOf pts) = List.length pts ->
  map PartNumber (valuesOf pts) = map partNumber pts /\
  map (fun v => Some (ETag v)) (valuesOf pts) = map etag (map fst (map uploadOf pts)) /\
  map ChecksumSHA256 (valuesOf pts) = map checksumSHA256 (map fst (map uploadOf pts)).
Proof.
  induction pts as [|pt rest IH]; intros Hlen; [repeat split|].
  pose proof (values_le rest) as Hle.
  cbn [map flat_map List.length] in *. rewrite length_app in Hlen.
  destruct (uploadOf pt) as [pt' [tr [e|[v|]]]] eqn:E; cbn [outcome snd fst List.length] in *;
    try lia.
  destruct (IH ltac:(lia)) as (Hn & He & Hc).
  apply part_etag_comes_from_storage in E.
  destruct E as (En & Ee & Ec & _).
  cbn [app map]. rewrite Hn, He, Hc, En, Ee, Ec. repeat split.
Qed.

Lemma count_url_requests : forall pts,
  (count isPartUrlRequest (flat_map (fun st => calls (snd st)) (map uploadOf pts))
   <= List.length pts * Z.to_nat (retry_attempts config + 1))%nat /\
  (count isPartPut (flat_map (fun st => calls (snd st)) (map uploadOf pts))
   <= count isPartUrlRequest (flat_map (fun st => calls (snd st)) (map uploadOf pts)))%nat.
Proof.
  induction pts as [|pt rest IH]; [cbn; lia|].
  cbn [map flat_map List.length]. rewrite !count_app.
  pose proof (upload_counts node apiClient config id key collection mime pt) as [H1 H2].
  destruct IH as [IH1 IH2]. lia.
Qed.
End Values.

Lemma prepared_numbers tr0 s :
  prepare = (tr0, Return s) ->
  map partNumber (partTasks s)
  = map Z.of_nat (seq 1 (List.length (partTasksOf config filePath fileSize))) /\
  List.length (partTasks s) = List.length (partTasksOf config filePath fileSize).
Proof.
  intros Hp. apply prepare_return in Hp. destruct Hp as (_ & _ & _ & _ & Hmap).
  assert (Hnum : map partNumber (partTasks s)
                 = map partNumber (partTasksOf config filePath fileSize)).
  { apply (f_equal (map (fun t : Z * Z * Z => fst (fst t)))) in Hmap.
    rewrite !map_map in Hmap. exact Hmap. }
  split.
  - rewrite Hnum. apply (numbered_from_seq _ 1%nat). apply numbered_partTasksOf.
  - apply (f_equal (@List.length _)) in Hnum. now rewrite !length_map in Hnum.
Qed.

(** When every part has been uploaded, the part list sent with the
    completion request has one entry per part of the file, in the order of
    the parts, numbered 1, 2, ... and carrying the ETag and the checksum of
    the part's record; the sort before the request changes nothing, the
    values being collected in the order of the parts.  The completion
    request follows the part calls directly. *)
Theorem completion_lists_parts_in_order (tr0 : list Event) (s : Session) :
  prepare = (tr0, Return s) ->
  incomplete s = false ->
  let sent := sortByPartNumber (uploaded s) in
  sent = uploaded s /\
  map PartNumber sent
  = map Z.of_nat (seq 1 (List.length (partTasksOf config filePath fileSize))) /\
  map (fun v => Some (ETag v)) sent = map etag (settled s) /\
  map ChecksumSHA256 sent = map checksumSHA256 (settled s) /\
  exists rest,
    calls handle
    = tr0 ++ partCalls node apiClient config collection s
          ++ CompleteMultipartUpload (completePayload fileSize collection targetSubPath s sent)
          :: rest.
Proof.
  intros Hp Hinc sent.
  destruct (prepared_numbers tr0 s Hp) as [Hnum Hlen].
  assert (Hfull : List.length (uploaded s) = List.length (partTasks s)).
  { unfold partSetIncomplete in Hinc. apply andb_false_iff in Hinc.
    destruct Hinc as [H|H].
    - apply Z.ltb_ge in H.
      unfold uploadedPartsInfo, uploadParts.
      destruct (partTasks s); [reflexivity | cbn [List.length] in H; lia].
    - apply negb_false_iff, Z.eqb_eq in H. lia. }
  destruct (values_full (s3UploadId s) (backendS3Key s) (mimeType s) (partTasks s) Hfull)
    as (Hn & He & Hc).
  fold (uploadParts node apiClient config collection s) in Hn, He, Hc.
  fold (uploaded s) in Hn, He, Hc.
  fold (settled s) in He, Hc.
  assert (Hsort : sent = uploaded s).
  { subst sent. apply (sortByPartNumber_ascending _ 1%nat).
    rewrite Hn, Hnum, Hfull, Hlen. reflexivity. }
  rewrite Hsort. repeat split.
  - rewrite Hn. exact Hnum.
  - exact He.
  - exact Hc.
  - rewrite (handle_after_prepare _ _ _ _ _ _ _ tr0 s Hp). cbn [calls fst].
    subst sent. rewrite <- Hsort.
    destruct (completeMultipartUpload apiClient
                (completePayload fileSize collection targetSubPath s
                   (sortByPartNumber (uploaded s)))) as [e|resp] eqn:Ec.
    + rewrite (finish_complete_fails _ _ _ _ _ _ s e Hinc Ec). eexists. reflexivity.
    + rewrite (finish_complete_ok _ _ _ _ _ _ s resp Hinc Ec). eexists. reflexivity.
Qed.

Lemma prepare_calls_short : (List.length (calls prepare) <= 1)%nat.
Proof.
  unfold prepareSession.
  destruct (Utils.isFileTypeDisallowed node filePath); [cbn; lia|].
  destruct (_ >? S3_MAX_PARTS_JS_MPU); [cbn; lia|].
  unfold Utils.calculateSHA256Checksum.
  destruct (createReadStream node filePath) as [e|bytes]; [cbn; lia|].
  rewrite calls_bind. cbn [ret outcome calls fst snd app].
  rewrite calls_bind, calls_try_catch, outcome_try_catch, calls_bind, outcome_bind.
  cbn [await outcome calls fst snd].
  destruct (startMultipartUpload apiClient _) as [e|resp]; [cbn; lia|].
  destruct (_ || _); cbn [throw ret outcome calls fst snd app List.length]; [lia|].
  rewrite calls_bind.
  destruct (0 <? _).
  - rewrite prepareParts_calls.
    destruct (outcome (prepareParts node _)); cbn [ret calls fst app List.length]; lia.
  - destruct (fileSize >? 0); cbn; lia.
Qed.

Lemma count_le_length kind tr : (count kind tr <= List.length tr)%nat.
Proof. unfold count. apply filter_length_le. Qed.

Lemma finish_counts s :
  count startCall (calls (finish s)) = O /\
  count isPartUrlRequest (calls (finish s)) = O /\
  count isPartPut (calls (finish s)) = O /\
  (count isComplete (calls (finish s)) <= 1)%nat /\
  (count isAbort (calls (finish s)) <= 1)%nat.
Proof.
  destruct (incomplete s) eqn:Hinc.
  - rewrite (finish_incomplete _ _ _ _ _ _ s Hinc). cbn. lia.
  - destruct (completeMultipartUpload apiClient
                (completePayload fileSize collection targetSubPath s
                   (sortByPartNumber (uploaded s)))) as [e|resp] eqn:Ec.
    + rewrite (finish_complete_fails _ _ _ _ _ _ s e Hinc Ec). cbn. lia.
    + rewrite (finish_complete_ok _ _ _ _ _ _ s resp Hinc Ec). cbn. lia.
Qed.

(** The calls of one multipart transfer are bounded: at most one start,
    one completion and one abort request; for each part of the file at most
    [retry_attempts + 1] requests for a URL; and never more PUTs than URLs
    obtained. *)
Theorem multipart_call_budget :
  (count startCall (calls handle) <= 1)%nat /\
  (count isComplete (calls handle) <= 1)%nat /\
  (count isAbort (calls handle) <= 1)%nat /\
  (count isPartUrlRequest (calls handle)
   <= List.length (partTasksOf config filePath fileSize)
      * Z.to_nat (retry_attempts config + 1))%nat /\
  (count isPartPut (calls handle) <= count isPartUrlRequest (calls handle))%nat.
Proof.
  pose proof prepare_calls_short as Hshort.
  pose proof (only_prepare node apiClient config filePath fileSize collection targetSubPath)
    as Honly.
  assert (H0 : count isComplete (calls prepare) = O /\ count isAbort (calls prepare) = O /\
               count isPartUrlRequest (calls prepare) = O /\
               count isPartPut (calls prepare) = O).
  { repeat split; eapply count_only_zero; try exact Honly; now intros []. }
  destruct H0 as (Hc0 & Ha0 & Hu0 & Hp0).
  pose proof (count_le_length startCall (calls prepare)) as Hs0.
  destruct prepare as [tr0 [e|s]] eqn:Hp.
  - rewrite (handle_prepare_throws _ _ _ _ _ _ _ tr0 e Hp).
    cbn [calls fst] in *. lia.
  - rewrite (handle_after_prepare _ _ _ _ _ _ _ tr0 s Hp).
    cbn [calls fst] in *. rewrite !count_app.
    destruct (prepared_numbers tr0 s Hp) as [_ Hlen].
    pose proof (only_partCalls node apiClient config collection s) as Hparts.
    assert (Hz : count startCall (partCalls node apiClient config collection s) = O /\
                 count isComplete (partCalls node apiClient config collection s) = O /\
                 count isAbort (partCalls node apiClient config collection s) = O).
    { repeat split; eapply count_only_zero; try exact Hparts; now intros []. }
    destruct Hz as (Hz1 & Hz2 & Hz3).
    pose proof (count_url_requests (s3UploadId s) (backendS3Key s) (mimeType s) (partTasks s))
      as [Hu Hput].
    fold (uploadParts node apiClient config collection s) in Hu, Hput.
    fold (partCalls node apiClient config collection s) in Hu, Hput.
    rewrite Hlen in Hu.
    destruct (finish_counts s) as (Hf1 & Hf2 & Hf3 & Hf4 & Hf5).
    lia.
Qed.
End WithEnvironment.

Section EmptyFile.
Variables (node : Node) (apiClient : ApiClient) (config : Config).
Variables (filePath : string) (collection : string) (targetSubPath : option string).

Local Abbreviation handle :=
  (handleMultipartUpload node apiClient config filePath 0 collection targetSubPath).

Lemma partTasksOf_empty : partTasksOf config filePath 0 = [].
Proof.
  unfold partTasksOf, makePartTasks, numPartsOf, Math_ceil_div.
  cbn [Z.opp]. rewrite Z.div_0_l; [reflexivity|].
  pose proof (chunkSizeOf_pos config). lia.
Qed.

(** An empty file makes a session without parts: after the start request
    the completion request follows at once, with an empty part list, and
    its answer decides the transfer; if it fails the session is aborted. *)
Theorem multipart_empty_file (bytes : Buffer) (answer : StartResponse) :
  Utils.isFileTypeDisallowed node filePath = false ->
  createReadStream node filePath = inr bytes ->
  let request :=
    startPayload collection targetSubPath (path_basename node filePath)
      (Utils.getMimeType node filePath) (sha256_base64 node bytes) in
  startMultipartUpload apiClient request = inr answer ->
  upload_id answer <> EmptyString ->
  start_s3_key answer <> EmptyString ->
  let s := {| baseName := path_basename node filePath;
              mimeType := Utils.getMimeType node filePath;
              overallChecksum := sha256_base64 node bytes;
              s3UploadId := upload_id answer;
              backendS3Key := start_s3_key answer;
              partTasks := [] |} in
  let completion := completePayload 0 collection targetSubPath s [] in
  (forall resp,
      completeMultipartUpload apiClient completion = inr resp ->
      handle = ([StartMultipartUpload request; CompleteMultipartUpload completion],
                Return {| file := path_basename node filePath; result_status := success;
                          result_s3_key := start_s3_key answer;
                          location := Location resp |})) /\
  (forall e,
      completeMultipartUpload apiClient completion = inl e ->
      handle = ([StartMultipartUpload request; CompleteMultipartUpload completion;
                 AbortMultipartUpload (abortPayload collection s)],
                Throw ("Failed to complete MPU with backend: " +++ e))).
Proof.
  intros Hallowed Hread request Hstart Hid Hkey s completion.
  assert (Hsize : 0 <= S3_MAX_PARTS_JS_MPU * chunkSizeOf config).
  { pose proof (chunkSizeOf_pos config). unfold S3_MAX_PARTS_JS_MPU. lia. }
  assert (Hp : prepareSession node apiClient config filePath 0 collection targetSubPath
               = ([StartMultipartUpload request], Return s)).
  { rewrite (prepare_from_start node apiClient config filePath 0 collection targetSubPath
               bytes Hallowed Hsize Hread).
    fold request. unfold await. rewrite Hstart. cbn [bind].
    assert (Hcond : (negb (truthy (Some (upload_id answer)))
                     || negb (truthy (Some (start_s3_key answer)))) = false).
    { destruct (upload_id answer); [congruence|].
      destruct (start_s3_key answer); [congruence|]. reflexivity. }
    rewrite Hcond, partTasksOf_empty. reflexivity. }
  assert (Hinc : partSetIncomplete node apiClient config collection s = false) by reflexivity.
  split.
  - intros resp Hc.
    rewrite (handle_after_prepare _ _ _ _ _ _ _ _ s Hp).
    rewrite (finish_complete_ok _ _ _ _ _ _ s resp Hinc Hc). reflexivity.
  - intros e Hc.
    rewrite (handle_after_prepare _ _ _ _ _ _ _ _ s Hp).
    rewrite (finish_complete_fails _ _ _ _ _ _ s e Hinc Hc). reflexivity.
Qed.
End EmptyFile.

End SessionExtras.

(** ** Single-unit transfer: further properties *)

Module SingleExtras.
Import Trace Observe RunFacts MultipartUploader SingleFileUploader.
Import PartitionFacts SingleFileFacts MultipartStart.

Section WithEnvironment.
Variables (node : Node) (apiClient : ApiClient) (config : Config).
Variables (filePath : string) (fileSize : Z) (collection : string)
          (targetSubPath : option string).

Local Abbreviation requestLoop := (requestUrlLoop apiClient config).
Local Abbreviation single :=
  (handleSingleFileUpload node apiClient config filePath fileSize collection targetSubPath).
Local Abbreviation multipart :=
  (handleMultipartUpload node apiClient config filePath fileSize collection targetSubPath).
Local Abbreviation afterChecksum :=
  (SingleFileUploader.afterChecksum node apiClient config filePath fileSize collection
     targetSubPath).
Local Abbreviation write info :=
  (storageWrite node apiClient filePath info (path_basename node filePath)
     (Utils.getMimeType node filePath)).

(** Neither transfer contacts the backend or the storage service for a
    file it will not send: a file of a disallowed type is refused with
    "Disallowed file type: " and its extension, and a file whose content
    cannot be read for the checksum with "Checksum calculation failed for ",
    the path and the error of the read; in both cases no call is made. *)
Theorem transfers_refuse_without_call :
  (Utils.isFileTypeDisallowed node filePath = true ->
   single = ([], Throw ("Disallowed file type: " +++ path_extname node filePath)) /\
   multipart = ([], Throw ("Disallowed file type: " +++ path_extname node filePath))) /\
  (forall e,
     Utils.isFileTypeDisallowed node filePath = false ->
     createReadStream node filePath = inl e ->
     single = ([], Throw ("Checksum calculation failed for " +++ filePath +++ ": " +++ e)) /\
     (fileSize <= S3_MAX_PARTS_JS_MPU * chunkSizeOf config ->
      multipart
      = ([], Throw ("Checksum calculation failed for " +++ filePath +++ ": " +++ e)))).
Proof.
  split.
  - intros H. unfold handleSingleFileUpload, handleMultipartUpload, prepareSession.
    rewrite H. split; reflexivity.
  - intros e Hallowed Hread. split.
    + unfold handleSingleFileUpload. rewrite Hallowed, try_catch_rethrow.
      unfold Utils.calculateSHA256Checksum. rewrite Hread. reflexivity.
    + intros Hsize.
      assert (Hn : ~ S3_MAX_PARTS_JS_MPU < numPartsOf config fileSize).
      { rewrite over_limit_iff. lia. }
      unfold handleMultipartUpload, prepareSession. rewrite Hallowed.
      fold (numPartsOf config fileSize).
      destruct (Z.gtb_spec (numPartsOf config fileSize) S3_MAX_PARTS_JS_MPU); [lia|].
      unfold Utils.calculateSHA256Checksum. rewrite Hread. reflexivity.
Qed.

(** The request loop when request [k] is the first to be answered. *)
Lemma requestUrlLoop_first_success (err : Z -> Error) (k : Z) (payload : JSON)
      (info : PresignedInfo) :
  (forall j, 0 <= j < k -> getPresignedUrlSingle apiClient j payload = inl (err j)) ->
  getPresignedUrlSingle apiClient k payload = inr info ->
  k <= retry_attempts config ->
  forall (d : nat) (attempt : Z) (todo : nat),
    0 <= attempt ->
    attempt + Z.of_nat d = k ->
    (d < todo)%nat ->
    exists tr,
      requestLoop todo attempt payload = (tr, Return (Some info)) /\
      steps tr = backoffSchedule (S d) attempt.
Proof.
  intros Hfail Hok Hk.
  induction d as [|d IH]; intros attempt todo Hattempt Hsum Htodo;
    (destruct todo as [|todo]; [lia|]); cbn [requestUrlLoop]; unfold await.
  - assert (attempt = k) by lia. subst attempt. rewrite Hok.
    eexists. split; reflexivity.
  - rewrite (Hfail attempt) by lia. cbn [bind try_catch].
    destruct (Z.geb_spec attempt (retry_attempts config)) as [Hge|Hlt]; [lia|].
    destruct (IH (attempt + 1) todo) as (tr & Hloop & Hst); [lia | lia | lia |].
    rewrite Hloop. cbn [bind]. eexists. split; [reflexivity|].
    cbn [app].
    change (steps (GetPresignedUrlSingle attempt payload
                     :: SetTimeout (2 ^ attempt * 1000) :: tr))
      with (Attempt attempt :: Wait (2 ^ attempt * 1000) :: steps tr).
    rewrite Hst. reflexivity.
Qed.

(** What follows the authorization: one storage write and, if it succeeded,
    one confirmation; no request for a URL and no wait. *)
Lemma after_authorization info (checksum : string) :
  let rest :=
    bind (write info)
      (fun s3ETag =>
         bind (await (ConfirmSingleUpload
                        (confirmPayload fileSize collection targetSubPath info
                           (path_basename node filePath) checksum
                           (Utils.getMimeType node filePath) s3ETag))
                     (confirmSingleUpload apiClient
                        (confirmPayload fileSize collection targetSubPath info
                           (path_basename node filePath) checksum
                           (Utils.getMimeType node filePath) s3ETag)))
           (fun _ => ret {| file := path_basename node filePath; result_status := success;
                            result_s3_key := s3_key info; location := None |})) in
  steps (calls rest) = [] /\
  count isUrlRequest (calls rest) = O /\
  (count isStorageWrite (calls rest) <= 1)%nat /\
  (count isConfirm (calls rest) <= count isStorageWrite (calls rest))%nat.
Proof.
  cbv zeta. unfold storageWrite, uploadByPost, uploadByPut, await, lift.
  destruct (fields info) as [formFields|].
  - destruct (uploadToS3PresignedPost apiClient _ _ _ _ _) as [e|response];
      [cbn; repeat split; lia|].
    cbn [bind]. destruct (status response =? 204); cbn [bind ret throw app];
      [|cbn; repeat split; lia].
    destruct (confirmSingleUpload apiClient _) as [e|[]]; cbn; repeat split; lia.
  - destruct (readFile node filePath) as [e|fileData]; [cbn; repeat split; lia|].
    cbn [bind app].
    destruct (uploadPartToS3PresignedPut apiClient _ _ _) as [e|response];
      [cbn; repeat split; lia|].
    cbn [bind]. destruct (status response =? 200); cbn [bind ret throw app];
      [|cbn; repeat split; lia].
    destruct (confirmSingleUpload apiClient _) as [e|[]]; cbn; repeat split; lia.
Qed.

(** When the authorization requests [0] to [k - 1] fail and request [k],
    within the retry budget, is answered, the transfer makes exactly these
    [k + 1] requests, with waits of 1, 2, ..., [2 ^ (k - 1)] seconds between
    them, and nothing after the authorization is retried or waited for. *)
Theorem single_authorized_after_retries (bytes : Buffer) (err : Z -> Error) (k : Z)
        (info : PresignedInfo) :
  let payload :=
    initiatePayload fileSize collection targetSubPath (path_basename node filePath)
      (sha256_base64 node bytes) (Utils.getMimeType node filePath) in
  Utils.isFileTypeDisallowed node filePath = false ->
  createReadStream node filePath = inr bytes ->
  0 <= k <= retry_attempts config ->
  (forall j, 0 <= j < k -> getPresignedUrlSingle apiClient j payload = inl (err j)) ->
  getPresignedUrlSingle apiClient k payload = inr info ->
  steps (calls single) = backoffSchedule (Z.to_nat (k + 1)) 0 /\
  exists tr rest,
    calls single = tr ++ rest /\
    requestLoop (Z.to_nat (retry_attempts config + 1)) 0 payload
    = (tr, Return (Some info)) /\
    (count isStorageWrite rest <= 1)%nat /\
    (count isConfirm rest <= count isStorageWrite rest)%nat.
Proof.
  intros payload Hallowed Hread Hk Hfail Hok.
  destruct (requestUrlLoop_first_success err k payload info Hfail Hok (proj2 Hk)
              (Z.to_nat k) 0 (Z.to_nat (retry_attempts config + 1)))
    as (tr & Hloop & Hst); try lia.
  rewrite (handle_after_checksum node apiClient config filePath fileSize collection
             targetSubPath bytes Hallowed Hread).
  unfold SingleFileUploader.afterChecksum. cbv zeta. fold payload.
  rewrite calls_bind, Hloop. cbn [outcome calls fst snd].
  destruct (after_authorization info (sha256_base64 node bytes)) as (Hs & _ & Hw & Hc).
  split.
  - rewrite steps_app, Hs, app_nil_r, Hst.
    replace (Z.to_nat (k + 1)) with (S (Z.to_nat k)) by lia. reflexivity.
  - eexists tr, _. split; [reflexivity|]. split; [reflexivity|]. split; assumption.
Qed.

Lemma requestUrlLoop_count : forall todo attempt payload,
  (count isUrlRequest (calls (requestLoop todo attempt payload)) <= todo)%nat.
Proof.
  induction todo as [|todo IH]; intros attempt payload; cbn [requestUrlLoop];
    [cbn; lia|].
  unfold await.
  destruct (getPresignedUrlSingle apiClient attempt payload) as [e|info];
    cbn [bind try_catch ret app]; [|cbn; lia].
  destruct (attempt >=? retry_attempts config); [cbn; lia|].
  specialize (IH (attempt + 1) payload).
  destruct (requestLoop todo (attempt + 1) payload) as [tr o]. cbn [bind calls fst] in *.
  destruct o; cbn [calls fst app]; cbn; unfold count in IH; lia.
Qed.

(** The calls of one single-unit transfer are bounded: at most
    [retry_attempts + 1] requests for an authorization, at most one storage
    write, whatever its result, and at most one confirmation, which is sent
    only after a storage write. *)
Theorem single_call_budget :
  (count isUrlRequest (calls single) <= Z.to_nat (retry_attempts config + 1))%nat /\
  (count isStorageWrite (calls single) <= 1)%nat /\
  (count isConfirm (calls single) <= count isStorageWrite (calls single))%nat.
Proof.
  destruct (handle_cases node apiClient config filePath fileSize collection targetSubPath)
    as [[e He]|[checksum Hc]].
  { rewrite He. cbn. lia. }
  rewrite Hc. unfold SingleFileUploader.afterChecksum. cbv zeta.
  set (payload := initiatePayload _ _ _ _ _ _).
  pose proof (only_requestUrlLoop apiClient config
                (Z.to_nat (retry_attempts config + 1)) 0 payload) as Honly.
  pose proof (requestUrlLoop_count (Z.to_nat (retry_attempts config + 1)) 0 payload) as Hn.
  assert (Hz : count isStorageWrite
                 (calls (requestLoop (Z.to_nat (retry_attempts config + 1)) 0 payload)) = O /\
               count isConfirm
                 (calls (requestLoop (Z.to_nat (retry_attempts config + 1)) 0 payload)) = O).
  { split; eapply count_only_zero; try exact Honly; now intros []. }
  destruct Hz as [Hz1 Hz2].
  rewrite calls_bind.
  destruct (requestLoop _ 0 payload) as [tr [e|[info|]]]; cbn [outcome calls fst snd] in *.
  - lia.
  - destruct (after_authorization info checksum) as (_ & Hu & Hw & Hcf).
    rewrite !count_app. lia.
  - cbn [throw app]. rewrite app_nil_r. lia.
Qed.
End WithEnvironment.

End SingleExtras.

(** ** The directory scanner: what it finds and when it fails *)

Module ScanExtras.
Import NodePath FolderProcessor Tree Scanned ScannerFacts.

Section Scanner.
Variables (sep : ascii) (node : Node).
Variable isPathIgnored : string -> string -> list string -> bool.
Variables (root : string) (ignorePatterns : list string).

Local Abbreviation scanOne := (scanItem sep node isPathIgnored root ignorePatterns).
Local Abbreviation scanAll := (scanItems sep node isPathIgnored root ignorePatterns).
Local Abbreviation isEligible := (eligible sep node isPathIgnored root ignorePatterns).
Local Abbreviation isBroken := (broken sep node isPathIgnored root ignorePatterns).

(** What one round of the loop does for an entry. *)
Local Abbreviation item_spec folderPath item :=
  (match scanOne folderPath item with
   | Return found =>
       (forall t, In t (filesToUpload found) <-> isEligible folderPath item t) /\
       (forall e, ~ isBroken folderPath item e) /\
       totalSize found = sizeOfAll (filesToUpload found)
   | Throw e => isBroken folderPath item e
   end).

Lemma sizeOfAll_app a b : sizeOfAll (a ++ b) = sizeOfAll a + sizeOfAll b.
Proof.
  unfold sizeOfAll. induction a as [|t a IH]; cbn [app fold_right]; [lia|].
  rewrite IH. lia.
Qed.

Lemma scanItems_spec folderPath : forall items acc,
  Forall (fun item => item_spec folderPath item) items ->
  match scanAll folderPath items acc with
  | Return res =>
      (forall t, In t (filesToUpload res)
                 <-> In t (filesToUpload acc)
                     \/ exists item, In item items /\ isEligible folderPath item t) /\
      (forall item e, In item items -> ~ isBroken folderPath item e) /\
      totalSize res - sizeOfAll (filesToUpload res)
      = totalSize acc - sizeOfAll (filesToUpload acc)
  | Throw e => exists item, In item items /\ isBroken folderPath item e
  end.
Proof.
  induction items as [|x items IH]; intros acc Hall; cbn [scanItems].
  - repeat split.
    + intros H. now left.
    + intros [H|(item & [] & _)]. exact H.
    + intros item e [].
  - inversion Hall as [|? ? Hx Hrest]; subst. cbv beta in Hx.
    destruct (scanOne folderPath x) as [e|found].
    + exists x. split; [now left | exact Hx].
    + destruct Hx as (Hfound & Hsound & Hsum).
      specialize (IH (add_files acc found) Hrest).
      destruct (scanAll folderPath items (add_files acc found)) as [e|res].
      * destruct IH as (item & Hin & Hb). exists item. split; [now right | exact Hb].
      * destruct IH as (Hres & Hnone & Htotal). repeat split.
        -- intros Ht. apply Hres in Ht. cbn [add_files filesToUpload] in Ht.
           destruct Ht as [Ht|(item & Hin & He)].
           ++ apply in_app_or in Ht. destruct Ht as [Ht|Ht]; [now left|].
              right. exists x. split; [now left | now apply Hfound].
           ++ right. exists item. split; [now right | exact He].
        -- intros Ht. apply Hres. cbn [add_files filesToUpload].
           destruct Ht as [Ht|(item & [<-|Hin] & He)].
           ++ left. apply in_or_app. now left.
           ++ left. apply in_or_app. right. now apply Hfound.
           ++ right. exists item. now split.
        -- intros item e [<-|Hin]; [apply Hsound | now apply Hnone].
        -- rewrite Htotal. cbn [add_files filesToUpload totalSize].
           rewrite sizeOfAll_app. lia.
Qed.

Lemma scanItem_spec : forall item folderPath, item_spec folderPath item.
Proof.
  induction item as [name stat_size|name error|name items IH|name] using Entry_tree_ind;
    intros folderPath.
  - cbn [scanItem entry_name].
    destruct (isPathIgnored _ _ _) eqn:Hig.
    { repeat split.
      - intros [].
      - intros H. inversion H; subst. congruence.
      - intros e H. inversion H; subst. congruence. }
    destruct (Utils.isFileTypeDisallowed node _) eqn:Hdis.
    { repeat split.
      - intros [].
      - intros H. inversion H; subst. congruence.
      - intros e H. inversion H; subst. congruence. }
    destruct stat_size as [e|n]; cbn [getFileSize].
    + now constructor.
    + repeat split.
      * intros [<-|[]]. now constructor.
      * intros H. inversion H; subst. now left.
      * intros e H. inversion H.
      * cbn. lia.
  - cbn [scanItem entry_name].
    destruct (isPathIgnored _ _ _) eqn:Hig.
    + repeat split.
      * intros [].
      * intros H. inversion H.
      * intros e H. inversion H; subst. congruence.
    + now constructor.
  - rewrite scanItem_dir.
    destruct (isPathIgnored _ _ _) eqn:Hig.
    { repeat split.
      - intros [].
      - intros H. inversion H; subst. congruence.
      - intros e H. inversion H; subst. congruence. }
    assert (Hall : Forall (fun item => item_spec (path_join sep folderPath name) item) items).
    { eapply Forall_impl; [|exact IH]. intros child Hchild. apply Hchild. }
    pose proof (scanItems_spec (path_join sep folderPath name) items no_files Hall) as Hspec.
    destruct (scanAll _ items no_files) as [e|res].
    + destruct Hspec as (child & Hin & Hb). econstructor; eassumption.
    + destruct Hspec as (Hres & Hnone & Htotal). repeat split.
      * intros Ht. apply Hres in Ht. destruct Ht as [[]|(child & Hin & He)].
        econstructor; eassumption.
      * intros Ht. apply Hres. right. inversion Ht; subst. eauto.
      * intros e H. inversion H; subst. eapply Hnone; eassumption.
      * cbn in Htotal. lia.
  - cbn [scanItem entry_name].
    assert (Hnone : (forall t, In t (filesToUpload no_files)
                               <-> isEligible folderPath (OtherEntry name) t) /\
                    (forall e, ~ isBroken folderPath (OtherEntry name) e) /\
                    totalSize no_files = sizeOfAll (filesToUpload no_files)).
    { repeat split.
      - intros [].
      - intros H. inversion H.
      - intros e H. inversion H. }
    destruct (isPathIgnored _ _ _); exact Hnone.
Qed.

Lemma scan_spec items :
  match scanAll root items no_files with
  | Return res =>
      (forall t, In t (filesToUpload res)
                 <-> exists item, In item items /\ isEligible root item t) /\
      (forall item e, In item items -> ~ isBroken root item e) /\
      totalSize res = sizeOfAll (filesToUpload res)
  | Throw e => exists item, In item items /\ isBroken root item e
  end.
Proof.
  pose proof (scanItems_spec root items no_files) as H.
  destruct (scanAll root items no_files) as [e|res].
  - apply H. apply Forall_forall. intros item _. apply scanItem_spec.
  - destruct H as (Hres & Hnone & Htotal).
    { apply Forall_forall. intros item _. apply scanItem_spec. }
    repeat split.
    + intros Ht. apply Hres in Ht. destruct Ht as [[]|Ht]. exact Ht.
    + intros Ht. apply Hres. now right.
    + exact Hnone.
    + cbn in Htotal. lia.
Qed.
End Scanner.

(** A scan that returns lists exactly the eligible files of the tree: the
    regular files of an allowed type that are not ignored and lie in no
    ignored directory, each with its path, its relative path and the size
    [stat] reports.  Entries that are neither file nor directory, and
    everything below an ignored directory, are left out. *)
Theorem scan_finds_the_eligible_files (sep : ascii) (node : Node)
        (isPathIgnored : string -> string -> list string -> bool)
        (root : string) (ignorePatterns : list string) (items : list Entry)
        (scanned : ScanResult) :
  scanFolderForUpload sep node isPathIgnored root ignorePatterns root (inr items)
  = Return scanned ->
  forall t,
    In t (filesToUpload scanned)
    <-> exists item,
          In item items /\ eligible sep node isPathIgnored root ignorePatterns root item t.
Proof.
  intros H. cbn [scanFolderForUpload] in H.
  pose proof (scan_spec sep node isPathIgnored root ignorePatterns items) as Hspec.
  rewrite H in Hspec. apply Hspec.
Qed.

(** The total size a scan reports is the sum of the sizes of the files it
    lists. *)
Theorem scan_total_is_sum_of_sizes (sep : ascii) (node : Node)
        (isPathIgnored : string -> string -> list string -> bool)
        (root : string) (ignorePatterns : list string) (items : list Entry)
        (scanned : ScanResult) :
  scanFolderForUpload sep node isPathIgnored root ignorePatterns root (inr items)
  = Return scanned ->
  totalSize scanned = sizeOfAll (filesToUpload scanned).
Proof.
  intros H. cbn [scanFolderForUpload] in H.
  pose proof (scan_spec sep node isPathIgnored root ignorePatterns items) as Hspec.
  rewrite H in Hspec. apply Hspec.
Qed.

(** The scan is all or nothing.  It fails exactly when, outside the ignored
    directories, some directory cannot be listed or some file of an allowed
    type has no readable size; the error is then the one of such an entry
    (for a file, behind "Could not get size of file "), and the files found
    elsewhere are not reported. *)
Theorem scan_fails_on_a_broken_entry (sep : ascii) (node : Node)
        (isPathIgnored : string -> string -> list string -> bool)
        (root : string) (ignorePatterns : list string) (items : list Entry) :
  let scan :=
    scanFolderForUpload sep node isPathIgnored root ignorePatterns root (inr items) in
  (forall e, scan = Throw e ->
             exists item,
               In item items /\ broken sep node isPathIgnored root ignorePatterns root item e) /\
  (forall item e,
      In item items -> broken sep node isPathIgnored root ignorePatterns root item e ->
      exists e', scan = Throw e').
Proof.
  cbv zeta. cbn [scanFolderForUpload].
  pose proof (scan_spec sep node isPathIgnored root ignorePatterns items) as Hspec.
  destruct (scanItems sep node isPathIgnored root ignorePatterns root items no_files)
    as [e0|res].
  - split.
    + intros e He. inversion He; subst. exact Hspec.
    + intros item e _ _. eauto.
  - split.
    + intros e He. discriminate.
    + intros item e Hin Hb. destruct Hspec as (_ & Hnone & _).
      exfalso. exact (Hnone item e Hin Hb).
Qed.

End ScanExtras.

(** ** The folder orchestrator: further properties *)

Module FolderExtras.
Import Trace Bookkeeping RunFacts NodePath FolderProcessor Index Progress Results.
Import Tree StringFacts FolderClaims.

Section Orchestrator.
Variables (sep : ascii) (config : Config).
Variable singleUploadHandlerLib : string -> Z -> string -> option string -> Run UploadResult.
Variable multiUploadHandlerLib :
  string -> Z -> string -> option string -> Z -> Run UploadResult.
Variable settlesNext : list nat -> nat.
Variables (collection : string) (targetSubPath : option string)
          (fileConcurrency : JSNumber) (partConcurrency : Z).
Variable files : list FileTask.

Local Abbreviation schedule :=
  (scheduleNextFileInFolder fileConcurrency files).
Local Abbreviation settle :=
  (settleFile sep config singleUploadHandlerLib multiUploadHandlerLib collection
     targetSubPath fileConcurrency partConcurrency files).
Local Abbreviation awaitAll :=
  (awaitAllFiles sep config singleUploadHandlerLib multiUploadHandlerLib settlesNext
     collection targetSubPath fileConcurrency partConcurrency files).
Local Abbreviation reached :=
  (Reached sep config singleUploadHandlerLib multiUploadHandlerLib collection
     targetSubPath fileConcurrency partConcurrency files).
Local Abbreviation within st :=
  (match fileConcurrency with
   | Num n => Z.of_nat (List.length (activeFileUploads st)) <= Z.max 0 n
   | NaN => activeFileUploads st = []
   end).

Lemma schedule_within : forall fuel st, within st -> within (schedule fuel st).
Proof.
  induction fuel as [|fuel IH]; intros st Hst; cbn [scheduleNextFileInFolder]; [exact Hst|].
  destruct (_ && _) eqn:Hcond; [|exact Hst].
  apply andb_true_iff in Hcond. destruct Hcond as [Hlt _].
  apply IH. destruct fileConcurrency as [n|]; [|discriminate].
  cbn [js_lt] in Hlt. apply Z.ltb_lt in Hlt.
  cbn [startNextFile activeFileUploads]. rewrite length_app. cbn [List.length]. lia.
Qed.

Lemma filter_length_within (k : nat) st :
  within st ->
  match fileConcurrency with
  | Num n =>
      Z.of_nat (List.length (filter (fun j => negb (j =? k)%nat) (activeFileUploads st)))
      <= Z.max 0 n
  | NaN => filter (fun j => negb (j =? k)%nat) (activeFileUploads st) = []
  end.
Proof.
  destruct fileConcurrency as [n|].
  - pose proof (filter_length_le (fun j => negb (j =? k)%nat) (activeFileUploads st)). lia.
  - intros ->. reflexivity.
Qed.

Lemma settle_within st k : within st -> within (settle st k).
Proof.
  intros Hst. unfold settleFile.
  destruct (nth_error files k) as [fileTask|]; [|exact Hst].
  pose proof (filter_length_within k st Hst) as Hf.
  destruct (transferFile _ _ _ _ _ _ _ _) as [tr [e|result]];
    apply schedule_within; exact Hf.
Qed.

(** At every point of the run, the number of pending uploads is at most
    the file concurrency (and zero when that is not a positive number),
    whatever the order in which the uploads settle. *)
Theorem folder_concurrency_bound (st : Folder) :
  reached st ->
  match fileConcurrency with
  | Num n => Z.of_nat (List.length (activeFileUploads st)) <= Z.max 0 n
  | NaN => activeFileUploads st = []
  end.
Proof.
  induction 1 as [|st k _ IH _].
  - apply schedule_within. unfold initial. cbn [activeFileUploads].
    destruct fileConcurrency; [cbn; lia | reflexivity].
  - now apply settle_within.
Qed.

Lemma schedule_frame : forall fuel st,
  successfulUploads (schedule fuel st) = successfulUploads st /\
  failedUploads (schedule fuel st) = failedUploads st /\
  results (schedule fuel st) = results st.
Proof.
  induction fuel as [|fuel IH]; intros st; cbn [scheduleNextFileInFolder]; [repeat split|].
  destruct (_ && _); [|repeat split].
  destruct (IH (startNextFile st)) as (H1 & H2 & H3). rewrite H1, H2, H3. repeat split.
Qed.

Lemma schedule_counted fuel st :
  counted files st -> counted files (schedule fuel st).
Proof.
  unfold counted. destruct (schedule_frame fuel st) as (H1 & H2 & H3).
  rewrite H1, H2, H3, schedule_unsettled. tauto.
Qed.

Lemma settle_counted st k :
  orderly files st -> In k (activeFileUploads st) -> counted files st ->
  orderly files (settle st k) /\ counted files (settle st k).
Proof.
  intros Hst Hin Hc. pose proof Hst as (Hle & Hact & Hnd).
  destruct Hc as (Hs & Hf & Hsum & Hall & Hok).
  unfold settleFile.
  destruct (nth_error files k) as [fileTask|] eqn:Hk.
  2:{ apply nth_error_None in Hk. specialize (Hact k Hin). lia. }
  pose proof (filter_out_length k _ Hnd Hin) as Hlen.
  assert (Horderly : forall st',
             activeFileUploads st' = filter (fun j => negb (j =? k)%nat) (activeFileUploads st) ->
             currentIndex st' = currentIndex st -> orderly files st').
  { intros st' Hactive Hindex. repeat split.
    - rewrite Hindex. exact Hle.
    - intros j Hj. rewrite Hactive in Hj. apply filter_In in Hj. rewrite Hindex.
      apply Hact. tauto.
    - rewrite Hactive. now apply NoDup_filter. }
  destruct (transferFile _ _ _ _ _ _ _ _) as [tr [e|result]].
  - split; [apply schedule_orderly; now apply Horderly|].
    apply schedule_counted. unfold counted, unsettled in *.
    cbn [successfulUploads failedUploads results activeFileUploads currentIndex].
    rewrite length_app. cbn [List.length]. repeat split; try lia.
  - split; [apply schedule_orderly; now apply Horderly|].
    apply schedule_counted. unfold counted, unsettled in *.
    cbn [successfulUploads failedUploads results activeFileUploads currentIndex].
    rewrite length_app. cbn [List.length]. repeat split; try lia.
    intros Hzero. apply Forall_app. split; [now apply Hok|].
    constructor; [|constructor]. split; [discriminate | reflexivity].
Qed.

Lemma awaitAll_counted : forall fuel st st',
  orderly files st -> counted files st ->
  awaitAll fuel st = Some st' ->
  counted files st' /\ unsettled files st' = O.
Proof.
  assert (Hdone : forall st st',
             counted files st ->
             (if (currentIndex st =? List.length files)%nat then Some st else None) = Some st' ->
             activeFileUploads st = [] ->
             counted files st' /\ unsettled files st' = O).
  { intros st st' Hc H Hactive.
    destruct (Nat.eqb_spec (currentIndex st) (List.length files)) as [Heq|]; [|discriminate].
    inversion H; subst. split; [exact Hc|].
    unfold unsettled. rewrite Hactive, Heq. cbn. lia. }
  induction fuel as [|fuel IH]; intros st st' Hst Hc H; cbn [awaitAllFiles] in H.
  - destruct (activeFileUploads st) eqn:Hactive; [|discriminate].
    now apply (Hdone st).
  - destruct (activeFileUploads st) as [|first others] eqn:Hactive.
    + now apply (Hdone st).
    + set (k := nth _ (first :: others) first) in H.
      assert (Hin : In k (activeFileUploads st)).
      { rewrite Hactive. subst k. apply nth_In.
        apply Nat.mod_upper_bound. discriminate. }
      destruct (settle_counted st k Hst Hin Hc) as [Hst' Hc'].
      exact (IH _ _ Hst' Hc' H).
Qed.

(** What the folder call tells its caller.  A summary is returned only
    when every file was transferred: its counters say so, and [results]
    holds one entry per file, each with what the transfer resolved to.
    Otherwise the call fails, and the number in the message, the number of
    failed files, lies between one and the number of files. *)
Theorem folder_summary_counts_every_file (run : Run Summary) :
  uploadScannedFiles sep config singleUploadHandlerLib multiUploadHandlerLib settlesNext
    collection targetSubPath fileConcurrency partConcurrency files = Some run ->
  match outcome run with
  | Return summary =>
      totalFiles summary = Z.of_nat (List.length files) /\
      summary_successfulUploads summary = Z.of_nat (List.length files) /\
      summary_failedUploads summary = 0 /\
      List.length (summary_results summary) = List.length files /\
      Forall isSuccess (summary_results summary)
  | Throw e =>
      exists failures,
        0 < failures <= Z.of_nat (List.length files) /\
        e = string_of_Z failures +++ " file(s) failed to upload during folder processing."
  end.
Proof.
  unfold uploadScannedFiles.
  destruct (Nat.eqb_spec (List.length files) 0) as [Hnone|Hsome].
  - intros H. inversion H; subst. cbn. rewrite Hnone. repeat split. constructor.
  - fold (initial). destruct (awaitAll _ _) as [st|] eqn:E; [|discriminate].
    intros H. inversion H; subst. cbn [outcome snd].
    apply awaitAll_counted in E.
    + destruct E as [(Hs & Hf & Hsum & Hall & Hok) Hzero].
      destruct (Z.gtb_spec (failedUploads st) 0) as [Hgt|Hle].
      * exists (failedUploads st). split; [lia | reflexivity].
      * cbn. assert (failedUploads st = 0) by lia.
        repeat split; try lia. now apply Hok.
    + apply schedule_orderly. repeat split; cbn; [lia | intros k [] | constructor].
    + apply schedule_counted. unfold counted, unsettled, initial. cbn.
      repeat split; try lia. intros _. constructor.
Qed.

Local Abbreviation transfer :=
  (transferFile sep config singleUploadHandlerLib multiUploadHandlerLib collection
     targetSubPath partConcurrency).






(** Unless the file concurrency is a number of at least one, no upload is
    ever started, and the folder call on a non-empty list of files never
    settles. *)
Theorem folder_call_needs_positive_concurrency :
  files <> [] ->
  (forall n, fileConcurrency = Num n -> n <= 0) ->
  uploadScannedFiles sep config singleUploadHandlerLib multiUploadHandlerLib settlesNext
    collection targetSubPath fileConcurrency partConcurrency files = None.
Proof.
  intros Hfiles Hlimit. unfold uploadScannedFiles.
  destruct files as [|f rest] eqn:Hf; [congruence|].
  cbn [List.length Nat.eqb scheduleNextFileInFolder activeFileUploads Z.of_nat].
  assert (Hno : js_lt 0 fileConcurrency = false).
  { destruct fileConcurrency as [n|]; [|reflexivity].
    cbn [js_lt]. apply Z.ltb_ge. now apply Hlimit. }
  rewrite Hno. reflexivity.
Qed.
End Orchestrator.

(** [upload] on a directory.  A failed scan fails the call, and a scan that
    finds no file returns the empty summary; but when the scan finds a file
    the call never settles: the folder orchestrator is handed an object in
    the place of the file concurrency, and starts no upload. *)
Theorem upload_of_a_directory (sep : ascii) (node : Node) (apiClient : ApiClient)
        (config : Config) (isPathIgnored : string -> string -> list string -> bool)
        (settlesNext : list nat -> nat) (absoluteSourcePath : string)
        (listing : Error + list Entry) (collection : string) (targetPath : option string) :
  let call :=
    upload sep node apiClient config isPathIgnored settlesNext absoluteSourcePath
      (inr (Directory listing)) collection targetPath in
  match scanFolderForUpload sep node isPathIgnored absoluteSourcePath
          (user_ignored_patterns config) absoluteSourcePath listing with
  | Throw e => call = Some ([], Throw e)
  | Return scanned =>
      match filesToUpload scanned with
      | [] =>
          call = Some ([], Return (FolderOutput
                                     {| totalFiles := 0; summary_successfulUploads := 0;
                                        summary_failedUploads := 0;
                                        summary_results := [] |}))
      | _ :: _ => call = None
      end
  end.
Proof.
  cbv zeta. unfold upload, processFolderUpload.
  destruct (scanFolderForUpload _ _ _ _ _ _ _) as [e|scanned]; [reflexivity|].
  destruct (filesToUpload scanned) as [|f rest] eqn:Hfiles; [reflexivity|].
  rewrite folder_call_needs_positive_concurrency; [reflexivity | discriminate|].
  intros n Hn. discriminate.
Qed.

(** *** The remote folder of a file *)





End FolderExtras.

(** ** The client's requests and storage helpers *)

Module ApiClientFacts.
Import Trace RunFacts SingleFileUploader SingleFileFacts.

Section Client.
Variables (stringify : JSON -> string) (toString : JSON -> string).
Variable request : string -> string -> option JSON
                   -> ApiClientJS.AxiosError + ApiClientJS.Response.

Local Abbreviation send := (ApiClientJS._request stringify request).

Lemma expected_iff (code : Z) (expected : list Z) :
  existsb (Z.eqb code) expected = true <-> In code expected.
Proof.
  rewrite existsb_exists. split.
  - intros (x & Hin & Heq). apply Z.eqb_eq in Heq. now subst.
  - intros Hin. exists code. split; [exact Hin | apply Z.eqb_refl].
Qed.

Lemma requestFailed_throws url message response hasRequest :
  exists e, ApiClientJS.requestFailed stringify url message response hasRequest = Throw e.
Proof.
  unfold ApiClientJS.requestFailed.
  destruct response; [|destruct hasRequest]; eexists; reflexivity.
Qed.

(** A request returns exactly when the server answered with one of the
    expected status codes, and what it returns is the body of that answer;
    in every other case it raises an error. *)
Theorem request_returns_expected_answers (method endpoint : string)
        (jsonData : option JSON) (expectedStatusCodes : list Z) :
  (forall data,
      send method endpoint jsonData expectedStatusCodes = Return data
      <-> exists response,
            request method endpoint jsonData = inr response /\
            In (ApiClientJS.response_status response) expectedStatusCodes /\
            ApiClientJS.response_data response = data) /\
  ((forall response,
       request method endpoint jsonData = inr response ->
       ~ In (ApiClientJS.response_status response) expectedStatusCodes) ->
   exists e, send method endpoint jsonData expectedStatusCodes = Throw e).
Proof.
  unfold ApiClientJS._request. split.
  - intros data. split.
    + destruct (request method endpoint jsonData) as [error|response].
      * destruct (requestFailed_throws endpoint (ApiClientJS.message error)
                    (ApiClientJS.error_response error) (ApiClientJS.error_request error))
          as [e He].
        rewrite He. discriminate.
      * destruct (existsb _ expectedStatusCodes) eqn:Hin; cbn [negb].
        -- intros H. inversion H; subst. exists response.
           repeat split. now apply expected_iff.
        -- discriminate.
    + intros (response & Hr & Hin & Hd). rewrite Hr.
      apply expected_iff in Hin. rewrite Hin. cbn [negb]. now subst.
  - intros Hnone.
    destruct (request method endpoint jsonData) as [error|response].
    + apply requestFailed_throws.
    + specialize (Hnone response eq_refl).
      destruct (existsb _ expectedStatusCodes) eqn:Hin.
      * apply expected_iff in Hin. contradiction.
      * cbn [negb]. eexists. reflexivity.
Qed.

(** An answer with an unexpected status code is reported as a request
    setup error: the error raised for it inside the [try] block is caught
    by the block's own handler, which finds neither a response nor a
    request on it. *)
Theorem unexpected_status_reported_as_setup_error (method endpoint : string)
        (jsonData : option JSON) (expectedStatusCodes : list Z)
        (response : ApiClientJS.Response) :
  request method endpoint jsonData = inr response ->
  ~ In (ApiClientJS.response_status response) expectedStatusCodes ->
  send method endpoint jsonData expectedStatusCodes
  = Throw ("Request setup error for " +++ endpoint +++ ": API request failed: "
           +++ string_of_Z (ApiClientJS.response_status response) +++ " "
           +++ ApiClientJS.statusText response +++ ". "
           +++ ApiClientJS.errorTextOf stringify (ApiClientJS.response_data response)).
Proof.
  intros Hr Hnot. unfold ApiClientJS._request. rewrite Hr.
  destruct (existsb _ expectedStatusCodes) eqn:Hin.
  - apply expected_iff in Hin. contradiction.
  - reflexivity.
Qed.
End Client.

Section Storage.
Variable toString : JSON -> string.
Variable post : string -> list (string * string) -> Buffer -> string -> string
                -> ApiClientJS.AxiosError + ApiClientJS.Response.
Variable put : PutCall -> string -> Buffer
               -> ApiClientJS.AxiosError + ApiClientJS.Response.
Variables (node : Node) (apiClient : ApiClient) (config : Config).
Hypothesis library : usesStorageHelpers toString post put apiClient.

(** With the storage helpers of apiClient.js, a PUT that is answered is
    answered with status 200, with the ETag header of the storage
    service's answer; any other status, and any failure of the request, is
    an error of the helper. *)
Theorem put_helper_returns_only_200 (call : PutCall) (url : string) (bytes : Buffer) :
  match uploadPartToS3PresignedPut apiClient call url bytes with
  | inr r =>
      status r = 200 /\
      exists response,
        put call url bytes = inr response /\
        ApiClientJS.response_status response = 200 /\
        headers_etag r = ApiClientJS.response_etag response
  | inl e =>
      (exists error, put call url bytes = inl error /\ e = ApiClientJS.message error) \/
      (exists response,
          put call url bytes = inr response /\
          ApiClientJS.response_status response <> 200 /\
          e = "S3 presigned PUT for part failed: "
              +++ string_of_Z (ApiClientJS.response_status response) +++ ". "
              +++ ApiClientJS.templateOf toString (ApiClientJS.response_data response))
  end.
Proof.
  destruct library as [_ Hput]. rewrite Hput.
  unfold ApiClientJS.uploadPartToS3PresignedPut.
  destruct (put call url bytes) as [error|response]; cbn [ApiClientJS.answerOf].
  - left. eauto.
  - destruct (Z.eqb_spec (ApiClientJS.response_status response) 200) as [Heq|Hne];
      cbn [negb ApiClientJS.answerOf].
    + cbn [status headers_etag]. split; [exact Heq|]. eauto.
    + right. eauto.
Qed.

(** With the storage helpers of apiClient.js, a single-unit transfer that
    is authorized for a form upload cannot succeed: the helper stops at its
    first statement, which reads a name the module does not define, so that
    nothing is sent to the storage service and nothing is confirmed. *)
Theorem form_upload_cannot_succeed (filePath : string) (fileSize : Z) (collection : string)
        (targetSubPath : option string) (bytes : Buffer) (tr0 : list Event)
        (info : PresignedInfo) (formFields : list (string * string)) :
  Utils.isFileTypeDisallowed node filePath = false ->
  createReadStream node filePath = inr bytes ->
  requestUrlLoop apiClient config (Z.to_nat (retry_attempts config + 1)) 0
    (initiatePayload fileSize collection targetSubPath (path_basename node filePath)
       (sha256_base64 node bytes) (Utils.getMimeType node filePath))
  = (tr0, Return (Some info)) ->
  fields info = Some formFields ->
  handleSingleFileUpload node apiClient config filePath fileSize collection targetSubPath
  = (tr0 ++ [UploadToS3PresignedPost (url info)], Throw "fsPromises is not defined").
Proof.
  intros Hallowed Hread Hloop Hfields.
  rewrite (handle_after_checksum node apiClient config filePath fileSize collection
             targetSubPath bytes Hallowed Hread).
  unfold afterChecksum. cbv zeta. rewrite Hloop. cbn [bind].
  unfold storageWrite. rewrite Hfields. unfold uploadByPost, await.
  destruct library as [Hpost _]. rewrite Hpost. reflexivity.
Qed.
End Storage.

End ApiClientFacts.

(** ** Ignore patterns as regular expressions *)

Module GlobFacts.
Import Glob StringFacts.

Lemma escapeSpecial_append (a b : string) :
  escapeSpecial (a +++ b) = escapeSpecial a +++ escapeSpecial b.
Proof.
  induction a as [|c a IH]; [reflexivity|]. cbn [String.append escapeSpecial].
  rewrite IH. now destruct (isSpecial c).
Qed.

Lemma replaceStar_append (a b : string) :
  replaceStar (a +++ b) = replaceStar a +++ replaceStar b.
Proof.
  induction a as [|c a IH]; [reflexivity|]. cbn [String.append replaceStar].
  rewrite IH. now destruct (Ascii.eqb c star).
Qed.

Lemma replaceQuestion_append (a b : string) :
  replaceQuestion (a +++ b) = replaceQuestion a +++ replaceQuestion b.
Proof.
  induction a as [|c a IH]; [reflexivity|]. cbn [String.append replaceQuestion].
  rewrite IH. now destruct (Ascii.eqb c question).
Qed.

Lemma special_not_star c : isSpecial c = true -> Ascii.eqb c star = false.
Proof.
  unfold isSpecial, specialChars. cbn [map existsb]. intros H.
  destruct (Ascii.eqb_spec c star) as [->|]; [|reflexivity].
  vm_compute in H. discriminate.
Qed.

Lemma endsWithStar_escape (a : string) :
  endsWithStar (escapeSpecial a) = endsWithStar a.
Proof.
  induction a as [|c a IH]; [reflexivity|].
  cbn [escapeSpecial]. destruct (isSpecial c) eqn:Hs.
  - pose proof (special_not_star c Hs) as Hc.
    destruct a as [|c' a'].
    + reflexivity.
    + change (endsWithStar (String c (String c' a'))) with (endsWithStar (String c' a')).
      rewrite <- IH. cbn [escapeSpecial].
      destruct (isSpecial c'); reflexivity.
  - destruct a as [|c' a']; [reflexivity|].
    change (endsWithStar (String c (String c' a'))) with (endsWithStar (String c' a')).
    rewrite <- IH. cbn [escapeSpecial].
    destruct (isSpecial c'); reflexivity.
Qed.

Lemma replaceDoubleStar_other c rest :
  Ascii.eqb c star = false ->
  replaceDoubleStar (String c rest) = String c (replaceDoubleStar rest).
Proof. intros H. cbn [replaceDoubleStar]. now rewrite H. Qed.

Lemma replaceDoubleStar_pair rest :
  replaceDoubleStar (String star (String star rest)) = ".*" +++ replaceDoubleStar rest.
Proof. reflexivity. Qed.

Lemma replaceDoubleStar_single c rest :
  Ascii.eqb c star = false ->
  replaceDoubleStar (String star (String c rest))
  = String star (replaceDoubleStar (String c rest)).
Proof.
  intros H.
  change (replaceDoubleStar (String star (String c rest)))
    with (if Ascii.eqb c star then ".*" +++ replaceDoubleStar rest
          else String star (replaceDoubleStar (String c rest))).
  now rewrite H.
Qed.

(** The replacement of the pairs of stars works on the two sides of a
    position independently, unless a star precedes the position. *)
Lemma replaceDoubleStar_append : forall (n : nat) (a b : string),
  (String.length a <= n)%nat ->
  endsWithStar a = false ->
  replaceDoubleStar (a +++ b) = replaceDoubleStar a +++ replaceDoubleStar b.
Proof.
  induction n as [|n IH]; intros a b Hlen Hend.
  - destruct a; [reflexivity | cbn in Hlen; lia].
  - destruct a as [|c a]; [reflexivity|].
    cbn [String.length] in Hlen.
    destruct (Ascii.eqb_spec c star) as [->|Hc].
    + destruct a as [|c' a'].
      * cbn [endsWithStar] in Hend. rewrite Ascii.eqb_refl in Hend. discriminate.
      * destruct (Ascii.eqb_spec c' star) as [->|Hc'].
        -- change (String star (String star a') +++ b)
             with (String star (String star (a' +++ b))).
           rewrite !replaceDoubleStar_pair, (IH a' b).
           ++ reflexivity.
           ++ cbn [String.length] in Hlen. lia.
           ++ destruct a' as [|c'' a''].
              ** cbn [endsWithStar] in Hend. rewrite Ascii.eqb_refl in Hend. discriminate.
              ** exact Hend.
        -- apply Ascii.eqb_neq in Hc'.
           change (String star (String c' a') +++ b)
             with (String star (String c' (a' +++ b))).
           rewrite !replaceDoubleStar_single by exact Hc'.
           change (String c' (a' +++ b)) with (String c' a' +++ b).
           rewrite (IH (String c' a') b); [reflexivity | lia | exact Hend].
    + apply Ascii.eqb_neq in Hc.
      change (String c a +++ b) with (String c (a +++ b)).
      rewrite !replaceDoubleStar_other by exact Hc.
      rewrite (IH a b); [reflexivity | lia |].
      destruct a as [|c' a']; [reflexivity | exact Hend].
Qed.

Lemma translate_append (a b : string) :
  endsWithStar a = false ->
  translate (a +++ b) = translate a +++ translate b.
Proof.
  intros Hend. unfold translate.
  rewrite escapeSpecial_append.
  rewrite (replaceDoubleStar_append (String.length (escapeSpecial a)));
    [|apply le_n | now rewrite endsWithStar_escape].
  now rewrite replaceStar_append, replaceQuestion_append.
Qed.

Lemma translate_plain (s : string) : plain s = true -> translate s = s.
Proof.
  unfold translate. induction s as [|c s IH]; [reflexivity|].
  cbn [plain]. intros H.
  apply andb_true_iff in H. destruct H as [H Hrest].
  apply andb_true_iff in H. destruct H as [Hs Hc].
  apply negb_true_iff in Hs, Hc.
  assert (Hq : Ascii.eqb c question = false).
  { destruct (Ascii.eqb_spec c question) as [->|]; [|reflexivity].
    vm_compute in Hs. discriminate. }
  cbn [escapeSpecial]. rewrite Hs. cbn [replaceDoubleStar]. rewrite Hc.
  cbn [replaceStar]. rewrite Hc. cbn [replaceQuestion]. rewrite Hq.
  now rewrite (IH Hrest).
Qed.

(** A pattern without special character and without star is taken
    literally: the expression is the pattern between [^] and [$], and for a
    pattern that ends with a slash, the pattern without that slash followed
    by an optional group for what lies below. *)
Theorem plain_pattern_is_literal (glob : string) :
  plain glob = true ->
  globToRegex glob
  = if endsWithSlash glob then "^" +++ dropLast glob +++ "(?:/.*)?$"
    else "^" +++ glob +++ "$".
Proof.
  intros H. unfold globToRegex. cbv zeta. now rewrite (translate_plain glob H).
Qed.

Lemma replaceDoubleStar_before : forall (n : nat) (a b : string),
  (String.length a <= n)%nat ->
  startsWithStar b = false ->
  replaceDoubleStar (a +++ b) = replaceDoubleStar a +++ replaceDoubleStar b.
Proof.
  induction n as [|n IH]; intros a b Hlen Hstart.
  - destruct a; [reflexivity | cbn in Hlen; lia].
  - destruct a as [|c a]; [reflexivity|].
    cbn [String.length] in Hlen.
    destruct (Ascii.eqb_spec c star) as [->|Hc].
    + destruct a as [|c' a'].
      * destruct b as [|c' b']; [reflexivity|].
        cbn [startsWithStar] in Hstart.
        change (String star EmptyString +++ String c' b') with (String star (String c' b')).
        rewrite replaceDoubleStar_single by exact Hstart. reflexivity.
      * destruct (Ascii.eqb_spec c' star) as [->|Hc'].
        -- change (String star (String star a') +++ b)
             with (String star (String star (a' +++ b))).
           rewrite !replaceDoubleStar_pair, (IH a' b);
             [reflexivity | cbn [String.length] in Hlen; lia | exact Hstart].
        -- apply Ascii.eqb_neq in Hc'.
           change (String star (String c' a') +++ b)
             with (String star (String c' (a' +++ b))).
           rewrite !replaceDoubleStar_single by exact Hc'.
           change (String c' (a' +++ b)) with (String c' a' +++ b).
           rewrite (IH (String c' a') b); [reflexivity | lia | exact Hstart].
    + apply Ascii.eqb_neq in Hc.
      change (String c a +++ b) with (String c (a +++ b)).
      rewrite !replaceDoubleStar_other by exact Hc.
      rewrite (IH a b); [reflexivity | lia | exact Hstart].
Qed.

(** A question mark in a pattern does not become the class of the
    characters other than a slash: the first replacement has put a
    backslash before it, which the last replacement leaves in place, so
    that the class comes out with its opening bracket escaped. *)
Theorem question_mark_comes_out_escaped (a b : string) :
  translate (a +++ "?" +++ b)
  = translate a +++ String backslash "[^/]" +++ translate b.
Proof.
  unfold translate. rewrite !escapeSpecial_append.
  change (escapeSpecial "?") with (String backslash "?").
  rewrite (replaceDoubleStar_before (String.length (escapeSpecial a)));
    [|apply le_n | reflexivity].
  change (String backslash "?" +++ escapeSpecial b)
    with (String backslash (String question (escapeSpecial b))).
  cbn [replaceDoubleStar].
  change (Ascii.eqb backslash star) with false.
  change (Ascii.eqb question star) with false. cbv iota.
  rewrite replaceStar_append, replaceQuestion_append.
  cbn [replaceStar replaceQuestion].
  change (Ascii.eqb backslash star) with false.
  change (Ascii.eqb question star) with false.
  change (Ascii.eqb backslash question) with false.
  change (Ascii.eqb question question) with true. cbv iota.
  reflexivity.
Qed.

(** Two stars in a pattern do not become [.*]: the replacement of the
    single stars, which comes next, rewrites the star of [.*] too, and what
    comes out is a dot followed by any run of characters other than a
    slash. *)
Theorem double_star_stops_at_slash (a b : string) :
  endsWithStar a = false ->
  translate (a +++ "**" +++ b) = translate a +++ ".[^/]*" +++ translate b.
Proof.
  intros Ha. rewrite (translate_append a _ Ha). reflexivity.
Qed.

End GlobFacts.

(** ** Further concrete runs *)

Module MoreRuns.
Import Trace Observe PartRecord RunFacts.

Local Abbreviation startRequest1 :=
  (MultipartUploader.startPayload "coll" None "abc.bin" "application/octet-stream"
     "ungWv48Bz+pBQUDeXa4iI7ADYaOWF3qctBD/YfIAFa0=").

(** A file of 10000 chunks of 5 MiB and one byte more. *)
Lemma multipart_refuses_oversized_file_witness :
  MultipartUploader.handleMultipartUpload Scenario.node0 Scenario.backendUp Scenario.chunk5
    "/data/abc.bin" 52428800001 "coll" None
  = ([], Throw "File requires 10001 parts, exceeding S3 limit.").
Proof.
  exact (MultipartStart.multipart_refuses_oversized_file Scenario.node0 Scenario.backendUp
           Scenario.chunk5 "/data/abc.bin" 52428800001 "coll" None eq_refl eq_refl).
Defined.

(** The three-byte file against a backend that refuses everything. *)
Lemma multipart_start_failure_witness :
  MultipartUploader.handleMultipartUpload Scenario.node0 Scenario.backendDown
    Scenario.retryOnce "/data/abc.bin" 3 "coll" None
  = ([StartMultipartUpload startRequest1], Throw "Failed to initiate MPU: boom").
Proof.
  refine (proj1 (MultipartStart.multipart_start_failure Scenario.node0 Scenario.backendDown
                   Scenario.retryOnce "/data/abc.bin" 3 "coll" None Scenario.abc
                   eq_refl _ eq_refl) "boom" eq_refl).
  vm_compute. discriminate.
Defined.

(** The three-byte file on a file system whose positioned reads fail. *)
Lemma multipart_read_failure_leaves_session_witness :
  calls (MultipartUploader.handleMultipartUpload Scenario2.nodeNoRead Scenario.backendUp
           Scenario.retryOnce "/data/abc.bin" 3 "coll" None)
  = [StartMultipartUpload startRequest1] /\
  count isAbort
    (calls (MultipartUploader.handleMultipartUpload Scenario2.nodeNoRead Scenario.backendUp
              Scenario.retryOnce "/data/abc.bin" 3 "coll" None)) = O /\
  exists e,
    outcome (MultipartUploader.handleMultipartUpload Scenario2.nodeNoRead Scenario.backendUp
               Scenario.retryOnce "/data/abc.bin" 3 "coll" None) = Throw e.
Proof.
  refine (MultipartStart.multipart_read_failure_leaves_session Scenario2.nodeNoRead
            Scenario.backendUp Scenario.retryOnce "/data/abc.bin" 3 "coll" None Scenario.abc
            {| upload_id := "upload-1"; start_s3_key := "incoming/abc.bin" |}
            eq_refl _ eq_refl eq_refl _ _ _).
  - vm_compute. discriminate.
  - discriminate.
  - discriminate.
  - apply Exists_cons_hd. exact I.
Defined.

(** The part of the three-byte file against a backend that refuses the
    first request for a URL. *)
Lemma part_upload_stops_at_first_success_witness :
  exists pt' tr,
    MultipartUploader._uploadSinglePartWithRetryJS_MPU Scenario.node0
      Scenario2.backendSecondTry Scenario.retryOnce
      "upload-1" "incoming/abc.bin" "coll" "application/octet-stream" Scenario.part1
    = (pt', (tr, Return (Some {| MultipartUploader.PartNumber := 1;
                                 MultipartUploader.ETag := "etag-1";
                                 MultipartUploader.ChecksumSHA256 :=
                                   Some "ungWv48Bz+pBQUDeXa4iI7ADYaOWF3qctBD/YfIAFa0=" |}))) /\
    steps tr = [Attempt 0; Wait 1000; Attempt 1] /\
    Partition.retries pt' = 1 /\ Partition.etag pt' = Some "etag-1" /\
    Partition.error pt' = None /\ Partition.data pt' = Some Scenario.abc.
Proof.
  refine (PartExtras.part_upload_stops_at_first_success Scenario.node0
            Scenario2.backendSecondTry Scenario.retryOnce
            "upload-1" "incoming/abc.bin" "coll" "application/octet-stream"
            Scenario.part1 Scenario.abc (fun _ => "busy") 1 _ "etag-1"
            eq_refl eq_refl eq_refl _ _ eq_refl).
  - cbn. lia.
  - intros j Hj. assert (j = 0) by lia. subst j. reflexivity.
Defined.

(** The part of the three-byte file against a backend that accepts
    everything. *)
Lemma part_etag_comes_from_storage_witness :
  exists pt' tr info,
    MultipartUploader._uploadSinglePartWithRetryJS_MPU Scenario.node0 Scenario.backendUp
      Scenario.retryOnce "upload-1" "incoming/abc.bin" "coll" "application/octet-stream"
      Scenario.part1
    = (pt', (tr, Return (Some info))) /\
    MultipartUploader.PartNumber info = 1 /\
    Partition.etag pt' = Some (MultipartUploader.ETag info) /\
    no_quote (MultipartUploader.ETag info) = true.
Proof.
  eexists _, _, _. split; [reflexivity|].
  destruct (PartExtras.part_etag_comes_from_storage Scenario.node0 Scenario.backendUp
              Scenario.retryOnce "upload-1" "incoming/abc.bin" "coll"
              "application/octet-stream" Scenario.part1 _ _ _ eq_refl)
    as (Hn & He & _ & _ & Hq & _).
  split; [exact Hn|]. split; [exact He | exact Hq].
Defined.

(** The session of the three-byte file against a backend that accepts
    everything. *)
Lemma completion_lists_parts_in_order_witness :
  map MultipartUploader.PartNumber
    (MultipartUploader.sortByPartNumber
       (MultipartUploader.uploadedPartsInfo Scenario.node0 Scenario.backendUp
          Scenario.retryOnce "coll" Scenario.session1))
  = [1] /\
  map (fun v => Some (MultipartUploader.ETag v))
    (MultipartUploader.sortByPartNumber
       (MultipartUploader.uploadedPartsInfo Scenario.node0 Scenario.backendUp
          Scenario.retryOnce "coll" Scenario.session1))
  = [Some "etag-1"].
Proof.
  pose proof (SessionExtras.completion_lists_parts_in_order Scenario.node0 Scenario.backendUp
                Scenario.retryOnce "/data/abc.bin" 3 "coll" None
                [StartMultipartUpload startRequest1] Scenario.session1 eq_refl eq_refl) as H.
  cbv zeta in H. destruct H as (_ & Hn & He & _).
  split; [exact Hn | exact He].
Defined.

(** An empty file against a backend that accepts everything. *)
Lemma multipart_empty_file_witness :
  outcome (MultipartUploader.handleMultipartUpload Scenario.node0 Scenario.backendUp
             Scenario.retryOnce "/data/abc.bin" 0 "coll" None)
  = Return Scenario.multipartResult /\
  count isPartUrlRequest
    (calls (MultipartUploader.handleMultipartUpload Scenario.node0 Scenario.backendUp
              Scenario.retryOnce "/data/abc.bin" 0 "coll" None)) = O.
Proof.
  rewrite (proj1 (SessionExtras.multipart_empty_file Scenario.node0 Scenario.backendUp
                    Scenario.retryOnce "/data/abc.bin" "coll" None Scenario.abc
                    {| upload_id := "upload-1"; start_s3_key := "incoming/abc.bin" |}
                    eq_refl eq_refl eq_refl ltac:(discriminate) ltac:(discriminate))
             {| Location := Some "https://storage/incoming/abc.bin" |} eq_refl).
  split; reflexivity.
Defined.

(** An executable is refused by both transfers. *)
Lemma transfers_refuse_without_call_witness :
  SingleFileUploader.handleSingleFileUpload Scenario2.nodeExe Scenario.backendUp
    Scenario.retryOnce "/data/setup.exe" 3 "coll" None
  = ([], Throw "Disallowed file type: .exe") /\
  MultipartUploader.handleMultipartUpload Scenario2.nodeExe Scenario.backendUp
    Scenario.retryOnce "/data/setup.exe" 3 "coll" None
  = ([], Throw "Disallowed file type: .exe").
Proof.
  exact (proj1 (SingleExtras.transfers_refuse_without_call Scenario2.nodeExe
                  Scenario.backendUp Scenario.retryOnce "/data/setup.exe" 3 "coll" None)
           eq_refl).
Defined.

(** The three-byte file against a backend that refuses the first
    authorization request. *)
Lemma single_authorized_after_retries_witness :
  steps (calls (SingleFileUploader.handleSingleFileUpload Scenario.node0
                  Scenario2.backendSecondTry Scenario.retryOnce
                  "/data/abc.bin" 3 "coll" None))
  = [Attempt 0; Wait 1000; Attempt 1].
Proof.
  refine (proj1 (SingleExtras.single_authorized_after_retries Scenario.node0
                   Scenario2.backendSecondTry Scenario.retryOnce
                   "/data/abc.bin" 3 "coll" None Scenario.abc (fun _ => "busy") 1
                   {| url := "https://storage/put"; s3_key := "incoming/abc.bin";
                      fields := None |}
                   eq_refl eq_refl _ _ eq_refl)).
  - cbn. lia.
  - intros j Hj. assert (j = 0) by lia. subst j. reflexivity.
Defined.

(** The scan of [Scenario.tree1] on POSIX. *)
Lemma scan_finds_the_eligible_files_witness :
  exists item,
    In item Scenario.tree1 /\
    Scanned.eligible slash Scenario.node0 Scenario.nothingIgnored "/data" []
      "/data" item
      {| FolderProcessor.localPath := "/data/sub/a.txt";
         FolderProcessor.relativePath := "sub/a.txt";
         FolderProcessor.size := 3;
         FolderProcessor.status := pending;
         FolderProcessor.errorMessage := None |}.
Proof.
  apply (ScanExtras.scan_finds_the_eligible_files slash Scenario.node0
           Scenario.nothingIgnored "/data" [] Scenario.tree1 Scenario2.posixScan eq_refl).
  left. reflexivity.
Defined.

Lemma scan_total_is_sum_of_sizes_witness :
  FolderProcessor.totalSize Scenario2.posixScan
  = Scanned.sizeOfAll (FolderProcessor.filesToUpload Scenario2.posixScan).
Proof.
  exact (ScanExtras.scan_total_is_sum_of_sizes slash Scenario.node0
           Scenario.nothingIgnored "/data" [] Scenario.tree1 Scenario2.posixScan eq_refl).
Defined.

(** A folder with a sub-folder that cannot be listed: the scan fails,
    although it has found a file. *)
Lemma scan_fails_on_a_broken_entry_witness :
  exists e,
    FolderProcessor.scanFolderForUpload slash Scenario.node0 Scenario.nothingIgnored
      "/data" [] "/data" (inr Scenario2.treeBroken)
    = Throw e.
Proof.
  destruct (ScanExtras.scan_fails_on_a_broken_entry slash Scenario.node0
              Scenario.nothingIgnored "/data" [] Scenario2.treeBroken) as [_ H].
  apply (H (FolderProcessor.DirEntry "locked" (inl "EACCES: permission denied, scandir"))
           "EACCES: permission denied, scandir").
  - right. left. reflexivity.
  - constructor. reflexivity.
Defined.

Local Abbreviation single1 :=
  (Index.doSingleUpload Scenario.node0 Scenario.backendUp Scenario.noRetry).
Local Abbreviation multi1 :=
  (Index.doMultipartUpload Scenario.node0 Scenario.backendUp Scenario.noRetry).

(** Two files and a file concurrency of one: one upload is pending after
    the first scheduling. *)
Lemma folder_concurrency_bound_witness :
  Z.of_nat
    (List.length
       (FolderProcessor.activeFileUploads
          (FolderProcessor.scheduleNextFileInFolder (Num 1)
             (FolderProcessor.filesToUpload Scenario2.posixScan) 2 Progress.initial)))
  <= Z.max 0 1.
Proof.
  exact (FolderExtras.folder_concurrency_bound slash Scenario.noRetry single1 multi1
           "coll" None (Num 1) 2 (FolderProcessor.filesToUpload Scenario2.posixScan)
           _ (Progress.Reached_start slash Scenario.noRetry single1 multi1
                "coll" None (Num 1) 2 (FolderProcessor.filesToUpload Scenario2.posixScan))).
Defined.

Local Abbreviation folderCall1 :=
  (FolderProcessor.uploadScannedFiles slash Scenario.noRetry single1 multi1
     Scenario.firstStartedFirst "coll" None (Num 2) 2 Scenario2.files1).

(** The folder that holds the three-byte file, against a backend that
    accepts everything. *)
Lemma folder_summary_counts_every_file_witness :
  match folderCall1 with
  | Some run =>
      match outcome run with
      | Return summary =>
          FolderProcessor.summary_successfulUploads summary = 1 /\
          List.length (FolderProcessor.summary_results summary) = 1%nat
      | Throw _ => False
      end
  | None => False
  end.
Proof.
  pose proof (FolderExtras.folder_summary_counts_every_file slash Scenario.noRetry single1
                multi1 Scenario.firstStartedFirst "coll" None (Num 2) 2 Scenario2.files1
                _ eq_refl) as H.
  destruct H as (_ & Hs & _ & Hl & _). split; [exact Hs | exact Hl].
Defined.


(** The same folder when the file concurrency is not a number. *)
Lemma folder_call_needs_positive_concurrency_witness :
  FolderProcessor.uploadScannedFiles slash Scenario.noRetry single1 multi1
    Scenario.firstStartedFirst "coll" None NaN 2 Scenario2.files1
  = None.
Proof.
  apply FolderExtras.folder_call_needs_positive_concurrency.
  - discriminate.
  - intros n H. discriminate H.
Defined.

(** The same folder with a file concurrency of two. *)
Lemma folder_call_settles_witness :
  exists run, folderCall1 = Some run.
Proof.
  apply (FolderClaims.folder_call_settles slash Scenario.noRetry single1 multi1
           Scenario.firstStartedFirst "coll" None (Num 2) 2 Scenario2.files1 2 eq_refl).
  lia.
Defined.


(** An abort request that the backend answers with 200. *)
Lemma request_returns_expected_answers_witness :
  exists e,
    ApiClientJS.abortMultipartUpload Scenario2.plainText Scenario2.abortAnswered200 JNull
    = Throw e.
Proof.
  apply (proj2 (ApiClientFacts.request_returns_expected_answers Scenario2.plainText
                  Scenario2.abortAnswered200 "POST" "multipart/abort" (Some JNull) [204])).
  intros response H. injection H as <-. cbn. intros [H|[]]. discriminate H.
Defined.

Lemma unexpected_status_reported_as_setup_error_witness :
  ApiClientJS.abortMultipartUpload Scenario2.plainText Scenario2.abortAnswered200 JNull
  = Throw "Request setup error for multipart/abort: API request failed: 200 OK. aborted".
Proof.
  refine (ApiClientFacts.unexpected_status_reported_as_setup_error Scenario2.plainText
            Scenario2.abortAnswered200 "POST" "multipart/abort" (Some JNull) [204]
            _ eq_refl _).
  cbn. intros [H|[]]. discriminate H.
Defined.

Lemma libraryClient_uses_helpers :
  usesStorageHelpers Scenario2.plainText
    (fun _ _ _ _ _ => inr Scenario2.storageNoContent)
    (fun _ _ _ => inr Scenario2.storageOk)
    Scenario2.libraryClient.
Proof. split; intros; reflexivity. Defined.

(** A PUT through the storage helper of apiClient.js. *)
Lemma put_helper_returns_only_200_witness :
  exists r,
    uploadPartToS3PresignedPut Scenario2.libraryClient PutWholeFile
      "https://storage/put" Scenario.abc = inr r /\
    status r = 200.
Proof.
  eexists. split; [reflexivity|].
  exact (proj1 (ApiClientFacts.put_helper_returns_only_200 Scenario2.plainText
                  (fun _ _ _ _ _ => inr Scenario2.storageNoContent)
                  (fun _ _ _ => inr Scenario2.storageOk)
                  Scenario2.libraryClient libraryClient_uses_helpers
                  PutWholeFile "https://storage/put" Scenario.abc)).
Defined.

(** The three-byte file, authorized for a form upload, through the storage
    helper of apiClient.js. *)
Lemma form_upload_cannot_succeed_witness :
  SingleFileUploader.handleSingleFileUpload Scenario.node0 Scenario2.libraryClient
    Scenario.noRetry "/data/abc.bin" 3 "coll" None
  = ([GetPresignedUrlSingle 0 Scenario.request1]
       ++ [UploadToS3PresignedPost "https://storage/post"],
     Throw "fsPromises is not defined").
Proof.
  exact (ApiClientFacts.form_upload_cannot_succeed Scenario2.plainText
           (fun _ _ _ _ _ => inr Scenario2.storageNoContent)
           (fun _ _ _ => inr Scenario2.storageOk)
           Scenario.node0 Scenario2.libraryClient Scenario.noRetry
           libraryClient_uses_helpers
           "/data/abc.bin" 3 "coll" None Scenario.abc
           [GetPresignedUrlSingle 0 Scenario.request1]
           {| url := "https://storage/post"; s3_key := "incoming/abc.bin";
              fields := Some [("key", "incoming/abc.bin")] |}
           [("key", "incoming/abc.bin")]
           eq_refl eq_refl eq_refl eq_refl).
Defined.

(** The default pattern for Python's cache folders. *)
Lemma plain_pattern_is_literal_witness :
  Glob.globToRegex "__pycache__/" = "^__pycache__(?:/.*)?$".
Proof. exact (GlobFacts.plain_pattern_is_literal "__pycache__/" eq_refl). Defined.

(** A pattern meant for every "x" anywhere below "docs". *)
Lemma double_star_stops_at_slash_witness :
  Glob.translate "docs/**/x" = "docs/.[^/]*/x".
Proof. exact (GlobFacts.double_star_stops_at_slash "docs/" "/x" eq_refl). Defined.

End MoreRuns.
